(** * The ABB/Baldor catalog scrapper: a shallow embedding and its properties

    The development follows [src/scrappers/abb_scrapper.py] and the helpers it
    calls ([src/utils.py], [src/wrappers/request.py],
    [src/wrappers/selenium_connection.py], [src/base_scrapping.py],
    [src/main.py]).

    Python texts are modelled as [string]: a text is a sequence of
    characters with codes below 256 (U+0000 to U+00FF), and the character
    classes of the regular expressions and [str.lower] are those of Python
    on that range. What the program gets from outside (the network, the
    browser, the disk, the builtin [float], the order in which a set is
    iterated) is gathered in a record [env]; the scrapper object, the log and
    the files written are the state of a monad in which a raise keeps the
    state reached. *)

From Stdlib Require Import Ascii String NArith ZArith List Bool Lia.
From Stdlib Require PrimFloat Uint63.
From stdpp Require Import base option list gmap sets strings.

Import (notations) PrimFloat.

Abbreviation float := PrimFloat.float.

(** ** Texts *)

Definition ord (c : ascii) : N := N_of_ascii c.
Definition chr (n : N) : ascii := ascii_of_N n.

Definition in_range (lo hi : N) (c : ascii) : bool :=
  ((lo <=? ord c) && (ord c <=? hi))%N.

(** [\d]: below U+0100 the decimal digits are 0 to 9. *)
Definition is_digit (c : ascii) : bool := in_range 48 57 c.
(** The letters A to Z and a to z. *)
Definition is_upper (c : ascii) : bool := in_range 65 90 c.
Definition is_lower (c : ascii) : bool := in_range 97 122 c.
Definition is_dot (c : ascii) : bool := (ord c =? 46)%N.
(** The capital letters from U+00C0 to U+00DE (the multiplication sign
    U+00D7 is not one). *)
Definition is_upper_latin (c : ascii) : bool :=
  in_range 192 214 c || in_range 216 222 c.
(** The characters from U+0080 to U+00FF that Python takes for alphanumeric:
    the ordinal indicators, the superscript digits, the micro sign, the
    vulgar fractions and the letters. *)
Definition is_alnum_latin (c : ascii) : bool :=
  (ord c =? 170)%N || in_range 178 179 c || (ord c =? 181)%N
  || in_range 185 186 c || in_range 188 190 c
  || in_range 192 214 c || in_range 216 246 c || in_range 248 255 c.
(** [\w] for a text pattern: an alphanumeric character or the underscore;
    [\W] is its complement. *)
Definition is_word (c : ascii) : bool :=
  is_digit c || is_upper c || is_lower c || (ord c =? 95)%N || is_alnum_latin c.

(** [str.lower] on one character: below U+0100 every capital has its small
    letter 32 places further. *)
Definition lower_char (c : ascii) : ascii :=
  if is_upper c || is_upper_latin c then chr (ord c + 32) else c.
(** [str.upper] on one character of the ASCII range; the code applies it to
    the text of [hex] only. *)
Definition upper_char (c : ascii) : ascii :=
  if is_lower c then chr (ord c - 32) else c.

Fixpoint map_chars (f : ascii → ascii) (s : string) : string :=
  match s with
  | EmptyString => EmptyString
  | String c r => String (f c) (map_chars f r)
  end.

(** [str.lower], and [str.upper] on an ASCII text *)
Definition lower : string → string := map_chars lower_char.
Definition upper : string → string := map_chars upper_char.

(** [old in s[0:len(old)]] *)
Fixpoint starts_with (old s : string) : bool :=
  match old, s with
  | EmptyString, _ => true
  | String a old', String b s' => if decide (a = b) then starts_with old' s' else false
  | String _ _, EmptyString => false
  end.

(** [s.replace(old, new)] for a non-empty [old]: the occurrences are taken
    from the left and do not overlap; [skip] counts the characters of the
    occurrence just replaced that are still to be passed over. *)
Fixpoint replace_from (old new : string) (skip : nat) (s : string) : string :=
  match s with
  | EmptyString => EmptyString
  | String c r =>
      match skip with
      | S k => replace_from old new k r
      | O =>
          if starts_with old s
          then new +:+ replace_from old new (String.length old - 1) r
          else String c (replace_from old new 0 r)
      end
  end.

Definition replace (old new s : string) : string := replace_from old new 0 s.

(** [sep.join(l)] *)
Fixpoint join (sep : string) (l : list string) : string :=
  match l with
  | [] => EmptyString
  | [x] => x
  | x :: r => x +:+ sep +:+ join sep r
  end.

(** The longest prefix whose characters satisfy [p], and the rest. *)
Fixpoint span (p : ascii → bool) (s : string) : string * string :=
  match s with
  | EmptyString => (EmptyString, EmptyString)
  | String c r =>
      if p c then let '(a, b) := span p r in (String c a, b)
      else (EmptyString, s)
  end.

(** One attempt of the pattern [\d+\.*\d*] at the head of [s]. The three
    parts are greedy; the last two accept the empty text, so nothing is ever
    given back. *)
Definition match_number (s : string) : option string :=
  let '(d1, r1) := span is_digit s in
  match d1 with
  | EmptyString => None
  | String _ _ =>
      let '(dots, r2) := span is_dot r1 in
      let '(d2, _) := span is_digit r2 in
      Some (d1 +:+ dots +:+ d2)
  end.

(** [re.findall] for a pattern without groups whose matches are not empty,
    given as the function [m] that attempts the pattern at the head of a
    text: the text is scanned from the left, a match is recorded and the scan
    resumes right after it. *)
Fixpoint findall_from (m : string → option string) (skip : nat) (s : string)
  : list string :=
  match s with
  | EmptyString => []
  | String _ r =>
      match skip with
      | S k => findall_from m k r
      | O =>
          match m s with
          | Some piece => piece :: findall_from m (String.length piece - 1) r
          | None => findall_from m 0 r
          end
      end
  end.

Definition findall (m : string → option string) (s : string) : list string :=
  findall_from m 0 s.

(** [str.split(sep)[0]] for a one-character separator: the text before the
    first separator, the whole text when there is none. *)
Fixpoint split_first (sep : ascii) (s : string) : string :=
  match s with
  | EmptyString => EmptyString
  | String c r => if decide (c = sep) then EmptyString else String c (split_first sep r)
  end.

(** [s.split(sep)] for a one-character separator. *)
Fixpoint split_on (sep : ascii) (s : string) : list string :=
  match s with
  | EmptyString => [EmptyString]
  | String c r =>
      if decide (c = sep) then EmptyString :: split_on sep r
      else
        match split_on sep r with
        | x :: l => String c x :: l
        | [] => [String c EmptyString]
        end
  end.

(** [hex(n)]: the prefix 0x and the lower-case digits, no padding. *)
Definition hex_digit (n : N) : ascii :=
  if (n <? 10)%N then chr (48 + n) else chr (87 + n).

Fixpoint hex_digits (fuel : nat) (n : N) (acc : string) : string :=
  match fuel with
  | O => acc
  | S f =>
      let acc' := String (hex_digit (n mod 16)) acc in
      if (n <? 16)%N then acc' else hex_digits f (n / 16) acc'
  end.

Definition hex (n : N) : string :=
  "0x" +:+ hex_digits (S (N.size_nat n)) n EmptyString.

(** ** The escaping of a CAD descriptor's URL ([download_cad]) *)

(** One attempt of [\W] at the head of a text. *)
Definition match_non_word (s : string) : option string :=
  match s with
  | String c _ => if is_word c then None else Some (String c EmptyString)
  | EmptyString => None
  end.

Definition first_char (s : string) : option ascii :=
  match s with String c _ => Some c | EmptyString => None end.

(** [set(re.findall(r"\W", url_string))]; a one-character text is kept as
    its character. *)
Definition non_words_char (url_string : string) : gset ascii :=
  list_to_set (omap first_char (findall match_non_word url_string)).

(** [hex(ord(c)).replace("0x", "%").upper()] *)
Definition hex_ascii (c : ascii) : string :=
  upper (replace "0x" "%" (hex (ord c))).

(** [re.sub(rf"\{c}", repl, s)] for a character [c] outside [\w]: the
    pattern is the escaped literal [c], and [repl] holds no backslash. *)
Fixpoint re_sub_char (c : ascii) (repl s : string) : string :=
  match s with
  | EmptyString => EmptyString
  | String a r =>
      if decide (a = c) then repl +:+ re_sub_char c repl r
      else String a (re_sub_char c repl r)
  end.

(** A Python [set] is iterated in an order that the interpreter chooses (for
    texts it changes with the hash seed of the process): [order] is one
    enumeration of the set. *)
Definition iteration_of (X : gset ascii) (order : list ascii) : Prop :=
  NoDup order ∧ ∀ c, c ∈ order ↔ c ∈ X.

(** The loop [for c in non_words_char: ...] run along [order]. *)
Definition escape_url (order : list ascii) (url_string : string) : string :=
  foldl (λ url c, re_sub_char c (hex_ascii c) url) url_string order.

(** ** Catalog resolver ([get_products]) *)

Inductive exn :=
  | ValueError | TypeError | AttributeError | KeyError | IndexError
  | SyntaxError | XMLSyntaxError
  | UnboundLocalError | OSError | WebDriverException.

Inductive outcome (A : Type) :=
  | Return (a : A)
  | Raise (e : exn).
Arguments Return {A} a.
Arguments Raise {A} e.

Definition PRODUCT_URL : string := "https://www.baldor.com/catalog/".

(** The [unique] entry of the configuration: absent, a list, or something
    else. *)
Inductive unique_cfg :=
  | UniqueNone
  | UniqueList (ids : list string)
  | UniqueOther.

(** What [get_xml_respone] makes of the request for the catalog. *)
Inductive feed_outcome :=
  (** the texts of the elements named [Code], as a set; the text of an
      empty element is [None] *)
  | FeedTexts (texts : gset (option string))
  (** [get_response] has answered [False]: the read of [.raw] raises *)
  | FeedNoResponse
  (** the request has failed by an exception that [get_response] leaves
      without message *)
  | FeedUnclassified
  (** the document is not well-formed *)
  | FeedMalformed.

(** The value of the local [products]: a set or a list. *)
Inductive products_val :=
  | PSet (s : gset (option string))
  | PList (l : list (option string)).

Definition iter_products (p : products_val) : list (option string) :=
  match p with
  | PSet s => elements s
  | PList l => l
  end.

Definition to_set (p : products_val) : gset (option string) :=
  match p with
  | PSet s => s
  | PList l => list_to_set l
  end.

(** [[PRODUCT_URL + prod for prod in products]]: the sum of a text and
    [None] raises [TypeError]. *)
Definition product_urls (products : list (option string)) : outcome (list string) :=
  match mapM (λ prod : option string, (λ id, PRODUCT_URL +:+ id) <$> prod) products with
  | Some urls => Return urls
  | None => Raise TypeError
  end.

(** [feed] is what [get_xml_respone] does; [sample] is the draw of
    [random.sample], which raises when the number asked is negative or
    exceeds the population; [limit] is an integer or [None]. *)
Definition get_products
    (feed : feed_outcome)
    (sample : list (option string) → nat → list (option string))
    (limit : option Z) (unique : unique_cfg)
    (processed_ids : option (gset string)) : outcome (list string) :=
  let products :=
    match unique with
    | UniqueNone =>
        match feed with
        | FeedNoResponse => Raise AttributeError
        | FeedUnclassified => Raise UnboundLocalError
        | FeedMalformed => Raise XMLSyntaxError
        | FeedTexts products =>
            match limit with
            | None => Return (PSet products)
            | Some k =>
                if decide (0 ≤ k ≤ Z.of_nat (length (elements products)))%Z
                then Return (PList (sample (elements products) (Z.to_nat k)))
                else Raise ValueError
            end
        end
    | UniqueList ids => Return (PSet (list_to_set (Some <$> ids)))
    | UniqueOther => Raise ValueError
    end in
  match products with
  | Raise e => Raise e
  | Return products =>
      let products :=
        match processed_ids with
        | Some processed =>
            PSet (to_set products ∖ set_map (D:=gset (option string)) Some processed)
        | None => products
        end in
      product_urls (iter_products products)
  end.

(** ** The scrapper: data, page, environment *)

Section Scrapper.

(** [F] stands for Python's floats and [py_float] for the builtin [float]
    applied to a text ([None] when it raises [ValueError]). *)
Context {F : Type}.

(** A cell of a pandas table: a text, a number, or the missing value NaN. *)
Inductive cell :=
  | CStr (s : string)
  | CNum (x : F)
  | CNaN.

(** A table: the column names and the rows, a cell per column. *)
Record DataFrame := {
  columns : list string;
  data : list (list cell);
}.

(** The [assets] dictionary, with its three keys. *)
Record assets_metadata := {
  image : option string;
  manual : option string;
  cad : option (gmap string string);
}.

(** The dataclass of [base_scrapping.py]; [None] is Python's [None]. *)
Record JsonSchema := {
  product_id : option string;
  name : option string;
  description : option string;
  specs : option (gmap string string);
  bom : option (list (gmap string cell));
  assets : option assets_metadata;
}.

Definition empty_schema : JsonSchema :=
  {| product_id := None; name := None; description := None;
     specs := None; bom := None; assets := None |}.

(** An entry of the decoded CAD manifest: a dict with a text under each
    of the keys [name], [value] and [url]. *)
Record cad_info := {
  cad_name : string;
  cad_value : string;
  cad_url : string;
}.

(** What the browser shows for one product: the answers of the element
    look-ups that the extractors make.
    - [page_title], [product_description]: text of [div.page-title] and of
      [div.product-description], [None] when the element is not found;
    - [tab_specs], [tab_parts], [tab_drawings]: whether the tab
      [//li[@data-tab='...']] exists;
    - [span_labels], [span_values]: texts of [span.label] and [span.value];
    - [parts_pane]: the active parts pane, [None] when not found; inside,
      what [pd.read_html] makes of its markup: [None] when it raises
      [ValueError], else the tables it returns;
    - [product_image], [info_packet]: [src] of the product image and [href]
      of the manual link;
    - [cadfiles]: the CAD section, [None] when not found; inside, what the
      decoding of its [ng-init] text gives ([re.sub], the two
      [ast.literal_eval] and the index between them): [None] when it raises,
      else the descriptors;
    - [cadfiles_error]: the exception that this decoding raises when it
      does: [TypeError] (no such attribute, or a value that cannot be
      indexed), [SyntaxError] or [ValueError] (from [ast.literal_eval]),
      [IndexError] or [KeyError] (from the index). *)
Record page := {
  page_title : option string;
  product_description : option string;
  tab_specs : bool;
  tab_parts : bool;
  tab_drawings : bool;
  span_labels : option (list string);
  span_values : option (list string);
  parts_pane : option (option (list DataFrame));
  product_image : option string;
  info_packet : option string;
  cadfiles : option (option (list cad_info));
  cadfiles_error : exn;
}.

(** What [requests.get] followed by [raise_for_status] does. *)
Inductive http_outcome :=
  | HttpOk
  | HttpTimeout
  | HttpConnectionError
  | HttpError
  | HttpOtherException.

(** What the body of the [try] of [json_write] does. *)
Inductive dump_outcome :=
  | DumpOk
  | DumpTypeError
  | DumpIOError
  | DumpOtherException.

(** The world outside the program. *)
Record env := {
  py_float : string → option F;
  http_get : string → http_outcome;
  render : string → option page;
  stalled : string → option page;
  writable : string → bool;
  json_dump : string → JsonSchema → dump_outcome;
  set_order : gset ascii → list ascii;
}.

Inductive file :=
  | Downloaded (src_url : string)
  | JsonDoc (doc : JsonSchema)
  | Truncated.

Inductive level := INFO | WARNING | ERROR | SUCCESS.

Inductive session :=
  | NoDriver
  | Live (pg : page)
  | Closed.

(** The scrapper object and what it has written so far. *)
Record scrapper := {
  product_info : JsonSchema;
  driver : session;
  logs : list (level * string);
  files : gmap string file;
}.

Definition new_scrapper : scrapper :=
  {| product_info := empty_schema; driver := NoDriver; logs := []; files := ∅ |}.

(** ** A state monad with exceptions; the state survives a raise. *)

Definition M (A : Type) : Type := scrapper → outcome A * scrapper.

Definition ret {A} (a : A) : M A := λ st, (Return a, st).
Definition raise {A} (e : exn) : M A := λ st, (Raise e, st).
Definition bind {A B} (m : M A) (k : A → M B) : M B :=
  λ st, match m st with
        | (Return a, st') => k a st'
        | (Raise e, st') => (Raise e, st')
        end.
Definition get_state : M scrapper := λ st, (Return st, st).

(** [try: m except ValueError: h] *)
Definition except_ValueError {A} (m : M A) (h : M A) : M A :=
  λ st, match m st with
        | (Raise ValueError, st') => h st'
        | r => r
        end.

End Scrapper.

Arguments cell : clear implicits.
Arguments DataFrame : clear implicits.
Arguments JsonSchema : clear implicits.
Arguments page : clear implicits.
Arguments env : clear implicits.
Arguments file : clear implicits.
Arguments session : clear implicits.
Arguments scrapper : clear implicits.
Arguments M : clear implicits.

#[global] Instance M_ret {F} : MRet (M F) := λ A a, ret a.
#[global] Instance M_bind {F} : MBind (M F) := λ A B k m, bind m k.

Section Operations.

(** [E] is the world outside; [default_url_download] is the attribute of
    that name of [ABBScrapping]. *)
Context {F : Type} (E : env F) (default_url_download : string).

#[local] Abbreviation M := (M F).

Definition lift {A} (o : outcome A) : M A :=
  match o with
  | Return a => mret a
  | Raise e => raise e
  end.

Definition set_info (f : JsonSchema F → JsonSchema F) : M unit :=
  λ st, (Return tt,
         {| product_info := f (product_info st); driver := driver st;
            logs := logs st; files := files st |}).

Definition set_driver (d : session F) : M unit :=
  λ st, (Return tt,
         {| product_info := product_info st; driver := d;
            logs := logs st; files := files st |}).

(** [logger.<level>(msg)] *)
Definition log (l : level) (msg : string) : M unit :=
  λ st, (Return tt,
         {| product_info := product_info st; driver := driver st;
            logs := logs st ++ [(l, msg)]; files := files st |}).

Definition write_file (path : string) (f : file F) : M unit :=
  λ st, (Return tt,
         {| product_info := product_info st; driver := driver st;
            logs := logs st; files := <[path := f]> (files st) |}).

(** How an f-string shows a text that may be [None]. *)
Definition fmt (o : option string) : string := default "None" o.

(** [pathlib] on POSIX paths. A path is kept as its text [str(path)], which
    is also [path.as_posix()]. The root of a text: two leading slashes stay
    two, any other number of them is one. *)
Definition path_root (s : string) : string :=
  if starts_with "//" s && negb (starts_with "///" s) then "//"
  else if starts_with "/" s then "/"
  else EmptyString.

(** The segments of a text: it is cut at the slashes, and the empty
    segments and the single dots are dropped. *)
Definition path_parts (s : string) : list string :=
  filter (λ x, x ≠ EmptyString ∧ x ≠ ".") (split_on "/" s).

(** [str(path)] from the root and the segments. *)
Definition path_str (root : string) (parts : list string) : string :=
  match root, parts with
  | EmptyString, [] => "."
  | _, _ => root +:+ join "/" parts
  end.

(** [Path(a) / b]: a text [b] that starts with a slash replaces [a]. *)
Definition path_join (a b : string) : string :=
  if starts_with "/" b then path_str (path_root b) (path_parts b)
  else path_str (path_root a) (path_parts a ++ path_parts b).

Definition output_assets : string := "output/assets".
Definition output_metadata : string := "output/metadata".

(** [path.as_posix().replace("output/", '')]: every occurrence of the
    segment is dropped. *)
Definition relative_path (path : string) : string :=
  replace "output/" EmptyString path.

(** *** [wrappers/request.py] *)

(** [Request.get_response]. The local [error] is bound to a message in the
    first three handlers; the last one binds it to the exception with [as],
    and Python unbinds such a name when the handler is left, so the read in
    [logger.error(error)] then raises. The response, when there is one, is
    kept as the address it answers. *)
Definition get_response (src_url : string) : M (option string) :=
  match http_get E src_url with
  | HttpOk => mret (Some src_url)
  | failure =>
      let error :=
        match failure with
        | HttpTimeout => Some ("Timeout connection: " +:+ src_url)
        | HttpConnectionError => Some "No internet connection"
        | HttpError => Some ("Not found: " +:+ src_url)
        | _ => None
        end in
      match error with
      | Some msg => log ERROR msg;; mret None
      | None => raise UnboundLocalError
      end
  end.

(** [Request.download] *)
Definition download (src_url dst_path : string) : M unit :=
  response ← get_response src_url;
  match response with
  | None => log ERROR ("Failed to download file from " +:+ src_url)
  | Some src =>
      if writable E dst_path then write_file dst_path (Downloaded src)
      else raise OSError
  end.

(** *** [utils.py] *)

Definition normalize_label (label : string) : string :=
  lower (replace " " "_" label).

(** [convert_html_table], on what [pd.read_html] makes of the markup. *)
Definition convert_html_table (read_html : option (list (DataFrame F)))
  : M (DataFrame F) :=
  match read_html with
  | None => raise ValueError
  | Some [] => mret {| columns := []; data := [] |}
  | Some (df_table :: _) =>
      mret {| columns := normalize_label <$> columns df_table;
              data := data df_table |}
  end.

(** [json_write]: every exception of the [try] body is caught. A dump that
    fails after the file was opened leaves it truncated. *)
Definition json_write (fname : string) (doc : JsonSchema F) : M bool :=
  match json_dump E fname doc with
  | DumpOk => write_file fname (JsonDoc doc);; mret true
  | DumpTypeError =>
      write_file fname Truncated;;
      log ERROR "TypeError: Data provided is not serializable to JSON.";;
      mret false
  | DumpIOError =>
      log ERROR "IOError: An error occurred while writing to the file.";;
      mret false
  | DumpOtherException =>
      log ERROR "Unexpected error";;
      mret false
  end.

(** *** [wrappers/selenium_connection.py] *)

(** The page that the look-ups of [find_element] read. *)
Definition current_page : M (page F) :=
  λ st, match driver st with
        | Live pg => (Return pg, st)
        | NoDriver => (Raise AttributeError, st)
        | Closed => (Raise WebDriverException, st)
        end.

(** [SelConnection.load_page]. [render] answers [None] when the browser
    fails to start or to load the address. In the second case the browser
    that has started is already assigned to [self.driver] when [get] raises:
    [stalled] is what it shows, [None] when it has not started. *)
Definition load_page (url : string) : M unit :=
  match render E url with
  | Some pg => set_driver (Live pg)
  | None =>
      match stalled E url with
      | Some pg => set_driver (Live pg);; raise WebDriverException
      | None => raise WebDriverException
      end
  end.

(** [SelConnection.go_to_tab]. The click makes the pane of the tab the one
    that the browser shows. The panes are no part of [page]: a field of
    [page] is the answer of a look-up at the place where the code makes it,
    so after the click of the tab it is made under. The state keeps no trace
    of the click, and nothing is said here of what the browser shows. *)
Definition go_to_tab (tab : page F → bool) : M unit :=
  pg ← current_page;
  if tab pg then mret tt else raise ValueError.

(** [SelConnection.close] *)
Definition close : M unit :=
  st ← get_state;
  match driver st with
  | NoDriver => raise AttributeError
  | _ => set_driver Closed
  end.

(** [try: go_to_tab(...) except ValueError: return]: whether the body of the
    stage is to run. *)
Definition try_tab (tab : page F → bool) : M bool :=
  except_ValueError (go_to_tab tab;; mret true) (mret false).

(** *** [scrappers/abb_scrapper.py] *)

(** [get_head] *)
Definition get_head : M unit :=
  pg ← current_page;
  set_info (λ info,
    {| product_id := page_title pg; name := name info;
       description := description info; specs := specs info;
       bom := bom info; assets := assets info |});;
  pg ← current_page;
  set_info (λ info,
    {| product_id := product_id info; name := name info;
       description := product_description pg; specs := specs info;
       bom := bom info; assets := assets info |}).

(** [next] on [filter(lambda a: a != '', it)]: the first text of [it] that
    is not empty, and the texts after it. *)
Fixpoint next_non_empty (it : list string) : option (string * list string) :=
  match it with
  | [] => None
  | a :: r =>
      if decide (a = EmptyString) then next_non_empty r else Some (a, r)
  end.

(** [re.findall(r"\d+\.*\d*", value)] joined with [/]. *)
Definition normalize_value (value : string) : string :=
  join "/" (findall match_number value).

(** The loop of [get_specs] over [zip] of the two lazy filters: [zip] asks
    the labels for their next text, then the values, and stops as soon as
    one of them has none left. *)
Fixpoint specs_loop (spec_labels spec_values : list string)
    (spec_dict : gmap string string) : gmap string string :=
  match spec_labels with
  | [] => spec_dict
  | label :: spec_labels =>
      if decide (label = EmptyString)
      then specs_loop spec_labels spec_values spec_dict
      else
        match next_non_empty spec_values with
        | None => spec_dict
        | Some (value, spec_values) =>
            specs_loop spec_labels spec_values
              (<[normalize_label label := normalize_value value]> spec_dict)
        end
  end.

(** [get_specs] *)
Definition get_specs : M unit :=
  entered ← try_tab tab_specs;
  if entered : bool then
    pg ← current_page;
    match span_labels pg, span_values pg with
    | Some spec_labels, Some spec_values =>
        let spec_dict := specs_loop spec_labels spec_values ∅ in
        set_info (λ info,
          {| product_id := product_id info; name := name info;
             description := description info; specs := Some spec_dict;
             bom := bom info; assets := assets info |})
    | _, _ =>
        st ← get_state;
        log WARNING (fmt (product_id (product_info st)) +:+ ": Product without specs")
    end
  else mret tt.

(** [df.empty] *)
Definition df_empty (df : DataFrame F) : bool :=
  bool_decide (columns df = []) || bool_decide (data df = []).

Definition column_index (col : string) (df : DataFrame F) : option nat :=
  fst <$> list_find (λ c, c = col) (columns df).

(** [df[col]] read as a column: [KeyError] when there is no such column.
    When the name is repeated pandas answers a table in place of a column,
    and the [.str] that the code reads from it raises [AttributeError]. *)
Definition getitem (df : DataFrame F) (col : string) : outcome (list (cell F)) :=
  match column_index col df with
  | None => Raise KeyError
  | Some i =>
      if decide (col ∈ drop (S i) (columns df)) then Raise AttributeError
      else Return ((λ row, default CNaN (row !! i)) <$> data df)
  end.

(** [df[col] = values], row by row: the column is overwritten, or added at
    the end when the table has none of that name. *)
Definition setitem (df : DataFrame F) (col : string) (values : list (cell F))
  : DataFrame F :=
  match column_index col df with
  | Some i =>
      {| columns := columns df;
         data := zip_with (λ row v, <[i := v]> row) (data df) values |}
  | None =>
      {| columns := columns df ++ [col];
         data := zip_with (λ row v, row ++ [v]) (data df) values |}
  end.

Definition is_str (c : cell F) : bool :=
  match c with CStr _ => true | _ => false end.

(** [cell.split(" ")[0]] on a text; NaN on a cell that is not a text. *)
Definition split_cell (c : cell F) : cell F :=
  match c with
  | CStr s => CStr (split_first " " s)
  | _ => CNaN
  end.

(** [series.str.split(" ", expand=True)[0]]: the [.str] accessor is refused
    on a column that holds no text (its dtype is then numeric). *)
Definition str_split_first (series : list (cell F)) : outcome (list (cell F)) :=
  if existsb is_str series
  then Return (split_cell <$> series)
  else Raise AttributeError.

(** [series.astype(float)]: [float] of every text, [ValueError] at the first
    one it refuses; numbers and NaN stay. *)
Fixpoint astype_float (series : list (cell F)) : outcome (list (cell F)) :=
  match series with
  | [] => Return []
  | c :: rest =>
      let c' :=
        match c with
        | CStr s =>
            match py_float E s with
            | Some x => Return (CNum x)
            | None => Raise ValueError
            end
        | other => Return other
        end in
      match c' with
      | Raise e => Raise e
      | Return v =>
          match astype_float rest with
          | Raise e => Raise e
          | Return vs => Return (v :: vs)
          end
      end
  end.

(** [df.to_dict(orient="records")] *)
Definition to_dict_records (df : DataFrame F) : list (gmap string (cell F)) :=
  (λ row, foldl (λ d kv, <[kv.1 := kv.2]> d) ∅ (zip (columns df) row))
    <$> data df.

(** [get_bom] *)
Definition get_bom : M unit :=
  entered ← try_tab tab_parts;
  if entered : bool then
    pg ← current_page;
    match parts_pane pg with
    | None => raise AttributeError
    | Some tables =>
        df_table ← convert_html_table tables;
        if df_empty df_table then
          st ← get_state;
          log WARNING (fmt (product_id (product_info st)) +:+ ": Product without bom")
        else
          quantity ← lift (getitem df_table "quantity");
          quantity ← lift (str_split_first quantity);
          let df_table := setitem df_table "quantity" quantity in
          quantity ← lift (getitem df_table "quantity");
          quantity ← lift (astype_float quantity);
          let df_table := setitem df_table "quantity" quantity in
          set_info (λ info,
            {| product_id := product_id info; name := name info;
               description := description info; specs := specs info;
               bom := Some (to_dict_records df_table); assets := assets info |})
    end
  else mret tt.

(** [download_files]; [attribute] reads the address off the element that
    the XPath finds. *)
Definition download_files (attribute : page F → option string)
    (out_path : string) : M (option string) :=
  pg ← current_page;
  match attribute pg with
  | None => mret None
  | Some src_url =>
      download src_url out_path;;
      mret (Some (relative_path out_path))
  end.

(** The loop of [download_cad] over the descriptors. *)
Fixpoint cad_loop (prod_out_path : string) (cad_list : list cad_info)
    (assets_metadata : gmap string string) : M (gmap string string) :=
  match cad_list with
  | [] => mret assets_metadata
  | info :: cad_list =>
      let url_string := cad_url info in
      let url_string :=
        escape_url (set_order E (non_words_char url_string)) url_string in
      let url_download :=
        default_url_download +:+ cad_value info +:+ "&url=" +:+ url_string in
      let dst_path := path_join prod_out_path (cad_value info) in
      download url_download dst_path;;
      cad_loop prod_out_path cad_list
        (<[cad_name info := relative_path dst_path]> assets_metadata)
  end.

(** [download_cad] *)
Definition download_cad (prod_out_path : string)
  : M (option (gmap string string)) :=
  pg ← current_page;
  match cadfiles pg with
  | None =>
      st ← get_state;
      log WARNING (fmt (product_id (product_info st)) +:+ ": Product without cad");;
      mret None
  | Some None => raise (cadfiles_error pg)
  | Some (Some []) =>
      st ← get_state;
      log WARNING (fmt (product_id (product_info st)) +:+ ": Product without cad");;
      mret None
  | Some (Some cad_list) =>
      assets_metadata ← cad_loop prod_out_path cad_list ∅;
      mret (Some assets_metadata)
  end.

(** [download_assets]. [Path / prod_id] raises [TypeError] when [prod_id]
    is [None]; the directory of the product is taken to be creatable. *)
Definition download_assets : M unit :=
  entered ← try_tab tab_drawings;
  if entered : bool then
    st ← get_state;
    match product_id (product_info st) with
    | None => raise TypeError
    | Some prod_id =>
        let prod_out_path := path_join output_assets prod_id in
        img ← download_files product_image (path_join prod_out_path "img.jpg");
        pdf ← download_files info_packet (path_join prod_out_path "manual.pdf");
        cads ← download_cad prod_out_path;
        set_info (λ info,
          {| product_id := product_id info; name := name info;
             description := description info; specs := specs info;
             bom := bom info;
             assets := Some {| image := img; manual := pdf; cad := cads |} |})
    end
  else mret tt.

(** [run_scrapping], the block under [# Run pipe]. *)
Definition run_pipe (product_url : string) : M unit :=
  load_page product_url;;
  get_head;;
  get_specs;;
  get_bom;;
  download_assets;;
  close.

(** [run_scrapping], the block under [# Saving]. *)
Definition saving : M unit :=
  st ← get_state;
  let prod_id := product_id (product_info st) in
  let json_path := path_join output_metadata (fmt prod_id +:+ ".json") in
  json_write json_path (product_info st);;
  log SUCCESS (fmt prod_id +:+ ": Sucefully scrapping").

(** [run_scrapping] *)
Definition run_scrapping (product_url : string) : M unit :=
  log INFO ("Scrapping: " +:+ product_url);;
  response ← get_response product_url;
  match response with
  | None => mret tt
  | Some _ => run_pipe product_url;; saving
  end.

(** *** [main.py] *)

(** [instantiate(cfg).sites]: a new scrapper object; the log and the files
    are those of the process. *)
Definition instantiate : M unit :=
  λ st, (Return tt,
         {| product_info := empty_schema; driver := NoDriver;
            logs := logs st; files := files st |}).

(** The loop of [main] over the product addresses. *)
Fixpoint main_loop (products_list : list string) : M unit :=
  match products_list with
  | [] => mret tt
  | prod_url :: products_list =>
      instantiate;;
      run_scrapping prod_url;;
      main_loop products_list
  end.

End Operations.

(** ** The words of the specification, side by side with the code *)

(** The texts that are not empty, in their order. *)
Definition non_empty (texts : list string) : list string :=
  filter (λ a, a ≠ EmptyString) texts.

(** The key that the specification gives to a label, character by
    character: a space becomes an underscore, a capital letter (A to Z, or
    one of the capitals from U+00C0 to U+00DE) its small letter, and any
    other character stays. *)
Definition spec_key_char (c : ascii) : ascii :=
  let n := ord c in
  if (n =? 32)%N then chr 95
  else if ((65 <=? n) && (n <=? 90))%N
          || ((192 <=? n) && (n <=? 222) && negb (n =? 215))%N
       then chr (n + 32)
       else c.

Definition spec_key (label : string) : string := map_chars spec_key_char label.

(** The specs mapping filled from pairs of label and value, in their
    order. *)
Definition specs_of_pairs (pairs : list (string * string)) : gmap string string :=
  foldl (λ d p, <[spec_key p.1 := normalize_value p.2]> d) ∅ pairs.

(** An integer or a decimal numeral at the head of a text: digits, then
    possibly one dot followed by digits. *)
Definition match_decimal (s : string) : option string :=
  let '(d1, r1) := span is_digit s in
  match d1 with
  | EmptyString => None
  | String _ _ =>
      match r1 with
      | String dot r2 =>
          if is_dot dot then
            let '(d2, _) := span is_digit r2 in
            match d2 with
            | EmptyString => Some d1
            | String _ _ => Some (d1 +:+ String dot d2)
            end
          else Some d1
      | EmptyString => Some d1
      end
  end.

(** The integer and decimal numerals of a text, from the left. *)
Definition numeric_substrings (value : string) : list string :=
  findall match_decimal value.

Fixpoint all_chars (p : ascii → bool) (s : string) : bool :=
  match s with
  | EmptyString => true
  | String c r => p c && all_chars p r
  end.

Fixpoint filter_chars (p : ascii → bool) (s : string) : string :=
  match s with
  | EmptyString => EmptyString
  | String c r => if p c then String c (filter_chars p r) else filter_chars p r
  end.

Fixpoint drop_chars (n : nat) (s : string) : string :=
  match n, s with
  | S k, String _ r => drop_chars k r
  | _, _ => s
  end.

Definition concat_texts (l : list string) : string :=
  foldr String.append EmptyString l.

(** The shape of a match of [\d+\.*\d*]: digits, at least one; then dots,
    any number; then digits, any number. *)
Definition number_shaped (s : string) : Prop :=
  ∃ d1 dots d2,
    s = d1 +:+ dots +:+ d2 ∧ d1 ≠ EmptyString
    ∧ all_chars is_digit d1 = true ∧ all_chars is_dot dots = true
    ∧ all_chars is_digit d2 = true.

(** The code of a character as two upper-case hexadecimal digits. *)
Definition hex2 (c : ascii) : string :=
  String (upper_char (hex_digit (ord c / 16)))
    (String (upper_char (hex_digit (ord c mod 16))) EmptyString).

(** Percent-encoding character by character: a character of [\w] stays,
    any other becomes a percent sign and its two digits. *)
Fixpoint percent_encode (s : string) : string :=
  match s with
  | EmptyString => EmptyString
  | String c r =>
      if is_word c then String c (percent_encode r)
      else "%" +:+ hex2 c +:+ percent_encode r
  end.

Definition occurs (c : ascii) (s : string) : bool :=
  negb (all_chars (λ a, negb (bool_decide (a = c))) s).

(** The first token of a text cut at white space ([str.split()[0]]). *)
Definition is_space (c : ascii) : bool :=
  in_range 9 13 c || in_range 28 32 c || (ord c =? 133)%N || (ord c =? 160)%N.

Fixpoint first_word (s : string) : string :=
  match s with
  | EmptyString => EmptyString
  | String c r =>
      if is_space c then first_word r
      else String c (fst (span (λ a, negb (is_space a)) r))
  end.

(** What the quantity of a row is to become: the float of the text before
    the first space; NaN where the cell holds no text. [None] when [float]
    refuses the text. *)
Definition quantity_value {F} (E : env F) (c : cell F) : option (cell F) :=
  match c with
  | CStr s => CNum <$> py_float E (split_first " " s)
  | _ => Some CNaN
  end.

(** The text in which the characters of [P], and only they, are replaced by
    their percent form: the state of the escaping loop once it has gone
    through [P]. *)
Fixpoint encode_in (P : list ascii) (s : string) : string :=
  match s with
  | EmptyString => EmptyString
  | String a r =>
      if decide (a ∈ P) then hex_ascii a +:+ encode_in P r
      else String a (encode_in P r)
  end.

Fixpoint chars_of (s : string) : list ascii :=
  match s with
  | EmptyString => []
  | String c r => c :: chars_of r
  end.

Definition tab_char : ascii := chr 9.
Definition percent_char : ascii := chr 37.
Definition hash_char : ascii := chr 35.

(** ** A sample world

    Floats are the binary64 numbers of Rocq; [sample_float] reads the plain
    decimal numerals (digits, possibly a dot, possibly more digits) and
    refuses every other text. *)

Definition float_of_N (n : N) : float :=
  PrimFloat.of_uint63 (Uint63.of_Z (Z.of_N n)).

Fixpoint digits_value (s : string) (acc : N) : N :=
  match s with
  | EmptyString => acc
  | String c r => digits_value r (acc * 10 + (ord c - 48))
  end.

Definition sample_float (s : string) : option float :=
  let '(int_part, rest) := span is_digit s in
  match rest with
  | EmptyString =>
      match int_part with
      | EmptyString => None
      | String _ _ => Some (float_of_N (digits_value int_part 0))
      end
  | String dot frac_part =>
      if is_dot dot && all_chars is_digit frac_part
         && negb (bool_decide (int_part +:+ frac_part = EmptyString))
      then Some (PrimFloat.div
                   (float_of_N (digits_value (int_part +:+ frac_part) 0))
                   (float_of_N (10 ^ N.of_nat (String.length frac_part))))
      else None
  end.

(** What a browser shows that has started and has loaded nothing. *)
Definition blank_page : page float :=
  {| page_title := None; product_description := None;
     tab_specs := false; tab_parts := false; tab_drawings := false;
     span_labels := Some []; span_values := Some [];
     parts_pane := None; product_image := None; info_packet := None;
     cadfiles := None; cadfiles_error := SyntaxError |}.

(** A world with one float reader, a site, a network and a disk; a browser
    always starts. *)
Definition sample_env (site : string → option (page float))
    (http : string → http_outcome) (dump : dump_outcome) : env float :=
  {| py_float := sample_float;
     http_get := http;
     render := site;
     stalled := λ _, Some blank_page;
     writable := λ _, true;
     json_dump := λ _ _, dump;
     set_order := elements |}.

(** A product page: its title, the texts of the specs tab, the table of
    the parts tab, and whether it has a drawings tab. The image and the
    manual are always there; there are no CAD files. *)
Definition sample_page (title : option string)
    (specs_tab : option (list string * list string))
    (parts_tab : option (DataFrame float)) (drawings : bool) : page float :=
  {| page_title := title;
     product_description := Some "General purpose motor";
     tab_specs := bool_decide (is_Some specs_tab);
     tab_parts := bool_decide (is_Some parts_tab);
     tab_drawings := drawings;
     span_labels := Some (from_option fst [] specs_tab);
     span_values := Some (from_option snd [] specs_tab);
     parts_pane := (λ df, Some [df]) <$> parts_tab;
     product_image := Some "https://www.baldor.com/img/CEM3546.jpg";
     info_packet := Some "https://www.baldor.com/pdf/CEM3546.pdf";
     cadfiles := None;
     cadfiles_error := SyntaxError |}.

Definition sample_labels : list string :=
  ["Rated Power"; EmptyString; "Frame"; "Enclosure"].
Definition sample_values : list string :=
  [EmptyString; "5 HP"; EmptyString; "184T"].

(** A parts table with the given quantity cells. *)
Definition sample_parts (quantities : list (cell float)) : DataFrame float :=
  {| columns := ["Part Number"; "Description"; "Quantity"];
     data := (λ q, [CStr "SP5000"; CStr "KEY"; q]) <$> quantities |}.

Definition loaded (pg : page float) : scrapper float :=
  {| product_info := empty_schema; driver := Live pg; logs := []; files := ∅ |}.

Definition sample_url : string := "https://www.baldor.com/catalog/CEM3546".
Definition other_url : string := "https://www.baldor.com/catalog/VM3554".
Definition download_base : string := "https://www.baldor.com/api/download?file=".

(** A stage leaves the part [f] of the state as it found it, whether it
    returns or raises. *)
Definition preserves {F A X} (f : scrapper F → X) (m : M F A) : Prop :=
  ∀ st, f (m st).2 = f st.

(** The state once the run is announced in the log. *)
Definition announced {F} (st : scrapper F) (product_url : string) : scrapper F :=
  {| product_info := product_info st; driver := driver st;
     logs := logs st ++ [(INFO, "Scrapping: " +:+ product_url)];
     files := files st |}.

(** The state once the load of an address has failed: the browser that
    had started stays assigned to the connection. *)
Definition load_failed {F} (E : env F) (url : string) (st : scrapper F)
  : scrapper F :=
  {| product_info := product_info st;
     driver := match stalled E url with
               | Some pg => Live pg
               | None => driver st
               end;
     logs := logs st; files := files st |}.

(** The state with the browser on the page [pg], and once it has quit. *)
Definition on_page {F} (st : scrapper F) (pg : page F) : scrapper F :=
  {| product_info := product_info st; driver := Live pg;
     logs := logs st; files := files st |}.

Definition quitted {F} (st : scrapper F) : scrapper F :=
  {| product_info := product_info st; driver := Closed;
     logs := logs st; files := files st |}.

(** The state that a new scrapper object starts from: the log and the
    files of the process, nothing else. *)
Definition instantiated {F} (st : scrapper F) : scrapper F :=
  {| product_info := empty_schema; driver := NoDriver;
     logs := logs st; files := files st |}.

(** The file that [saving] writes for a product id. *)
Definition metadata_path (prod_id : option string) : string :=
  path_join output_metadata (fmt prod_id +:+ ".json").

Definition specs_page : page float :=
  sample_page (Some "CEM3546") (Some (sample_labels, sample_values)) None false.

Definition parts_page (quantities : list (cell float)) : page float :=
  sample_page (Some "CEM3546") None (Some (sample_parts quantities)) true.

Definition untitled_page : page float :=
  sample_page None None None false.

Definition offline_env : env float :=
  sample_env (λ _, None) (λ _, HttpOk) DumpOk.

Definition tabbed_cell : string := "12" +:+ String tab_char "EA".

Definition specs_env : env float :=
  sample_env (λ _, Some specs_page) (λ _, HttpOk) DumpOk.

Definition untitled_env : env float :=
  sample_env (λ _, Some untitled_page) (λ _, HttpOk) DumpOk.

Definition bad_quantity_env : env float :=
  sample_env (λ _, Some (parts_page [CStr "EA"])) (λ _, HttpOk) DumpOk.

(** The probe of [sample_url] ends in an exception that is neither a
    timeout, nor a connection error, nor an HTTP error (a redirection loop,
    say). *)
Definition redirect_loop_env : env float :=
  sample_env (λ _, Some specs_page)
    (λ url, if decide (url = sample_url) then HttpOtherException else HttpOk)
    DumpOk.

Definition not_found_env : env float :=
  sample_env (λ _, Some specs_page)
    (λ url, if decide (url = sample_url) then HttpError else HttpOk)
    DumpOk.

Definition full_disk_env : env float :=
  sample_env (λ _, Some specs_page) (λ _, HttpOk) DumpIOError.

(** ** Notions used to state what the code keeps *)

(** What [normalize_label] does to one character. *)
Definition label_char (c : ascii) : ascii :=
  lower_char (if decide (c = " "%char) then "_"%char else c).

(** A character that a normalized label can hold: no space, no upper-case
    letter. *)
Definition key_char (c : ascii) : bool :=
  negb (bool_decide (c = " "%char)) && negb (is_upper c).

(** A character that a normalized value can hold. *)
Definition value_char (c : ascii) : bool :=
  is_digit c || is_dot c || bool_decide (c = "/"%char).

(** A character that an escaped address can hold. *)
Definition safe_char (c : ascii) : bool :=
  is_word c || bool_decide (c = percent_char).

(** [old in s] *)
Fixpoint occurs_in (old s : string) : bool :=
  starts_with old s
  || match s with
     | EmptyString => false
     | String _ r => occurs_in old r
     end.

(** A text that is one segment of a path: not empty, not the single dot,
    and without slash. *)
Definition single_segment (s : string) : Prop :=
  s ≠ EmptyString ∧ s ≠ "." ∧ occurs "/" s = false.

(** The failures of a request that [get_response] names. *)
Definition classified (o : http_outcome) : bool :=
  match o with
  | HttpTimeout | HttpConnectionError | HttpError => true
  | _ => false
  end.

(** The entries that [download_cad] records for a list of descriptors. *)
Definition cad_entries (prod_out_path : string) (cad_list : list cad_info)
    (assets_metadata : gmap string string) : gmap string string :=
  foldl (λ acc info,
           <[cad_name info := relative_path (path_join prod_out_path (cad_value info))]> acc)
    assets_metadata cad_list.

(** A sampler is fair when, asked for [k] elements of a large enough
    population without repetition, it answers [k] distinct elements of it, as
    [random.sample] does. *)
Definition fair_sampler
    (sample : list (option string) → nat → list (option string)) : Prop :=
  ∀ population k, NoDup population → k ≤ length population →
    length (sample population k) = k
    ∧ NoDup (sample population k)
    ∧ ∀ x, x ∈ sample population k → x ∈ population.

(** The sampler that answers the first [k] elements. *)
Definition first_sampler (population : list (option string)) (k : nat)
  : list (option string) :=
  take k population.

(** The percent form read back: the character whose code the hexadecimal
    digits after the percent sign spell. *)
Definition unhex_digit (c : ascii) : option N :=
  if is_digit c then Some (ord c - 48)%N
  else if in_range 65 70 c then Some (ord c - 55)%N
  else None.

Fixpoint unhex_digits (s : string) (acc : N) : option N :=
  match s with
  | EmptyString => Some acc
  | String c r =>
      match unhex_digit c with
      | Some d => unhex_digits r (acc * 16 + d)%N
      | None => None
      end
  end.

Definition unhex (s : string) : option ascii :=
  match s with
  | String p (String c r) =>
      if decide (p = percent_char) then chr <$> unhex_digits (String c r) 0
      else None
  | _ => None
  end.

(** The shape of a match as the scan leaves it: without dots in the middle
    there are no digits after them. *)
Definition tight_number (s : string) : Prop :=
  ∃ d1 dots d2,
    s = d1 +:+ dots +:+ d2 ∧ d1 ≠ EmptyString
    ∧ all_chars is_digit d1 = true ∧ all_chars is_dot dots = true
    ∧ all_chars is_digit d2 = true
    ∧ (dots = EmptyString → d2 = EmptyString).

(** A parts table whose quantity column goes by another name. *)
Definition qty_table : DataFrame float :=
  {| columns := ["Part Number"; "Qty"];
     data := [[CStr "SP5000"; CStr "2 EA"]] |}.

Definition qty_page : page float :=
  sample_page (Some "CEM3546") None (Some qty_table) true.

(** A world in which no address is found. *)
Definition nothing_found_env : env float :=
  sample_env (λ _, Some specs_page) (λ _, HttpError) DumpOk.

(** A page with a drawings tab and two CAD files. *)
Definition sample_cads : list cad_info :=
  [ {| cad_name := "DXF"; cad_value := "CEM3546.dxf";
       cad_url := "https://cad.baldor.com/files/CEM3546.dxf" |};
    {| cad_name := "STEP"; cad_value := "CEM3546.stp";
       cad_url := "https://cad.baldor.com/files/CEM3546 rev#2.stp" |} ].

Definition cad_page : page float :=
  {| page_title := Some "CEM3546";
     product_description := Some "General purpose motor";
     tab_specs := false; tab_parts := false; tab_drawings := true;
     span_labels := Some []; span_values := Some [];
     parts_pane := None;
     product_image := Some "https://www.baldor.com/img/CEM3546.jpg";
     info_packet := None;
     cadfiles := Some (Some sample_cads);
     cadfiles_error := SyntaxError |}.

Definition cad_env : env float :=
  sample_env (λ _, Some cad_page) (λ _, HttpOk) DumpOk.

(** The state in which Head has read the id [prod_id]. *)
Definition titled (st : scrapper float) (prod_id : string) : scrapper float :=
  {| product_info :=
       {| product_id := Some prod_id; name := name (product_info st);
          description := description (product_info st);
          specs := specs (product_info st); bom := bom (product_info st);
          assets := assets (product_info st) |};
     driver := driver st; logs := logs st; files := files st |}.

(** The character that a text starts with in escaped form: a percent sign
    and two hexadecimal digits. *)
Definition escaped_at (s : string) : option ascii :=
  match s with
  | String p (String h1 (String h2 _)) =>
      unhex (String p (String h1 (String h2 EmptyString)))
  | _ => None
  end.

(** Percent-decoding: every percent sign followed by two hexadecimal digits
    is read back as the character; [skip] counts the digits still to be
    passed over. *)
Fixpoint percent_decode_from (skip : nat) (s : string) : string :=
  match s with
  | EmptyString => EmptyString
  | String p t =>
      match skip with
      | S k => percent_decode_from k t
      | O =>
          match escaped_at s with
          | Some c => String c (percent_decode_from 2 t)
          | None => String p (percent_decode_from 0 t)
          end
      end
  end.

Definition percent_decode (s : string) : string := percent_decode_from 0 s.

(** The world [E] with the sets iterated in the order [order]: what another
    process, started with another hash seed, finds when nothing else has
    changed. *)
Definition with_order {F} (E : env F) (order : gset ascii → list ascii) : env F :=
  {| py_float := py_float E; http_get := http_get E; render := render E;
     stalled := stalled E; writable := writable E; json_dump := json_dump E;
     set_order := order |}.

(** An order in which the sets of characters are iterated. *)
Definition iteration_order (order : gset ascii → list ascii) : Prop :=
  ∀ X, iteration_of X (order X).

(** The sets iterated backwards. *)
Definition reverse_order (X : gset ascii) : list ascii := reverse (elements X).

(** A page whose CAD files have addresses without percent sign. *)
Definition plain_cad_urls {F} (pg : page F) : Prop :=
  ∀ cad_list info, cadfiles pg = Some (Some cad_list) → info ∈ cad_list →
    occurs percent_char (cad_url info) = false.

(** Two states of the scrapper that differ at most by the log and the
    files; the page that the browser shows, if any, satisfies [clean]. *)
Definition same_object {F} (clean : page F → Prop) (s t : scrapper F) : Prop :=
  product_info s = product_info t ∧ driver s = driver t
  ∧ ∀ pg, driver t = Live pg → clean pg.

(** A sequence of files written, one after the other. *)
Definition apply_writes {F} (writes : list (string * file F))
    (fs : gmap string (file F)) : gmap string (file F) :=
  foldl (λ fs w, <[w.1 := w.2]> fs) fs writes.

(** Two computations that, from states of the same object, end in the same
    way, in states of the same object, after the same writes. *)
Definition related {F A} (clean : page F → Prop) (m1 m2 : M F A) : Prop :=
  ∀ s t, same_object clean s t →
    ∃ writes,
      (m1 s).1 = (m2 t).1
      ∧ same_object clean (m1 s).2 (m2 t).2
      ∧ files (m1 s).2 = apply_writes writes (files s)
      ∧ files (m2 t).2 = apply_writes writes (files t).

(** * Properties *)

(** ** Catalog resolver *)

Lemma mapM_urls (ids : list string) :
  mapM (λ prod : option string, (λ id, PRODUCT_URL +:+ id) <$> prod) (Some <$> ids)
  = Some ((λ id, PRODUCT_URL +:+ id) <$> ids).
Proof. induction ids as [|x ids IH]; [done|]. rewrite !fmap_cons. simpl. by rewrite IH. Qed.

Lemma product_urls_texts (l : list (option string)) :
  None ∉ l → NoDup l →
  ∃ ids : list string,
    product_urls l = Return ((λ id, PRODUCT_URL +:+ id) <$> ids)
    ∧ NoDup ids
    ∧ l = Some <$> ids.
Proof.
  intros Hnone Hnd. exists (omap id l).
  assert (Hl : l = Some <$> omap id l).
  { clear Hnd. induction l as [|[x|] l IH]; [done| |].
    - simpl. f_equal. apply IH. by intros H; apply Hnone; right.
    - exfalso. apply Hnone. by left. }
  split; [|split; [|done]].
  - unfold product_urls. rewrite Hl at 1. by rewrite mapM_urls.
  - rewrite Hl in Hnd. by apply (NoDup_fmap_1 Some).
Qed.

Lemma product_urls_none (l : list (option string)) :
  None ∈ l → product_urls l = Raise TypeError.
Proof.
  intros Hin. unfold product_urls.
  destruct (mapM _ l) as [urls|] eqn:Hm; [|done].
  apply mapM_Some_1 in Hm. apply list_elem_of_lookup in Hin as [i Hi].
  destruct (Forall2_lookup_l _ _ _ _ _ Hm Hi) as (u & _ & Hu). done.
Qed.

(** C1, amended: with no explicit id list and no limit, and a catalog [C]
    in which no element is empty, the addresses returned for [C] and
    processed ids [P] are the base path followed by each id of [C ∖ P], every
    such id once and no other; without processed ids nothing is taken away.
    When an element of the catalog is empty, the call raises [TypeError]. *)
Theorem get_products_difference
    (C : gset (option string)) (processed_ids : option (gset string))
    (sample : list (option string) → nat → list (option string)) :
  let P := default ∅ processed_ids in
  (None ∉ C →
   ∃ ids : list string,
     get_products (FeedTexts C) sample None UniqueNone processed_ids
       = Return ((λ id, PRODUCT_URL +:+ id) <$> ids)
     ∧ NoDup ids
     ∧ (∀ id, id ∈ ids ↔ Some id ∈ C ∧ id ∉ P)
     ∧ NoDup ((λ id, PRODUCT_URL +:+ id) <$> ids))
  ∧ (None ∈ C →
     get_products (FeedTexts C) sample None UniqueNone processed_ids
       = Raise TypeError).
Proof.
  intros P.
  set (Q := set_map (D:=gset (option string)) Some P).
  assert (HQ : ∀ x : option string, x ∈ C ∖ Q ↔ x ∈ C ∧ ∀ id, x = Some id → id ∉ P).
  { intros x. unfold Q. rewrite elem_of_difference, elem_of_map. split.
    - intros [Hx Hn]. split; [done|]. intros id -> Hid. apply Hn. by exists id.
    - intros [Hx Hn]. split; [done|]. intros (id & -> & Hid). by apply (Hn id). }
  assert (Hrun : get_products (FeedTexts C) sample None UniqueNone processed_ids
                 = product_urls (elements (C ∖ Q))).
  { unfold get_products, Q, P. destruct processed_ids as [P'|]; simpl; [done|].
    by rewrite set_map_empty, difference_empty_L. }
  rewrite Hrun. split.
  - intros Hnone.
    destruct (product_urls_texts (elements (C ∖ Q))) as (ids & Hurls & Hnd & Hl).
    { rewrite elem_of_elements, HQ. by intros [? _]. }
    { apply NoDup_elements. }
    exists ids. split; [done|]. split; [done|]. split.
    + intros id. rewrite <- (list_elem_of_fmap_inj Some), <- Hl, elem_of_elements, HQ.
      split; [intros [? Hn]; split; [done|by apply Hn]|].
      intros [? Hn]. split; [done|]. by intros ? [= <-].
    + by apply (NoDup_fmap_2 (String.app PRODUCT_URL)).
  - intros Hnone. apply product_urls_none. rewrite elem_of_elements, HQ.
    split; [done|]. by intros id.
Qed.

(** C1, amended, on a catalog of three ids, one of them processed. *)
Lemma get_products_difference_witness :
  ∃ ids : list string,
    get_products (FeedTexts {[Some "A"; Some "B"; Some "C"]}) first_sampler None
      UniqueNone (Some {["B"]})
      = Return ((λ id, PRODUCT_URL +:+ id) <$> ids)
    ∧ NoDup ids
    ∧ ∀ id, id ∈ ids ↔ Some id ∈ ({[Some "A"; Some "B"; Some "C"]} : gset (option string))
                        ∧ id ∉ ({["B"]} : gset string).
Proof.
  destruct (get_products_difference {[Some "A"; Some "B"; Some "C"]}
              (Some {["B"]}) first_sampler) as [Hreturns _].
  destruct Hreturns as (ids & Hrun & Hnd & Hmem & _).
  - apply (bool_decide_eq_false_1 (None ∈ _)). vm_compute. reflexivity.
  - exists ids. split; [exact Hrun|]. split; [exact Hnd|exact Hmem].
Defined.

(** C1, as stated, fails: a catalog in which one [Code] element is empty
    gives the candidates a null text, which the processed ids cannot take
    away, and the call raises where the claim has it return the addresses of
    the other ids. *)
Lemma get_products_empty_code :
  get_products (FeedTexts {[Some "CEM3546"; Some "CEM3550"; None]}) first_sampler None
    UniqueNone (Some {["CEM3546"]})
  = Raise TypeError
  ∧ get_products (FeedTexts {[None]}) first_sampler None UniqueNone None
    = Raise TypeError.
Proof. split; vm_compute; reflexivity. Qed.

(** ** Specs *)

Lemma app_cons (c : ascii) (a b : string) :
  String c a +:+ b = String c (a +:+ b).
Proof. reflexivity. Qed.

Lemma app_empty_l (b : string) : EmptyString +:+ b = b.
Proof. reflexivity. Qed.

Lemma replace_space_chars (s : string) :
  replace " " "_" s
  = map_chars (λ c, if decide (c = " "%char) then "_"%char else c) s.
Proof.
  unfold replace. induction s as [|c s IH]; [done|]. simpl.
  destruct (decide (" "%char = c)) as [<-|Hne].
  - rewrite decide_True by done. simpl. rewrite app_cons, app_empty_l. by rewrite IH.
  - rewrite decide_False by done. by rewrite IH.
Qed.

Lemma map_chars_compose (f g : ascii → ascii) (s : string) :
  map_chars f (map_chars g s) = map_chars (λ c, f (g c)) s.
Proof. induction s as [|c s IH]; [done|]. simpl. by rewrite IH. Qed.

Lemma map_chars_ext (f g : ascii → ascii) (s : string) :
  (∀ c, f c = g c) → map_chars f s = map_chars g s.
Proof. intros H. induction s as [|c s IH]; [done|]. simpl. by rewrite H, IH. Qed.

Lemma normalize_label_chars (label : string) :
  normalize_label label = map_chars label_char label.
Proof.
  unfold normalize_label, lower. by rewrite replace_space_chars, map_chars_compose.
Qed.

Lemma label_char_spec_key (c : ascii) : label_char c = spec_key_char c.
Proof. destruct c as [[] [] [] [] [] [] [] []]; vm_compute; reflexivity. Qed.

(** The key of the code is the key of the specification. *)
Lemma normalize_label_spec_key (label : string) :
  normalize_label label = spec_key label.
Proof.
  rewrite normalize_label_chars. apply map_chars_ext, label_char_spec_key.
Qed.

Lemma next_non_empty_spec (it : list string) :
  match next_non_empty it with
  | None => non_empty it = []
  | Some (a, r) => a ≠ EmptyString ∧ non_empty it = a :: non_empty r
  end.
Proof.
  induction it as [|a it IH]; simpl; [done|].
  unfold non_empty in *.
  destruct (decide (a = EmptyString)) as [->|Hne].
  - rewrite filter_cons_False by (intros H; by apply H).
    exact IH.
  - split; [done|]. by rewrite filter_cons_True.
Qed.

Lemma specs_loop_zip (spec_labels spec_values : list string) (d : gmap string string) :
  specs_loop spec_labels spec_values d
  = foldl (λ d p, <[normalize_label p.1 := normalize_value p.2]> d) d
      (zip (non_empty spec_labels) (non_empty spec_values)).
Proof.
  revert spec_values d.
  induction spec_labels as [|label labels IH]; intros values d; simpl; [done|].
  unfold non_empty in *.
  destruct (decide (label = EmptyString)) as [->|Hne].
  - rewrite filter_cons_False by (intros H; by apply H). apply IH.
  - rewrite filter_cons_True by done.
    pose proof (next_non_empty_spec values) as Hv.
    destruct (next_non_empty values) as [[value values']|].
    + destruct Hv as [_ Hv]. unfold non_empty in Hv. rewrite Hv. simpl. apply IH.
    + unfold non_empty in Hv. by rewrite Hv.
Qed.

(** The pair at a position decides the entry of its key when no later pair
    has the same key. *)
Lemma foldl_specs_lookup_last (pairs : list (string * string)) (d : gmap string string)
    (i : nat) (label value : string) :
  pairs !! i = Some (label, value) →
  (∀ j p, i < j → pairs !! j = Some p → normalize_label p.1 ≠ normalize_label label) →
  foldl (λ d p, <[normalize_label p.1 := normalize_value p.2]> d) d pairs
    !! normalize_label label = Some (normalize_value value).
Proof.
  revert d i. induction pairs as [|p pairs IH]; intros d i Hi Hlater; [done|].
  destruct i as [|i]; simpl in *.
  - injection Hi as ->. clear IH.
    assert (Hgen : ∀ d' : gmap string string, d' !! normalize_label label = Some (normalize_value value) →
      foldl (λ d p, <[normalize_label p.1 := normalize_value p.2]> d) d' pairs
        !! normalize_label label = Some (normalize_value value)).
    { assert (Hl : ∀ j p, pairs !! j = Some p →
                normalize_label p.1 ≠ normalize_label label).
      { intros j p Hp. apply (Hlater (S j) p); [lia|done]. }
      clear Hlater. induction pairs as [|q pairs IH]; intros d' Hd'; [done|].
      simpl. apply IH.
      - intros j p Hp. by apply (Hl (S j)).
      - rewrite lookup_insert_ne; [done|]. by apply (Hl 0). }
    apply Hgen. by rewrite lookup_insert_eq.
  - apply (IH _ i); [done|].
    intros j q Hj Hq. apply (Hlater (S j) q); [lia|done].
Qed.

(** Every entry comes from a pair, or was there before. *)
Lemma foldl_specs_lookup_origin (pairs : list (string * string)) (d : gmap string string)
    (k x : string) :
  foldl (λ d p, <[normalize_label p.1 := normalize_value p.2]> d) d pairs !! k = Some x →
  d !! k = Some x ∨
  ∃ i label value, pairs !! i = Some (label, value)
    ∧ k = normalize_label label ∧ x = normalize_value value.
Proof.
  revert d. induction pairs as [|[l v] pairs IH]; intros d H; simpl in *; [by left|].
  destruct (IH _ H) as [Hd|(i & label & value & Hi & -> & ->)].
  - destruct (decide (normalize_label l = k)) as [<-|Hne].
    + rewrite lookup_insert_eq in Hd. injection Hd as <-.
      right. by exists 0, l, v.
    + rewrite lookup_insert_ne in Hd by done. by left.
  - right. by exists (S i), label, value.
Qed.

(** Unfolding of the monad on a state. *)
Ltac run_M :=
  unfold mbind, M_bind, bind, mret, M_ret, ret, raise, lift, get_state,
    except_ValueError in *; simpl in *.

Lemma try_tab_live {F} (tab : page F → bool) (st : scrapper F) (pg : page F) :
  driver st = Live pg → try_tab tab st = (Return (tab pg), st).
Proof.
  intros Hd. unfold try_tab, go_to_tab, current_page. run_M. rewrite Hd.
  by destruct (tab pg).
Qed.

(** C2: on a page whose specs tab exists, [get_specs] drops the empty texts
    from the labels and from the values separately, pairs what is left by
    position (up to the shorter of the two), and files each value under the
    key of its label: the label with every capital letter turned into its
    small letter and every space into an underscore; a later pair with the
    same key overwrites an earlier one. *)
Theorem get_specs_pairs_after_filter {F}
    (st : scrapper F) (pg : page F) (labels values : list string) :
  driver st = Live pg →
  tab_specs pg = true →
  span_labels pg = Some labels →
  span_values pg = Some values →
  let pairs := zip (non_empty labels) (non_empty values) in
  ∃ st',
    get_specs st = (Return tt, st')
    ∧ specs (product_info st') = Some (specs_of_pairs pairs)
    ∧ length pairs = length (non_empty labels) `min` length (non_empty values)
    ∧ (∀ i label value,
         non_empty labels !! i = Some label →
         non_empty values !! i = Some value →
         (∀ j label', i < j < length (non_empty values) →
            non_empty labels !! j = Some label' →
            spec_key label' ≠ spec_key label) →
         specs_of_pairs pairs !! spec_key label = Some (normalize_value value))
    ∧ (∀ k x,
         specs_of_pairs pairs !! k = Some x →
         ∃ i label value,
           non_empty labels !! i = Some label
           ∧ non_empty values !! i = Some value
           ∧ k = spec_key label ∧ x = normalize_value value).
Proof.
  intros Hd Htab Hl Hv pairs.
  assert (Hcode : specs_of_pairs pairs
                  = foldl (λ d p, <[normalize_label p.1 := normalize_value p.2]> d)
                      ∅ pairs).
  { unfold specs_of_pairs. generalize (∅ : gmap string string).
    induction pairs as [|p ps IH]; intros d; [done|].
    simpl. by rewrite normalize_label_spec_key, IH. }
  eexists. split; [|split; [|split; [|split]]].
  - unfold get_specs. run_M. rewrite (try_tab_live _ _ pg Hd), Htab.
    unfold current_page. rewrite Hd, Hl, Hv. reflexivity.
  - simpl. by rewrite specs_loop_zip, Hcode.
  - apply length_zip.
  - intros i label value Hi Hj Hlater.
    rewrite Hcode, <- normalize_label_spec_key.
    apply (foldl_specs_lookup_last pairs ∅ i label value).
    + unfold pairs. rewrite lookup_zip_with, Hi. simpl. by rewrite Hj.
    + intros j [l v] Hij Hp. unfold pairs in Hp.
      apply lookup_zip_with_Some in Hp as (l' & v' & Heq & Hl' & Hv').
      injection Heq as -> ->. simpl. rewrite !normalize_label_spec_key.
      apply (Hlater j); [|done]. split; [done|]. by eapply lookup_lt_Some.
  - intros k x Hk. rewrite Hcode in Hk.
    destruct (foldl_specs_lookup_origin pairs ∅ k x Hk)
      as [Habs|(i & label & value & Hi & -> & ->)]; [by rewrite lookup_empty in Habs|].
    unfold pairs in Hi.
    apply lookup_zip_with_Some in Hi as (l' & v' & Heq & Hl' & Hv').
    injection Heq as -> ->. exists i, l', v'. by rewrite normalize_label_spec_key.
Qed.

(** ** Texts and scanning *)

Example hex_35 : hex 35 = "0x23".
Proof. reflexivity. Qed.

Example hex_47 : hex_ascii (chr 47) = "%2F".
Proof. reflexivity. Qed.

Example hex_4660 : hex 4660 = "0x1234".
Proof. reflexivity. Qed.

Example normalize_label_rated_power : normalize_label "Rated Power" = "rated_power".
Proof. reflexivity. Qed.

Example findall_number_samples :
  findall match_number "4.5 in (114 mm) 1..2 3. 1.2.3 .5"
  = ["4.5"; "114"; "1..2"; "3."; "1.2"; "3"; "5"].
Proof. reflexivity. Qed.

Lemma app_assoc_text (a b c : string) : (a +:+ b) +:+ c = a +:+ b +:+ c.
Proof. induction a as [|x a IH]; [done|]. by rewrite !app_cons, IH. Qed.

Lemma length_app_text (a b : string) :
  String.length (a +:+ b) = String.length a + String.length b.
Proof. induction a as [|x a IH]; [done|]. rewrite app_cons. simpl. by rewrite IH. Qed.

Lemma filter_chars_app (p : ascii → bool) (a b : string) :
  filter_chars p (a +:+ b) = filter_chars p a +:+ filter_chars p b.
Proof.
  induction a as [|x a IH]; [done|]. rewrite app_cons. simpl.
  destruct (p x); [|done]. by rewrite app_cons, IH.
Qed.

Lemma all_chars_app (p : ascii → bool) (a b : string) :
  all_chars p (a +:+ b) = all_chars p a && all_chars p b.
Proof.
  induction a as [|x a IH]; [done|]. rewrite app_cons. simpl.
  by rewrite IH, andb_assoc.
Qed.

Lemma span_spec (p : ascii → bool) (s a b : string) :
  span p s = (a, b) →
  s = a +:+ b ∧ all_chars p a = true
  ∧ match b with String c _ => p c = false | EmptyString => True end.
Proof.
  revert a b. induction s as [|c s IH]; intros a b H; simpl in H.
  - by injection H as <- <-.
  - destruct (p c) eqn:Hc.
    + destruct (span p s) as [a' b'] eqn:Hs. injection H as <- <-.
      destruct (IH a' b' eq_refl) as (-> & Ha & Hb).
      rewrite app_cons. simpl. by rewrite Hc, Ha.
    + injection H as <- <-. by rewrite Hc.
Qed.

(** A match of the number pattern is a prefix of the text, has the shape
    of the pattern, and exists exactly when the text starts with a digit. *)
Lemma match_number_spec (s : string) :
  match match_number s with
  | Some piece =>
      number_shaped piece ∧ ∃ rest, s = piece +:+ rest
  | None =>
      match s with String c _ => is_digit c = false | EmptyString => True end
  end.
Proof.
  unfold match_number.
  destruct (span is_digit s) as [d1 r1] eqn:H1.
  destruct (span_spec _ _ _ _ H1) as (-> & Hd1 & Hr1).
  destruct d1 as [|c d1].
  - rewrite app_empty_l. by destruct r1.
  - destruct (span is_dot r1) as [dots r2] eqn:H2.
    destruct (span_spec _ _ _ _ H2) as (-> & Hdots & _).
    destruct (span is_digit r2) as [d2 r3] eqn:H3.
    destruct (span_spec _ _ _ _ H3) as (-> & Hd2 & _).
    split.
    + by exists (String c d1), dots, d2.
    + exists r3. by rewrite !app_assoc_text.
Qed.

Lemma findall_from_Forall (Q : string → Prop) (m : string → option string) :
  (∀ s piece, m s = Some piece → Q piece) →
  ∀ s k, Forall Q (findall_from m k s).
Proof.
  intros Hm s. induction s as [|c s IH]; intros k; simpl; [constructor|].
  destruct k; [|apply IH].
  destruct (m (String c s)) as [piece|] eqn:Hp; [|apply IH].
  constructor; [by eapply Hm|apply IH].
Qed.

Lemma findall_from_skip (m : string → option string) (a rest : string) :
  findall_from m (String.length a) (a +:+ rest) = findall_from m 0 rest.
Proof. induction a as [|x a IH]; [by destruct rest|]. rewrite app_cons. simpl. apply IH. Qed.

(** The scan, match by match. *)
Lemma findall_step (m : string → option string) (c : ascii) (r : string) :
  (∀ s piece, m s = Some piece → piece ≠ EmptyString ∧ ∃ rest, s = piece +:+ rest) →
  match m (String c r) with
  | Some piece =>
      ∃ rest, String c r = piece +:+ rest
        ∧ findall m (String c r) = piece :: findall m rest
  | None => findall m (String c r) = findall m r
  end.
Proof.
  intros Hm. unfold findall. simpl.
  destruct (m (String c r)) as [piece|] eqn:Hp; [|done].
  destruct (Hm _ _ Hp) as (Hne & rest & Hs).
  exists rest. split; [done|]. f_equal.
  destruct piece as [|x piece]; [done|].
  rewrite app_cons in Hs. injection Hs as -> ->.
  simpl. rewrite Nat.sub_0_r. apply findall_from_skip.
Qed.

Lemma match_number_prefix (s piece : string) :
  match_number s = Some piece →
  piece ≠ EmptyString ∧ ∃ rest, s = piece +:+ rest.
Proof.
  intros H. pose proof (match_number_spec s) as Hs. rewrite H in Hs.
  destruct Hs as [(d1 & dots & d2 & -> & Hne & _) Hrest].
  split; [|done]. by destruct d1.
Qed.

Lemma number_shaped_has_digit (piece : string) :
  number_shaped piece → filter_chars is_digit piece ≠ EmptyString.
Proof.
  intros (d1 & dots & d2 & -> & Hne & Hd1 & _).
  destruct d1 as [|c d1]; [done|]. simpl in Hd1.
  apply andb_true_iff in Hd1 as [Hc _]. rewrite app_cons. simpl. by rewrite Hc.
Qed.

(** Every digit of the text lies in a match, in the order of the text. *)
Lemma findall_number_digits (s : string) :
  filter_chars is_digit (concat_texts (findall match_number s))
  = filter_chars is_digit s.
Proof.
  remember (String.length s) as n eqn:Hn.
  assert (Hle : String.length s ≤ n) by lia. clear Hn.
  revert s Hle. induction n as [|n IH]; intros s Hle.
  { destruct s; [done|simpl in Hle; lia]. }
  destruct s as [|c r]; [done|].
  pose proof (findall_step match_number c r match_number_prefix) as Hstep.
  pose proof (match_number_spec (String c r)) as Hspec.
  destruct (match_number (String c r)) as [piece|] eqn:Hp.
  - destruct Hstep as (rest & Hs & Hf).
    destruct (match_number_prefix _ _ Hp) as [Hne _].
    rewrite Hf.
    change (concat_texts (piece :: findall match_number rest))
      with (piece +:+ concat_texts (findall match_number rest)).
    rewrite Hs, !filter_chars_app. f_equal.
    apply IH.
    assert (Hlen : String.length (String c r) = String.length (piece +:+ rest))
      by (by rewrite Hs).
    rewrite length_app_text in Hlen. simpl in Hlen, Hle.
    destruct piece; [done|]. simpl in Hlen. lia.
  - rewrite Hstep. simpl. rewrite Hspec. apply IH. simpl in Hle. lia.
Qed.

Lemma join_empty (sep : string) (l : list string) :
  Forall (λ x, x ≠ EmptyString) l →
  join sep l = EmptyString → l = [].
Proof.
  intros Hl Hj. destruct l as [|x l]; [done|].
  apply Forall_cons in Hl as [Hx _].
  destruct x as [|c x]; [done|].
  simpl in Hj. destruct l; [done|]. by rewrite app_cons in Hj.
Qed.

(** ** Value normalization *)

(** C5, as stated, fails: on a range written with dots the code keeps the
    whole run as one piece, where the integer and decimal numerals of the
    text are 10 and 20. *)
Lemma normalize_value_not_numerals :
  normalize_value "10...20" = "10...20"
  ∧ join "/" (numeric_substrings "10...20") = "10/20"
  ∧ normalize_value "10...20" ≠ join "/" (numeric_substrings "10...20").
Proof. split; [reflexivity|split; [reflexivity|discriminate]]. Qed.

(** C5, amended: the normalized value is the pieces found from the left by
    the pattern, joined with a slash; every piece is a run of digits, then
    any number of dots, then any number of digits; every digit of the value
    lies in a piece; the result is the empty text exactly when the value has
    no digit; and the two examples hold. *)
Theorem normalize_value_pieces (value : string) :
  normalize_value value = join "/" (findall match_number value)
  ∧ Forall number_shaped (findall match_number value)
  ∧ filter_chars is_digit (concat_texts (findall match_number value))
    = filter_chars is_digit value
  ∧ (normalize_value value = EmptyString
     ↔ filter_chars is_digit value = EmptyString)
  ∧ normalize_value "4.5 in (114 mm)" = "4.5/114"
  ∧ normalize_value "N/A" = EmptyString.
Proof.
  assert (Hshape : Forall number_shaped (findall match_number value)).
  { apply findall_from_Forall. intros s piece Hp.
    pose proof (match_number_spec s) as Hs. rewrite Hp in Hs. apply Hs. }
  pose proof (findall_number_digits value) as Hdigits.
  split; [done|split; [done|split; [done|split; [|by split]]]].
  unfold normalize_value. split.
  - intros Hj. apply join_empty in Hj.
    + by rewrite Hj in Hdigits.
    + eapply Forall_impl; [exact Hshape|].
      intros piece Hp%number_shaped_has_digit. by destruct piece.
  - intros Hnone. rewrite Hnone in Hdigits.
    destruct (findall match_number value) as [|piece l]; [done|].
    apply Forall_cons in Hshape as [Hp%number_shaped_has_digit _].
    change (concat_texts (piece :: l)) with (piece +:+ concat_texts l) in Hdigits.
    rewrite filter_chars_app in Hdigits.
    destruct (filter_chars is_digit piece); [done|]. by rewrite app_cons in Hdigits.
Qed.

(** ** Escaping of CAD addresses *)

Lemma re_sub_char_app (c : ascii) (h x y : string) :
  re_sub_char c h (x +:+ y) = re_sub_char c h x +:+ re_sub_char c h y.
Proof.
  induction x as [|a x IH]; [done|]. rewrite app_cons. simpl.
  destruct (decide (a = c)); rewrite IH; [by rewrite app_assoc_text|done].
Qed.

Lemma re_sub_char_absent (q : ascii → bool) (c : ascii) (h s : string) :
  all_chars q s = true → q c = false → re_sub_char c h s = s.
Proof.
  intros Hs Hc. induction s as [|a s IH]; [done|]. simpl in *.
  apply andb_true_iff in Hs as [Ha Hs].
  destruct (decide (a = c)) as [->|_]; [congruence|]. by rewrite IH.
Qed.

(** A percent form is the percent sign followed by characters of [\w]. *)
Lemma hex_ascii_chars (a : ascii) :
  all_chars (λ x, is_word x || bool_decide (x = percent_char)) (hex_ascii a) = true.
Proof. destruct a as [[] [] [] [] [] [] [] []]; vm_compute; reflexivity. Qed.

(** From code 16 on it has two digits. *)
Lemma hex_ascii_two_digits (a : ascii) :
  (if (16 <=? ord a)%N then bool_decide (hex_ascii a = "%" +:+ hex2 a) else true) = true.
Proof. destruct a as [[] [] [] [] [] [] [] []]; vm_compute; reflexivity. Qed.

Lemma escape_step (P : list ascii) (c : ascii) (s : string) :
  is_word c = false → c ∉ P → (c ≠ percent_char ∨ P = []) →
  re_sub_char c (hex_ascii c) (encode_in P s) = encode_in (P ++ [c]) s.
Proof.
  intros Hw HcP Hpc. induction s as [|a s IH]; [done|]. simpl.
  destruct (decide (a ∈ P)) as [HaP|HaP].
  - rewrite decide_True by (apply elem_of_app; by left).
    rewrite re_sub_char_app, IH. f_equal.
    apply (re_sub_char_absent _ _ _ _ (hex_ascii_chars a)).
    rewrite Hw. simpl. apply bool_decide_eq_false.
    destruct Hpc as [Hpc| ->]; [done|]. by apply not_elem_of_nil in HaP.
  - simpl. destruct (decide (a = c)) as [->|Hac].
    + rewrite decide_True by (apply elem_of_app; right; by left). by rewrite IH.
    + rewrite decide_False; [by rewrite IH|].
      by intros [?|?%list_elem_of_singleton]%elem_of_app.
Qed.

Lemma escape_url_from (rest P : list ascii) (s : string) :
  NoDup (P ++ rest) →
  Forall (λ c, is_word c = false) rest →
  percent_char ∉ tail (P ++ rest) →
  escape_url rest (encode_in P s) = encode_in (P ++ rest) s.
Proof.
  revert P. induction rest as [|c rest IH]; intros P Hnd Hw Hpc.
  { by rewrite app_nil_r. }
  apply Forall_cons in Hw as [Hc Hw].
  unfold escape_url in *. simpl. rewrite escape_step.
  - rewrite (IH (P ++ [c])); rewrite <- ?app_assoc; done.
  - done.
  - apply NoDup_app in Hnd as (_ & Hnd & _). intros HcP.
    apply (Hnd c HcP). by left.
  - destruct P as [|p P]; [by right|left]. simpl in Hpc.
    intros ->. apply Hpc, elem_of_app. right. by left.
Qed.

Lemma encode_in_nil (s : string) : encode_in [] s = s.
Proof.
  induction s as [|a s IH]; [done|]. simpl.
  rewrite ?decide_False by apply not_elem_of_nil. by rewrite IH.
Qed.

Lemma encode_in_percent_encode (order : list ascii) (s : string) :
  (∀ c, c ∈ chars_of s → (c ∈ order ↔ is_word c = false)) →
  all_chars (λ c, is_word c || (16 <=? ord c)%N) s = true →
  encode_in order s = percent_encode s.
Proof.
  induction s as [|a s IH]; intros Hin Hcodes; [done|]. simpl in *.
  apply andb_true_iff in Hcodes as [Ha Hcodes].
  rewrite IH; [|intros c Hc; apply Hin; by right|done].
  destruct (Hin a) as [H1 H2]; [by left|].
  destruct (is_word a) eqn:Hw.
  - rewrite decide_False; [done|]. intros Hao. by specialize (H1 Hao).
  - rewrite decide_True by auto. simpl in Ha.
    pose proof (hex_ascii_two_digits a) as H2d. rewrite Ha in H2d.
    apply bool_decide_eq_true in H2d. rewrite H2d.
    by rewrite app_assoc_text.
Qed.

Lemma findall_non_word (s : string) :
  omap first_char (findall match_non_word s)
  = filter (λ c, is_word c = false) (chars_of s).
Proof.
  unfold findall. induction s as [|c s IH]; [done|]. simpl.
  destruct (is_word c) eqn:Hw.
  - rewrite filter_cons_False by (by rewrite Hw). apply IH.
  - rewrite filter_cons_True by done. simpl. f_equal. exact IH.
Qed.

Lemma elem_of_non_words_char (c : ascii) (s : string) :
  c ∈ non_words_char s ↔ c ∈ chars_of s ∧ is_word c = false.
Proof.
  unfold non_words_char. rewrite elem_of_list_to_set, findall_non_word.
  by rewrite list_elem_of_filter, (comm and).
Qed.

(** When the percent sign is the first character that the loop meets, or
    is not met at all, and no character to escape has a code below 16, the
    loop yields the percent-encoding of the address. *)
Lemma escape_url_percent_encode (url_string : string) (order : list ascii) :
  iteration_of (non_words_char url_string) order →
  percent_char ∉ tail order →
  all_chars (λ c, is_word c || (16 <=? ord c)%N) url_string = true →
  escape_url order url_string = percent_encode url_string.
Proof.
  intros [Hnd Hiter] Hpc Hcodes.
  rewrite <- (encode_in_nil url_string) at 1.
  rewrite (escape_url_from order [] url_string); simpl; [|done| |done].
  - apply encode_in_percent_encode; [|done].
    intros c Hc. rewrite Hiter, elem_of_non_words_char. tauto.
  - apply Forall_forall. intros c Hc.
    apply Hiter, elem_of_non_words_char in Hc. apply Hc.
Qed.

(** C3 on the code: with the address a%20b#c and the set of its characters
    outside [\w] met in the order hash, percent, the percent signs written
    for the hash are escaped again, so the hash ends as %2523 where the claim
    has %23; and a character with a code below 16 (here the tabulation) gets
    one digit, where the claim has two. *)
Theorem escape_url_reescapes_percent :
  iteration_of (non_words_char "a%20b#c") [hash_char; percent_char]
  ∧ escape_url [hash_char; percent_char] "a%20b#c" = "a%2520b%2523c"
  ∧ percent_encode "a%20b#c" = "a%2520b%23c"
  ∧ escape_url [percent_char; hash_char] "a%20b#c" = "a%2520b%23c"
  ∧ escape_url [tab_char] (String tab_char "b") = "%9b"
  ∧ percent_encode (String tab_char "b") = "%09b".
Proof.
  split; [|by repeat split].
  split.
  - apply NoDup_cons. split; [|apply NoDup_singleton].
    intros H%list_elem_of_singleton. discriminate.
  - intros c. rewrite elem_of_non_words_char.
    change (chars_of "a%20b#c") with (chr 97 :: percent_char :: chr 50 :: chr 48 :: chr 98 :: hash_char :: chr 99 :: []).
    rewrite !elem_of_cons, elem_of_nil. split.
    + intros [->|[->|[]]]; split; auto 10.
    + intros [[->|[->|[->|[->|[->|[->|[->|[]]]]]]]] Hw]; auto; discriminate.
Qed.

(** ** Bill of materials *)

Section Bom.

Context {F : Type} (E : env F).

Lemma astype_float_split (series : list (cell F)) :
  astype_float E (split_cell <$> series)
  = match mapM (quantity_value E) series with
    | Some quantities => Return quantities
    | None => Raise ValueError
    end.
Proof.
  induction series as [|c series IH]; [done|].
  rewrite fmap_cons. simpl. rewrite IH.
  destruct c as [s|x|]; simpl.
  - destruct (py_float E (split_first " " s)); simpl; [|done].
    by destruct (mapM (quantity_value E) series).
  - by destruct (mapM (quantity_value E) series).
  - by destruct (mapM (quantity_value E) series).
Qed.

Lemma mapM_quantity_length (series quantities : list (cell F)) :
  mapM (quantity_value E) series = Some quantities →
  length quantities = length series.
Proof. intros H. symmetry. by eapply length_mapM. Qed.

Lemma mapM_quantity_lookup (series quantities : list (cell F)) (j : nat) (c : cell F) :
  mapM (quantity_value E) series = Some quantities →
  series !! j = Some c →
  ∃ q, quantity_value E c = Some q ∧ quantities !! j = Some q.
Proof.
  intros H Hc. apply mapM_Some in H.
  destruct (Forall2_lookup_l _ _ _ _ _ H Hc) as (q & Hq & Hcq).
  by exists q.
Qed.

Lemma mapM_quantity_None (series : list (cell F)) :
  mapM (quantity_value E) series = None
  ↔ ∃ s, CStr s ∈ series ∧ py_float E (split_first " " s) = None.
Proof.
  rewrite mapM_None, Exists_exists. split.
  - intros (c & Hc & Hq). destruct c as [s|x|]; [|done..].
    exists s. split; [done|]. simpl in Hq. by destruct (py_float E _).
  - intros (s & Hs & Hq). exists (CStr s). split; [done|]. simpl. by rewrite Hq.
Qed.

Lemma getitem_index (df : DataFrame F) (col : string) (i : nat) :
  NoDup (columns df) → columns df !! i = Some col →
  column_index col df = Some i.
Proof.
  intros Hnd Hi. unfold column_index.
  destruct (list_find (λ c, c = col) (columns df)) as [[j c]|] eqn:Hf; simpl.
  - apply list_find_Some in Hf as (Hj & -> & _).
    f_equal. by eapply NoDup_lookup.
  - apply list_find_None in Hf. rewrite Forall_forall in Hf.
    exfalso. apply (Hf col); [|done]. by eapply list_elem_of_lookup_2.
Qed.

Lemma getitem_once (df : DataFrame F) (col : string) (i : nat) :
  NoDup (columns df) → columns df !! i = Some col →
  col ∉ drop (S i) (columns df).
Proof.
  intros Hnd Hi [j Hj]%list_elem_of_lookup. rewrite lookup_drop in Hj.
  pose proof (NoDup_lookup _ _ _ _ Hnd Hi Hj). lia.
Qed.

Lemma lookup_zip_with_insert (rows : list (list (cell F))) (vals : list (cell F)) (i : nat) :
  length vals = length rows →
  Forall (λ row, i < length row) rows →
  (λ row, default CNaN (row !! i)) <$> zip_with (λ row v, <[i := v]> row) rows vals
  = vals.
Proof.
  revert vals. induction rows as [|row rows IH]; intros [|v vals] Hlen Hw;
    simpl in *; try done.
  apply Forall_cons in Hw as [Hrow Hw].
  rewrite list_lookup_insert_eq by done. simpl. f_equal. apply IH; [lia|done].
Qed.

Lemma zip_with_insert_twice (rows : list (list (cell F))) (v1 v2 : list (cell F)) (i : nat) :
  length v1 = length rows →
  zip_with (λ row v, <[i := v]> row) (zip_with (λ row v, <[i := v]> row) rows v1) v2
  = zip_with (λ row v, <[i := v]> row) rows v2.
Proof.
  revert v1 v2. induction rows as [|row rows IH]; intros [|a v1] [|b v2] Hlen;
    simpl in *; try done.
  rewrite list_insert_insert_eq. f_equal. apply IH. lia.
Qed.

Lemma foldl_insert_lookup_nodup (kvs : list (string * cell F))
    (d : gmap string (cell F)) (i : nat) (k : string) (v : cell F) :
  NoDup kvs.*1 → kvs !! i = Some (k, v) →
  foldl (λ d kv, <[kv.1 := kv.2]> d) d kvs !! k = Some v.
Proof.
  revert d i. induction kvs as [|[k' v'] kvs IH]; intros d i Hnd Hi; [done|].
  rewrite fmap_cons in Hnd. apply NoDup_cons in Hnd as [Hk' Hnd].
  destruct i as [|i]; simpl in *.
  - injection Hi as -> ->. clear IH.
    assert (Hgen : ∀ d' : gmap string (cell F), d' !! k = Some v →
      foldl (λ d kv, <[kv.1 := kv.2]> d) d' kvs !! k = Some v).
    { clear Hnd. induction kvs as [|[k2 v2] kvs IH]; intros d' Hd'; [done|].
      simpl. rewrite fmap_cons, not_elem_of_cons in Hk'. destruct Hk' as [Hne Hk'].
      apply IH; [done|]. by rewrite lookup_insert_ne. }
    apply Hgen. by rewrite lookup_insert_eq.
  - by apply (IH _ i).
Qed.

(** The quantity of a record once the column was set. *)
Lemma to_dict_records_quantity (cols : list string) (rows : list (list (cell F)))
    (vals : list (cell F)) (i j : nat) (v : cell F) :
  NoDup cols → cols !! i = Some "quantity" →
  Forall (λ row, length row = length cols) rows →
  length vals = length rows →
  vals !! j = Some v →
  ∃ r, to_dict_records
         {| columns := cols; data := zip_with (λ row v, <[i := v]> row) rows vals |}
         !! j = Some r
       ∧ r !! "quantity" = Some v.
Proof.
  intros Hnd Hi Hw Hlen Hv. unfold to_dict_records. simpl.
  assert (Hj : j < length rows).
  { rewrite <- Hlen. by eapply lookup_lt_Some. }
  destruct (lookup_lt_is_Some_2 _ _ Hj) as [row Hrow].
  eexists. split.
  - rewrite list_lookup_fmap, lookup_zip_with, Hrow. simpl. rewrite Hv. reflexivity.
  - rewrite Forall_forall in Hw.
    assert (Hlr : length row = length cols).
    { apply Hw. by eapply list_elem_of_lookup_2. }
    apply (foldl_insert_lookup_nodup _ _ i).
    + rewrite fst_zip; [done|]. rewrite length_insert. lia.
    + rewrite lookup_zip_with, Hi. simpl.
      rewrite list_lookup_insert_eq; [done|].
      rewrite Hlr. by eapply lookup_lt_Some.
Qed.

End Bom.

Lemma get_bom_run {F} (E : env F) (st : scrapper F) (pg : page F)
    (df : DataFrame F) (others : list (DataFrame F)) (i : nat) :
  driver st = Live pg →
  tab_parts pg = true →
  parts_pane pg = Some (Some (df :: others)) →
  data df ≠ [] →
  NoDup (normalize_label <$> columns df) →
  (normalize_label <$> columns df) !! i = Some "quantity" →
  Forall (λ row, length row = length (columns df)) (data df) →
  let cells := (λ row, default CNaN (row !! i)) <$> data df in
  existsb is_str cells = true →
  get_bom E st
  = match mapM (quantity_value E) cells with
    | Some quantities =>
        (Return tt,
         {| product_info :=
              {| product_id := product_id (product_info st);
                 name := name (product_info st);
                 description := description (product_info st);
                 specs := specs (product_info st);
                 bom := Some (to_dict_records
                   {| columns := normalize_label <$> columns df;
                      data := zip_with (λ row v, <[i := v]> row) (data df) quantities |});
                 assets := assets (product_info st) |};
            driver := driver st; logs := logs st; files := files st |})
    | None => (Raise ValueError, st)
    end.
Proof.
  intros Hd Htab Hpane Hdata Hnd Hi Hw cells Hstr.
  set (df' := {| columns := normalize_label <$> columns df; data := data df |}).
  assert (Hidx : column_index "quantity" df' = Some i) by by apply getitem_index.
  assert (Hwi : Forall (λ row, i < length row) (data df)).
  { eapply Forall_impl; [exact Hw|]. intros row ->. simpl.
    apply lookup_lt_Some in Hi. by rewrite length_fmap in Hi. }
  assert (Hne : df_empty df' = false).
  { unfold df_empty. simpl. apply orb_false_iff. split; apply bool_decide_eq_false.
    - intros Hc. by rewrite Hc in Hi.
    - done. }
  assert (Hrep : "quantity" ∉ drop (S i) (normalize_label <$> columns df)).
  { by apply (getitem_once df'). }
  assert (H1 : getitem df' "quantity" = Return cells).
  { unfold getitem. rewrite Hidx. simpl. by rewrite decide_False. }
  assert (H2 : str_split_first cells = Return (split_cell <$> cells)).
  { unfold str_split_first. by rewrite Hstr. }
  assert (H3 : ∀ vals, setitem df' "quantity" vals
    = {| columns := normalize_label <$> columns df;
         data := zip_with (λ row v, <[i := v]> row) (data df) vals |}).
  { intros vals. unfold setitem. by rewrite Hidx. }
  assert (H4 : ∀ vals, column_index "quantity"
    {| columns := normalize_label <$> columns df;
       data := zip_with (λ row v, <[i := v]> row) (data df) vals |} = Some i).
  { intros vals. exact Hidx. }
  assert (H5 : getitem (setitem df' "quantity" (split_cell <$> cells)) "quantity"
    = Return (split_cell <$> cells)).
  { rewrite H3. unfold getitem. rewrite H4. simpl. rewrite decide_False by done.
    rewrite lookup_zip_with_insert; [done| |done].
    unfold cells. by rewrite !length_fmap. }
  assert (H6 : ∀ vals, setitem (setitem df' "quantity" (split_cell <$> cells)) "quantity" vals
    = {| columns := normalize_label <$> columns df;
         data := zip_with (λ row v, <[i := v]> row) (data df) vals |}).
  { intros vals. rewrite H3. unfold setitem. rewrite H4. simpl.
    rewrite zip_with_insert_twice; [done|].
    unfold cells. by rewrite !length_fmap. }
  unfold get_bom. run_M. rewrite (try_tab_live _ _ pg Hd), Htab.
  unfold current_page. rewrite Hd, Hpane. simpl. fold df'. rewrite Hne.
  rewrite H1. run_M. rewrite H2. run_M. rewrite H5. run_M.
  rewrite astype_float_split.
  destruct (mapM (quantity_value E) cells) as [quantities|] eqn:Hq; [|done].
  run_M. unfold set_info. by rewrite H6, Hd.
Qed.

(** C4, amended: on a parsed table with distinct column names and a
    quantity column that holds at least one text, [get_bom] keeps every row
    and gives it as quantity the float of the text of its cell up to the
    first space, NaN when the cell holds no text; when [float] refuses that
    text for some cell, it raises [ValueError] and records nothing. *)
Theorem get_bom_quantity {F} (E : env F) (st : scrapper F) (pg : page F)
    (df : DataFrame F) (others : list (DataFrame F)) (i : nat) :
  driver st = Live pg →
  tab_parts pg = true →
  parts_pane pg = Some (Some (df :: others)) →
  data df ≠ [] →
  NoDup (normalize_label <$> columns df) →
  (normalize_label <$> columns df) !! i = Some "quantity" →
  Forall (λ row, length row = length (columns df)) (data df) →
  let cells := (λ row, default CNaN (row !! i)) <$> data df in
  existsb is_str cells = true →
  ((∃ s, CStr s ∈ cells ∧ py_float E (split_first " " s) = None) →
     get_bom E st = (Raise ValueError, st))
  ∧ ((∀ s, CStr s ∈ cells → is_Some (py_float E (split_first " " s))) →
     ∃ st' records,
       get_bom E st = (Return tt, st')
       ∧ bom (product_info st') = Some records
       ∧ length records = length (data df)
       ∧ ∀ j c, cells !! j = Some c →
           ∃ r, records !! j = Some r
                ∧ r !! "quantity" = quantity_value E c).
Proof.
  intros Hd Htab Hpane Hdata Hnd Hi Hw cells Hstr.
  pose proof (get_bom_run E st pg df others i Hd Htab Hpane Hdata Hnd Hi Hw Hstr)
    as Hrun.
  fold cells in Hrun. split.
  - intros Hbad. apply mapM_quantity_None in Hbad. by rewrite Hbad in Hrun.
  - intros Hgood.
    destruct (mapM (quantity_value E) cells) as [quantities|] eqn:Hq.
    + eexists _, _. split; [exact Hrun|]. split; [reflexivity|].
      assert (Hlen : length quantities = length (data df)).
      { rewrite (mapM_quantity_length E _ _ Hq). unfold cells. by rewrite length_fmap. }
      split.
      * unfold to_dict_records. simpl. rewrite length_fmap, length_zip_with. lia.
      * intros j c Hc.
        destruct (mapM_quantity_lookup E _ _ j c Hq Hc) as (q & Hqc & Hqj).
        rewrite Hqc.
        apply (to_dict_records_quantity _ _ _ i j q); try done.
        eapply Forall_impl; [exact Hw|]. intros row ->. by rewrite length_fmap.
    + apply mapM_quantity_None in Hq as (s & Hs & Hnone).
      destruct (Hgood s Hs) as [x Hx]. congruence.
Qed.

(** C2 on a sample page: two labels and two values are left, the third
    label finds no value; the power is filed under rated_power and the frame
    under frame. *)
Lemma get_specs_pairs_after_filter_witness :
  ∃ st' spec_dict,
    get_specs (loaded specs_page) = (Return tt, st')
    ∧ specs (product_info st') = Some spec_dict
    ∧ spec_dict = specs_of_pairs [("Rated Power", "5 HP"); ("Frame", "184T")]
    ∧ spec_dict !! "rated_power" = Some "5"
    ∧ spec_dict !! "frame" = Some "184"
    ∧ spec_dict !! "Rated Power" = None
    ∧ size spec_dict = 2.
Proof.
  destruct (get_specs_pairs_after_filter (loaded specs_page) specs_page
              sample_labels sample_values)
    as (st' & Hrun & Hspecs & _); [reflexivity..|].
  exists st', (specs_of_pairs [("Rated Power", "5 HP"); ("Frame", "184T")]).
  split; [exact Hrun|]. split; [exact Hspecs|]. split; [reflexivity|].
  split; [reflexivity|]. split; [reflexivity|]. split; reflexivity.
Defined.

(** C4, amended, on a sample table with two texts and a missing cell. *)
Lemma get_bom_quantity_witness :
  ∃ st' records,
    get_bom offline_env
      (loaded (parts_page [CStr "12 EA"; CStr "4.5 EA extra"; CNaN]))
    = (Return tt, st')
    ∧ bom (product_info st') = Some records
    ∧ length records = 3
    ∧ ∀ j c, [CStr "12 EA"; CStr "4.5 EA extra"; CNaN] !! j = Some c →
        ∃ r, records !! j = Some r
             ∧ r !! "quantity" = quantity_value offline_env c.
Proof.
  pose (pg := parts_page [CStr "12 EA"; CStr "4.5 EA extra"; CNaN]).
  destruct (get_bom_quantity offline_env (loaded pg) pg
              (sample_parts [CStr "12 EA"; CStr "4.5 EA extra"; CNaN]) [] 2)
    as [_ Hgood]; try reflexivity.
  - discriminate.
  - apply (bool_decide_unpack _). vm_compute. reflexivity.
  - repeat constructor.
  - apply Hgood. intros s Hs. simpl in Hs.
    apply elem_of_cons in Hs as [Hs|Hs]; [injection Hs as ->; by eexists|].
    apply elem_of_cons in Hs as [Hs|Hs]; [injection Hs as ->; by eexists|].
    apply elem_of_cons in Hs as [Hs|Hs]; [discriminate|].
    by apply elem_of_nil in Hs.
Defined.

(** C4, as stated, fails twice. A cell whose unit follows the number after
    a tabulation starts with a number, and its first token cut at white space
    parses, yet the stage raises: the code cuts at the space character only.
    And a row whose quantity cell is missing does not start with a number,
    yet the stage does not fail: the row is kept with NaN as quantity. *)
Lemma get_bom_quantity_counterexample :
  (sample_float (first_word tabbed_cell) = Some 12%float
   ∧ get_bom offline_env (loaded (parts_page [CStr tabbed_cell]))
     = (Raise ValueError, loaded (parts_page [CStr tabbed_cell])))
  ∧ ∃ st' r0 r1,
      get_bom offline_env (loaded (parts_page [CStr "12 EA"; CNaN]))
      = (Return tt, st')
      ∧ bom (product_info st') = Some [r0; r1]
      ∧ r0 !! "quantity" = Some (CNum 12%float)
      ∧ r1 !! "quantity" = Some CNaN.
Proof.
  split; [split; vm_compute; reflexivity|].
  eexists _, _, _. split; [vm_compute; reflexivity|].
  split; [reflexivity|]. split; vm_compute; reflexivity.
Qed.

(** ** What the stages leave untouched *)

Section Frames.

Context {F : Type} (E : env F) (default_url_download : string).

#[local] Abbreviation M := (M F).

Lemma preserves_bind {A B X} (f : scrapper F → X) (m : M A) (k : A → M B) :
  preserves f m → (∀ a, preserves f (k a)) → preserves f (m ≫= k).
Proof.
  intros Hm Hk st. unfold mbind, M_bind, bind.
  specialize (Hm st). destruct (m st) as [[a|e] st']; simpl in *; [|done].
  by rewrite Hk.
Qed.

Lemma preserves_except {A X} (f : scrapper F → X) (m h : M A) :
  preserves f m → preserves f h → preserves f (except_ValueError m h).
Proof.
  intros Hm Hh st. unfold except_ValueError.
  specialize (Hm st). destruct (m st) as [[a|[]] st']; simpl in *; try done.
  by rewrite Hh.
Qed.

Lemma preserves_current_page {X} (f : scrapper F → X) :
  preserves f (current_page (F:=F)).
Proof. intros st. unfold current_page. by destruct (driver st). Qed.

Lemma preserves_lift {A X} (f : scrapper F → X) (o : outcome A) :
  preserves f (lift (F:=F) o).
Proof. intros st. by destruct o. Qed.

End Frames.

(** Goes through a stage, leaf by leaf. *)
Ltac frame :=
  repeat first
    [ apply preserves_bind; [|intros ?]
    | apply preserves_except
    | apply preserves_current_page
    | apply preserves_lift
    | (intros ?; reflexivity)
    | match goal with
      | |- preserves _ (match ?x with _ => _ end) => destruct x
      end ].

Section Stages.

Context {F : Type} (E : env F) (default_url_download : string).

#[local] Abbreviation M := (M F).

Lemma try_tab_preserves {X} (f : scrapper F → X) (tab : page F → bool) :
  preserves f (try_tab tab).
Proof. unfold try_tab, go_to_tab. frame. Qed.

Lemma get_response_preserves {X} (f : scrapper F → X) (src_url : string) :
  (∀ st l msg, f (log l msg st).2 = f st) →
  preserves f (get_response E src_url).
Proof.
  intros Hlog. unfold get_response.
  destruct (http_get E src_url); frame; intros ?; apply Hlog.
Qed.

Lemma get_head_driver : preserves driver (get_head (F:=F)).
Proof. unfold get_head. frame. Qed.

Lemma get_head_files : preserves files (get_head (F:=F)).
Proof. unfold get_head. frame. Qed.

Lemma get_head_assets :
  preserves (λ st, assets (product_info st)) (get_head (F:=F)).
Proof. unfold get_head. frame. Qed.

Lemma get_specs_driver : preserves driver (get_specs (F:=F)).
Proof. unfold get_specs. frame; apply try_tab_preserves. Qed.

Lemma get_specs_files : preserves files (get_specs (F:=F)).
Proof. unfold get_specs. frame; apply try_tab_preserves. Qed.

Lemma get_specs_product_id :
  preserves (λ st, product_id (product_info st)) (get_specs (F:=F)).
Proof. unfold get_specs. frame; apply try_tab_preserves. Qed.

Lemma get_specs_assets :
  preserves (λ st, assets (product_info st)) (get_specs (F:=F)).
Proof. unfold get_specs. frame; apply try_tab_preserves. Qed.

Lemma get_bom_driver : preserves driver (get_bom E).
Proof. unfold get_bom, convert_html_table. frame; apply try_tab_preserves. Qed.

Lemma get_bom_files : preserves files (get_bom E).
Proof. unfold get_bom, convert_html_table. frame; apply try_tab_preserves. Qed.

Lemma get_bom_product_id :
  preserves (λ st, product_id (product_info st)) (get_bom E).
Proof. unfold get_bom, convert_html_table. frame; apply try_tab_preserves. Qed.

Lemma get_bom_assets :
  preserves (λ st, assets (product_info st)) (get_bom E).
Proof. unfold get_bom, convert_html_table. frame; apply try_tab_preserves. Qed.

End Stages.

Section Assets.

Context {F : Type} (E : env F) (default_url_download : string).

#[local] Abbreviation M := (M F).

Lemma download_preserves {X} (f : scrapper F → X) (src_url dst_path : string) :
  (∀ st l msg, f (log l msg st).2 = f st) →
  (∀ st path file, f (write_file path file st).2 = f st) →
  preserves f (download E src_url dst_path).
Proof.
  intros Hlog Hwrite. unfold download.
  apply preserves_bind; [by apply get_response_preserves|].
  intros [src|]; [|intros ?; apply Hlog].
  destruct (writable E dst_path); [intros ?; apply Hwrite|by intros ?].
Qed.

Lemma cad_loop_preserves {X} (f : scrapper F → X) (prod_out_path : string)
    (cad_list : list cad_info) (assets_metadata : gmap string string) :
  (∀ st l msg, f (log l msg st).2 = f st) →
  (∀ st path file, f (write_file path file st).2 = f st) →
  preserves f (cad_loop E default_url_download prod_out_path cad_list assets_metadata).
Proof.
  intros Hlog Hwrite. revert assets_metadata.
  induction cad_list as [|info cad_list IH]; intros assets_metadata; simpl.
  - by intros ?.
  - apply preserves_bind; [by apply download_preserves|]. intros _. apply IH.
Qed.

Lemma download_assets_preserves {X} (f : scrapper F → X) :
  (∀ st l msg, f (log l msg st).2 = f st) →
  (∀ st path file, f (write_file path file st).2 = f st) →
  (∀ st img pdf cads,
     f (set_info (λ info,
          {| product_id := product_id info; name := name info;
             description := description info; specs := specs info;
             bom := bom info;
             assets := Some {| image := img; manual := pdf; cad := cads |} |}) st).2
     = f st) →
  preserves f (download_assets E default_url_download).
Proof.
  intros Hlog Hwrite Hset. unfold download_assets.
  apply preserves_bind; [apply try_tab_preserves|]. intros [|]; [|by intros ?].
  apply preserves_bind; [by intros ?|]. intros st0.
  destruct (product_id (product_info st0)) as [prod_id|]; [|by intros ?].
  assert (Hfiles : ∀ attribute out_path,
            preserves f (download_files E attribute out_path)).
  { intros attribute out_path. unfold download_files.
    apply preserves_bind; [apply preserves_current_page|]. intros pg.
    destruct (attribute pg); [|by intros ?].
    apply preserves_bind; [by apply download_preserves|]. by intros ? ?. }
  apply preserves_bind; [apply Hfiles|]. intros img.
  apply preserves_bind; [apply Hfiles|]. intros pdf.
  apply preserves_bind; [|intros cads ?; apply Hset].
  unfold download_cad.
  apply preserves_bind; [apply preserves_current_page|]. intros pg.
  destruct (cadfiles pg) as [[[|info cad_list]|]|].
  - frame; intros ?; apply Hlog.
  - apply preserves_bind; [by apply cad_loop_preserves|]. by intros ? ?.
  - by intros ?.
  - frame; intros ?; apply Hlog.
Qed.

Lemma download_assets_driver :
  preserves driver (download_assets E default_url_download).
Proof. by apply download_assets_preserves. Qed.

Lemma download_assets_product_id :
  preserves (λ st, product_id (product_info st))
    (download_assets E default_url_download).
Proof. by apply download_assets_preserves. Qed.

(** Without a drawings tab the stage returns at once and changes nothing. *)
Lemma download_assets_no_tab (st : scrapper F) (pg : page F) :
  driver st = Live pg → tab_drawings pg = false →
  download_assets E default_url_download st = (Return tt, st).
Proof.
  intros Hd Htab. unfold download_assets. run_M.
  by rewrite (try_tab_live _ _ pg Hd), Htab.
Qed.

(** With a drawings tab and no product id the stage raises before any
    download. *)
Lemma download_assets_no_id (st : scrapper F) (pg : page F) :
  driver st = Live pg → tab_drawings pg = true →
  product_id (product_info st) = None →
  download_assets E default_url_download st = (Raise TypeError, st).
Proof.
  intros Hd Htab Hid. unfold download_assets. run_M.
  by rewrite (try_tab_live _ _ pg Hd), Htab, Hid.
Qed.

Lemma get_head_run (st : scrapper F) (pg : page F) :
  driver st = Live pg →
  ∃ st', get_head st = (Return tt, st')
    ∧ product_id (product_info st') = page_title pg.
Proof.
  intros Hd. unfold get_head, current_page, set_info. run_M. rewrite Hd. simpl.
  rewrite Hd. by eexists.
Qed.

Lemma json_write_run (fname : string) (doc : JsonSchema F) (st : scrapper F) :
  ∃ ok st',
    json_write E fname doc st = (Return ok, st')
    ∧ driver st' = driver st ∧ product_info st' = product_info st
    ∧ (∀ path, path ≠ fname → files st' !! path = files st !! path)
    ∧ match json_dump E fname doc with
      | DumpOk =>
          ok = true ∧ logs st' = logs st
          ∧ files st' !! fname = Some (JsonDoc doc)
      | DumpTypeError =>
          ok = false ∧ files st' !! fname = Some Truncated
          ∧ ∃ msg, logs st' = logs st ++ [(ERROR, msg)]
      | _ =>
          ok = false ∧ files st' = files st
          ∧ ∃ msg, logs st' = logs st ++ [(ERROR, msg)]
      end.
Proof.
  unfold json_write, write_file, log. run_M.
  destruct (json_dump E fname doc); simpl; eexists _, _;
    (split; [reflexivity|]); simpl; repeat split;
    try (intros path Hne; by rewrite lookup_insert_ne);
    try apply lookup_insert_eq; try by eexists.
Qed.

End Assets.

(** ** The run over one product *)

Section Run.

Context {F : Type} (E : env F) (default_url_download : string).

Lemma get_specs_returns (st : scrapper F) (pg : page F) :
  driver st = Live pg → ∃ st', get_specs st = (Return tt, st').
Proof.
  intros Hd. unfold get_specs. run_M. rewrite (try_tab_live _ _ pg Hd).
  destruct (tab_specs pg); [|by eexists].
  unfold current_page. rewrite Hd.
  destruct (span_labels pg), (span_values pg); by eexists.
Qed.

(** The probe answered: the run is the pipe, then the saving. *)
Lemma run_scrapping_probe_ok (product_url : string) (st : scrapper F) :
  http_get E product_url = HttpOk →
  run_scrapping E default_url_download product_url st
  = (run_pipe E default_url_download product_url;; saving E)
      (announced st product_url).
Proof.
  intros Hok. unfold run_scrapping, get_response, log. run_M. by rewrite Hok.
Qed.

(** The pipe, stage by stage. Head and Specs return; BOM and Assets return
    or raise; the browser quits only after Assets has returned. Up to
    Assets nothing is written, the id is the title of the page, and the
    assets of the record are untouched. *)
Lemma run_pipe_cases (product_url : string) (st : scrapper F) (pg : page F) :
  render E product_url = Some pg →
  ∃ st1 st2 r3 st3,
    get_head (on_page st pg) = (Return tt, st1)
    ∧ get_specs st1 = (Return tt, st2)
    ∧ get_bom E st2 = (r3, st3)
    ∧ driver st3 = Live pg
    ∧ product_id (product_info st3) = page_title pg
    ∧ files st3 = files st
    ∧ assets (product_info st3) = assets (product_info st)
    ∧ match r3 with
      | Raise e => run_pipe E default_url_download product_url st = (Raise e, st3)
      | Return _ =>
          ∃ r4 st4,
            download_assets E default_url_download st3 = (r4, st4)
            ∧ driver st4 = Live pg
            ∧ product_id (product_info st4) = page_title pg
            ∧ match r4 with
              | Raise e =>
                  run_pipe E default_url_download product_url st = (Raise e, st4)
              | Return _ =>
                  run_pipe E default_url_download product_url st
                  = (Return tt, quitted st4)
              end
      end.
Proof.
  intros Hrender.
  destruct (get_head_run (on_page st pg) pg eq_refl) as (st1 & H1 & Hid1).
  assert (Hd1 : driver st1 = Live pg).
  { pose proof (get_head_driver (on_page st pg)) as H. by rewrite H1 in H. }
  assert (Hf1 : files st1 = files st).
  { pose proof (get_head_files (on_page st pg)) as H. by rewrite H1 in H. }
  assert (Ha1 : assets (product_info st1) = assets (product_info st)).
  { pose proof (get_head_assets (on_page st pg)) as H. by rewrite H1 in H. }
  destruct (get_specs_returns st1 pg Hd1) as (st2 & H2).
  assert (Hd2 : driver st2 = Live pg).
  { pose proof (get_specs_driver st1) as H. rewrite H2 in H. simpl in H. congruence. }
  assert (Hf2 : files st2 = files st).
  { pose proof (get_specs_files st1) as H. rewrite H2 in H. simpl in H. congruence. }
  assert (Ha2 : assets (product_info st2) = assets (product_info st)).
  { pose proof (get_specs_assets st1) as H. rewrite H2 in H. simpl in H. congruence. }
  assert (Hid2 : product_id (product_info st2) = page_title pg).
  { pose proof (get_specs_product_id st1) as H. rewrite H2 in H. simpl in H. congruence. }
  destruct (get_bom E st2) as [r3 st3] eqn:H3.
  assert (Hd3 : driver st3 = Live pg).
  { pose proof (get_bom_driver E st2) as H. rewrite H3 in H. simpl in H. congruence. }
  assert (Hf3 : files st3 = files st).
  { pose proof (get_bom_files E st2) as H. rewrite H3 in H. simpl in H. congruence. }
  assert (Ha3 : assets (product_info st3) = assets (product_info st)).
  { pose proof (get_bom_assets E st2) as H. rewrite H3 in H. simpl in H. congruence. }
  assert (Hid3 : product_id (product_info st3) = page_title pg).
  { pose proof (get_bom_product_id E st2) as H. rewrite H3 in H. simpl in H. congruence. }
  exists st1, st2, r3, st3. repeat (split; [done|]).
  assert (Hpipe : run_pipe E default_url_download product_url st
    = (get_head;; get_specs;; get_bom E;;
       download_assets E default_url_download;; close) (on_page st pg)).
  { unfold run_pipe, load_page, set_driver. run_M. by rewrite Hrender. }
  rewrite Hpipe. clear Hpipe. unfold mbind, M_bind, bind.
  rewrite H1. cbv beta iota. rewrite H2. cbv beta iota. rewrite H3.
  destruct r3 as [[]|e]; [|done]. cbv beta iota.
  destruct (download_assets E default_url_download st3) as [r4 st4] eqn:H4.
  assert (Hd4 : driver st4 = Live pg).
  { pose proof (download_assets_driver E default_url_download st3) as H.
    rewrite H4 in H. simpl in H. congruence. }
  assert (Hid4 : product_id (product_info st4) = page_title pg).
  { pose proof (download_assets_product_id E default_url_download st3) as H.
    rewrite H4 in H. simpl in H. congruence. }
  exists r4, st4. repeat (split; [done|]).
  destruct r4 as [[]|e]; [|done].
  unfold close, set_driver. run_M. by rewrite Hd4.
Qed.

End Run.

Section Orchestrator.

Context {F : Type} (E : env F) (default_url_download : string).

Lemma saving_run (st : scrapper F) :
  let json_path := metadata_path (product_id (product_info st)) in
  ∃ st',
    saving E st = (Return tt, st')
    ∧ driver st' = driver st
    ∧ product_info st' = product_info st
    ∧ (∀ path, path ≠ json_path → files st' !! path = files st !! path)
    ∧ match json_dump E json_path (product_info st) with
      | DumpOk =>
          files st' !! json_path = Some (JsonDoc (product_info st))
          ∧ logs st'
            = logs st ++ [(SUCCESS, fmt (product_id (product_info st))
                                      +:+ ": Sucefully scrapping")]
      | _ =>
          ∃ msg, logs st'
            = logs st ++ [(ERROR, msg);
                          (SUCCESS, fmt (product_id (product_info st))
                                      +:+ ": Sucefully scrapping")]
      end.
Proof.
  intros json_path. unfold saving. unfold mbind at 1, M_bind, bind at 1, get_state.
  fold json_path. unfold mbind, M_bind, bind.
  destruct (json_write_run E json_path (product_info st) st)
    as (ok & st1 & Hw & Hd & Hi & Hf & Hcase).
  fold (metadata_path (product_id (product_info st))). fold json_path.
  rewrite Hw. unfold log. eexists. split; [reflexivity|]. simpl.
  repeat (split; [done|]).
  destruct (json_dump E json_path (product_info st)).
  - destruct Hcase as (_ & Hl & Hfile). by rewrite Hl.
  - destruct Hcase as (_ & _ & msg & Hl). exists msg. rewrite Hl.
    by rewrite <- app_assoc.
  - destruct Hcase as (_ & _ & msg & Hl). exists msg. rewrite Hl.
    by rewrite <- app_assoc.
  - destruct Hcase as (_ & _ & msg & Hl). exists msg. rewrite Hl.
    by rewrite <- app_assoc.
Qed.

(** C7, amended: once the page is loaded, the browser quits exactly when
    Head, Specs, BOM and Assets have all returned; when one of them raises,
    the exception leaves [run_scrapping] and the session stays open. *)
Theorem run_scrapping_close_after_stages
    (product_url : string) (st : scrapper F) (pg : page F) :
  http_get E product_url = HttpOk →
  render E product_url = Some pg →
  match run_scrapping E default_url_download product_url st with
  | (Return _, st') => driver st' = Closed
  | (Raise _, st') => driver st' = Live pg
  end.
Proof.
  intros Hok Hrender. rewrite (run_scrapping_probe_ok _ _ _ _ Hok).
  destruct (run_pipe_cases E default_url_download product_url
              (announced st product_url) pg Hrender)
    as (st1 & st2 & r3 & st3 & _ & _ & _ & Hd3 & _ & _ & _ & Hcase).
  unfold mbind, M_bind, bind.
  destruct r3 as [[]|e]; [|by rewrite Hcase].
  destruct Hcase as (r4 & st4 & _ & Hd4 & _ & Hcase).
  destruct r4 as [[]|e]; [|by rewrite Hcase].
  rewrite Hcase.
  destruct (saving_run (quitted st4)) as (st' & Hs & Hd & _).
  by rewrite Hs, Hd.
Qed.

(** C6, amended: when the run reaches the saving, the file is named after
    the text form of the id that Head read off the title, and holds the
    record with that id, which is null when the page has no title. When Head
    reads no id and the page has a drawings tab, the run raises before the
    saving and writes nothing. *)
Theorem run_scrapping_product_id
    (product_url : string) (st : scrapper F) (pg : page F) :
  http_get E product_url = HttpOk →
  render E product_url = Some pg →
  let r := run_scrapping E default_url_download product_url st in
  let json_path := metadata_path (page_title pg) in
  (∀ st', r = (Return tt, st') →
     product_id (product_info st') = page_title pg
     ∧ (json_dump E json_path (product_info st') = DumpOk →
        files st' !! json_path = Some (JsonDoc (product_info st'))))
  ∧ (page_title pg = None → tab_drawings pg = true →
     ∃ e st', r = (Raise e, st') ∧ files st' = files st).
Proof.
  intros Hok Hrender r json_path. unfold r.
  rewrite (run_scrapping_probe_ok _ _ _ _ Hok).
  destruct (run_pipe_cases E default_url_download product_url
              (announced st product_url) pg Hrender)
    as (st1 & st2 & r3 & st3 & _ & _ & _ & Hd3 & Hid3 & Hf3 & _ & Hcase).
  unfold mbind, M_bind, bind.
  destruct r3 as [[]|e].
  - destruct Hcase as (r4 & st4 & H4 & Hd4 & Hid4 & Hcase).
    destruct r4 as [[]|e]; rewrite Hcase.
    + destruct (saving_run (quitted st4)) as (st' & Hs & _ & Hi & _ & Hdump).
      rewrite Hs. split.
      * intros st'' [= <-]. rewrite !Hi. simpl. split; [done|].
        simpl in Hdump. rewrite Hid4 in Hdump. fold json_path in Hdump.
        intros Hdok. rewrite Hdok in Hdump. apply Hdump.
      * intros Hnone Htab.
        rewrite (download_assets_no_id E _ st3 pg Hd3 Htab) in H4; [done|].
        by rewrite Hid3.
    + split; [done|]. intros Hnone Htab.
      rewrite (download_assets_no_id E _ st3 pg Hd3 Htab) in H4;
        [|by rewrite Hid3].
      injection H4 as <- <-. by eexists _, _.
  - rewrite Hcase. split; [done|]. intros _ _. by eexists _, _.
Qed.

(** C10: on a page without drawings tab, [download_assets] returns at once
    and changes nothing; over the whole run of the product the assets of the
    record stay as they were (null for a new scrapper) and no file is written
    apart from the metadata file, so neither the image nor the manual is
    downloaded, whatever the page holds for them. *)
Theorem download_assets_without_drawings_tab
    (product_url : string) (st : scrapper F) (pg : page F) :
  http_get E product_url = HttpOk →
  render E product_url = Some pg →
  tab_drawings pg = false →
  (∀ st0, driver st0 = Live pg →
     download_assets E default_url_download st0 = (Return tt, st0))
  ∧ let st' := (run_scrapping E default_url_download product_url st).2 in
    assets (product_info st') = assets (product_info st)
    ∧ ∀ path, path ≠ metadata_path (page_title pg) →
        files st' !! path = files st !! path.
Proof.
  intros Hok Hrender Htab.
  split; [intros st0 Hd0; by apply (download_assets_no_tab E _ st0 pg)|].
  rewrite (run_scrapping_probe_ok _ _ _ _ Hok).
  destruct (run_pipe_cases E default_url_download product_url
              (announced st product_url) pg Hrender)
    as (st1 & st2 & r3 & st3 & _ & _ & _ & Hd3 & Hid3 & Hf3 & Ha3 & Hcase).
  unfold mbind, M_bind, bind.
  destruct r3 as [[]|e]; [|by rewrite Hcase; simpl; rewrite Ha3, Hf3].
  destruct Hcase as (r4 & st4 & H4 & _ & _ & Hcase).
  rewrite (download_assets_no_tab E _ st3 pg Hd3 Htab) in H4.
  injection H4 as <- <-. rewrite Hcase.
  destruct (saving_run (quitted st3)) as (st' & Hs & _ & Hi & Hf & _).
  rewrite Hs. simpl. rewrite Hi. simpl. split; [done|].
  intros path Hpath. rewrite Hf; [by simpl; rewrite Hf3|].
  simpl. by rewrite Hid3.
Qed.

End Orchestrator.

(** ** The probe and the persistence *)

Section Failures.

Context {F : Type} (E : env F) (default_url_download : string).

Lemma main_loop_step (product_url : string) (products_list : list string)
    (st : scrapper F) :
  main_loop E default_url_download (product_url :: products_list) st
  = match run_scrapping E default_url_download product_url (instantiated st) with
    | (Return _, st') => main_loop E default_url_download products_list st'
    | (Raise e, st') => (Raise e, st')
    end.
Proof. reflexivity. Qed.

(** A probe that fails by a timeout, a connection error or an HTTP error is
    logged and the product is skipped: no page is loaded, the record and the
    files stay as they were, and the loop of [main] goes on. *)
Lemma run_scrapping_probe_failure_skips
    (product_url : string) (products_list : list string) (st : scrapper F) :
  http_get E product_url ∈ [HttpTimeout; HttpConnectionError; HttpError] →
  ∃ msg,
    let skipped st :=
      {| product_info := product_info st; driver := driver st;
         logs := logs st ++ [(INFO, "Scrapping: " +:+ product_url); (ERROR, msg)];
         files := files st |} in
    run_scrapping E default_url_download product_url st = (Return tt, skipped st)
    ∧ main_loop E default_url_download (product_url :: products_list) st
      = main_loop E default_url_download products_list (skipped (instantiated st)).
Proof.
  intros Hfail. rewrite main_loop_step.
  unfold run_scrapping, get_response, log. run_M.
  rewrite !elem_of_cons, elem_of_nil in Hfail.
  destruct Hfail as [->|[->|[->|[]]]]; simpl; eexists;
    rewrite <- !app_assoc; simpl; split; reflexivity.
Qed.

(** C8 on the code: a probe that fails by any other exception reaches the
    handler that binds [error] with [as]; the name is unbound when the
    handler is left, the read of it raises [UnboundLocalError], nothing is
    logged about the failure and the exception ends the loop of [main]: the
    products that follow are not visited. *)
Theorem run_scrapping_unclassified_probe_failure
    (product_url : string) (products_list : list string) (st : scrapper F) :
  http_get E product_url = HttpOtherException →
  run_scrapping E default_url_download product_url st
    = (Raise UnboundLocalError, announced st product_url)
  ∧ main_loop E default_url_download (product_url :: products_list) st
    = (Raise UnboundLocalError, announced (instantiated st) product_url).
Proof.
  intros Hfail. rewrite main_loop_step.
  unfold run_scrapping, get_response, log. run_M. by rewrite Hfail.
Qed.

(** C9: when the run of a product reaches the saving and the dump fails, by
    a [TypeError], an I/O error or any other exception, [json_write] logs the
    error and returns [False]; [run_scrapping] returns normally, and the loop
    of [main] goes on with the next address. *)
Theorem json_write_failure_is_contained
    (product_url : string) (products_list : list string) (st0 st1 : scrapper F) :
  http_get E product_url = HttpOk →
  run_pipe E default_url_download product_url
    (announced (instantiated st0) product_url) = (Return tt, st1) →
  let json_path := metadata_path (product_id (product_info st1)) in
  json_dump E json_path (product_info st1) ≠ DumpOk →
  ∃ msg st1' st2,
    json_write E json_path (product_info st1) st1 = (Return false, st1')
    ∧ logs st1' = logs st1 ++ [(ERROR, msg)]
    ∧ run_scrapping E default_url_download product_url (instantiated st0)
      = (Return tt, st2)
    ∧ logs st2
      = logs st1 ++ [(ERROR, msg);
                     (SUCCESS, fmt (product_id (product_info st1))
                                 +:+ ": Sucefully scrapping")]
    ∧ main_loop E default_url_download (product_url :: products_list) st0
      = main_loop E default_url_download products_list st2.
Proof.
  intros Hok Hpipe json_path Hdump.
  rewrite main_loop_step, (run_scrapping_probe_ok _ _ _ _ Hok).
  unfold mbind, M_bind, bind. rewrite Hpipe.
  unfold saving, get_state. unfold mbind, M_bind, bind.
  fold (metadata_path (product_id (product_info st1))). fold json_path.
  unfold json_write, write_file, log. unfold mbind, M_bind, bind, mret, M_ret, ret.
  destruct (json_dump E json_path (product_info st1)); [done|..];
    eexists _, _, _; simpl; rewrite <- ?app_assoc; simpl;
    repeat split; reflexivity.
Qed.

End Failures.

(** ** The properties on the sample world *)

(** C6, as stated, fails: on a page without title and without drawings
    tab the run reaches the saving with a null id and writes the record under
    the name None.json. *)
Lemma run_scrapping_persists_null_id :
  ∃ st' doc,
    run_scrapping untitled_env download_base sample_url new_scrapper
    = (Return tt, st')
    ∧ files st' !! "output/metadata/None.json" = Some (JsonDoc doc)
    ∧ product_id doc = None.
Proof.
  eexists _, _. split; [vm_compute; reflexivity|].
  split; [vm_compute; reflexivity|reflexivity].
Qed.

(** C6, amended, on the page without title. *)
Lemma run_scrapping_product_id_witness :
  let r := run_scrapping untitled_env download_base sample_url new_scrapper in
  let json_path := metadata_path None in
  (∀ st', r = (Return tt, st') →
     product_id (product_info st') = None
     ∧ (json_dump untitled_env json_path (product_info st') = DumpOk →
        files st' !! json_path = Some (JsonDoc (product_info st'))))
  ∧ (@None string = None → false = true →
     ∃ e st', r = (Raise e, st') ∧ files st' = ∅).
Proof.
  exact (run_scrapping_product_id untitled_env download_base sample_url
           new_scrapper untitled_page eq_refl eq_refl).
Defined.

(** C7, as stated, fails: a quantity cell without number makes BOM raise,
    the exception leaves [run_scrapping], and the browser session is still
    open. *)
Lemma run_scrapping_leaves_session_open :
  ∃ st',
    run_scrapping bad_quantity_env download_base sample_url new_scrapper
    = (Raise ValueError, st')
    ∧ driver st' = Live (parts_page [CStr "EA"])
    ∧ driver st' ≠ Closed.
Proof.
  eexists. split; [vm_compute; reflexivity|]. split; [reflexivity|discriminate].
Qed.

(** C7, amended, on a page whose stages all return. *)
Lemma run_scrapping_close_after_stages_witness :
  match run_scrapping specs_env download_base sample_url new_scrapper with
  | (Return _, st') => driver st' = Closed
  | (Raise _, st') => driver st' = Live specs_page
  end.
Proof.
  exact (run_scrapping_close_after_stages specs_env download_base sample_url
           new_scrapper specs_page eq_refl eq_refl).
Defined.

(** C8 on a world where the probe of the first address loops on
    redirections: the second address is never visited. *)
Lemma run_scrapping_unclassified_probe_failure_witness :
  run_scrapping redirect_loop_env download_base sample_url new_scrapper
    = (Raise UnboundLocalError, announced new_scrapper sample_url)
  ∧ main_loop redirect_loop_env download_base [sample_url; other_url] new_scrapper
    = (Raise UnboundLocalError, announced (instantiated new_scrapper) sample_url).
Proof.
  exact (run_scrapping_unclassified_probe_failure redirect_loop_env download_base
           sample_url [other_url] new_scrapper eq_refl).
Defined.

(** With a probe that fails by an HTTP error the same run skips the
    product and visits the next one. *)
Example main_loop_not_found :
  ∃ st',
    main_loop not_found_env download_base [sample_url; other_url] new_scrapper
    = (Return tt, st')
    ∧ logs st'
      = [(INFO, "Scrapping: " +:+ sample_url);
         (ERROR, "Not found: " +:+ sample_url);
         (INFO, "Scrapping: " +:+ other_url);
         (SUCCESS, "CEM3546: Sucefully scrapping")].
Proof. eexists. split; vm_compute; reflexivity. Qed.

(** C9 on a world whose disk refuses the metadata file. *)
Lemma json_write_failure_is_contained_witness :
  ∃ msg st1 st1' st2,
    json_write full_disk_env "output/metadata/CEM3546.json" (product_info st1) st1
    = (Return false, st1')
    ∧ logs st1' = logs st1 ++ [(ERROR, msg)]
    ∧ run_scrapping full_disk_env download_base sample_url (instantiated new_scrapper)
      = (Return tt, st2)
    ∧ logs st2
      = logs st1 ++ [(ERROR, msg); (SUCCESS, "CEM3546: Sucefully scrapping")]
    ∧ main_loop full_disk_env download_base [sample_url; other_url] new_scrapper
      = main_loop full_disk_env download_base [other_url] st2.
Proof.
  pose (st1 := (run_pipe full_disk_env download_base sample_url
                  (announced (instantiated new_scrapper) sample_url)).2).
  destruct (json_write_failure_is_contained full_disk_env download_base
              sample_url [other_url] new_scrapper st1)
    as (msg & st1' & st2 & H); [reflexivity|vm_compute; reflexivity|discriminate|].
  exists msg, st1, st1', st2. exact H.
Defined.

(** C10 on a page that has an image and a manual but no drawings tab. *)
Lemma download_assets_without_drawings_tab_witness :
  (∀ st0, driver st0 = Live specs_page →
     download_assets specs_env download_base st0 = (Return tt, st0))
  ∧ let st' := (run_scrapping specs_env download_base sample_url new_scrapper).2 in
    assets (product_info st') = None
    ∧ ∀ path, path ≠ "output/metadata/CEM3546.json" →
        files st' !! path = (∅ : gmap string (file float)) !! path.
Proof.
  exact (download_assets_without_drawings_tab specs_env download_base sample_url
           new_scrapper specs_page eq_refl eq_refl eq_refl).
Defined.

(** * Further properties of the code *)

(** ** Catalog resolver *)


Lemma iter_products_processed (products : products_val)
    (processed_ids : option (gset string)) (x : option string) :
  x ∈ iter_products
        match processed_ids with
        | Some processed =>
            PSet (to_set products ∖ set_map (D:=gset (option string)) Some processed)
        | None => products
        end
  ↔ x ∈ iter_products products
    ∧ ∀ id, x = Some id → id ∉ default (∅ : gset string) processed_ids.
Proof.
  destruct processed_ids as [P|]; simpl.
  - rewrite elem_of_elements, elem_of_difference, elem_of_map.
    assert (x ∈ to_set products ↔ x ∈ iter_products products) as ->.
    { destruct products; simpl; [by rewrite elem_of_elements|by rewrite elem_of_list_to_set]. }
    split.
    + intros [Hx Hn]. split; [done|]. intros id -> Hid. apply Hn. by exists id.
    + intros [Hx Hn]. split; [done|]. intros (id & -> & Hid). by apply (Hn id).
  - split; [intros Hx; split; [done|]; intros id _; apply not_elem_of_empty|by intros [? _]].
Qed.

Lemma iter_products_processed_NoDup (products : products_val)
    (processed_ids : option (gset string)) :
  NoDup (iter_products products) →
  NoDup (iter_products
           match processed_ids with
           | Some processed =>
               PSet (to_set products ∖ set_map (D:=gset (option string)) Some processed)
           | None => products
           end).
Proof. destruct processed_ids; simpl; [intros _; apply NoDup_elements|done]. Qed.

(** What [get_products] returns from the value that [products] has before
    the processed ids are taken away. *)
Lemma get_products_from (products : products_val)
    (processed_ids : option (gset string)) :
  NoDup (iter_products products) →
  None ∉ iter_products products →
  ∃ ids : list string,
    product_urls (iter_products
                    match processed_ids with
                    | Some processed =>
                        PSet (to_set products
                                ∖ set_map (D:=gset (option string)) Some processed)
                    | None => products
                    end)
    = Return ((λ id, PRODUCT_URL +:+ id) <$> ids)
    ∧ NoDup ids
    ∧ (∀ id, id ∈ ids ↔ Some id ∈ iter_products products
                        ∧ id ∉ default (∅ : gset string) processed_ids)
    ∧ (processed_ids = None → Some <$> ids = iter_products products).
Proof.
  intros Hnd Hnone.
  destruct (product_urls_texts _
              (λ H, Hnone (proj1 (proj1 (iter_products_processed products processed_ids None) H)))
              (iter_products_processed_NoDup products processed_ids Hnd))
    as (ids & Hurls & Hids & Hl).
  exists ids. split; [done|]. split; [done|]. split.
  - intros id. rewrite <- (list_elem_of_fmap_inj Some), <- Hl, iter_products_processed.
    split; [intros [? Hn]; split; [done|by apply Hn]|].
    intros [? Hn]. split; [done|]. by intros ? [= <-].
  - intros ->. by rewrite Hl.
Qed.

(** X1: with an explicit list of ids the catalog is not asked and the limit
    is not used: whatever they are, the addresses are the base path followed
    by each id of the list that is not processed, once each. *)
Theorem get_products_explicit_list
    (feed : feed_outcome)
    (sample : list (option string) → nat → list (option string))
    (limit : option Z) (unique : list string)
    (processed_ids : option (gset string)) :
  ∃ ids : list string,
    get_products feed sample limit (UniqueList unique) processed_ids
      = Return ((λ id, PRODUCT_URL +:+ id) <$> ids)
    ∧ NoDup ids
    ∧ ∀ id, id ∈ ids ↔ id ∈ unique ∧ id ∉ default (∅ : gset string) processed_ids.
Proof.
  destruct (get_products_from (PSet (list_to_set (Some <$> unique))) processed_ids)
    as (ids & Hrun & Hnd & Hmem & _).
  { simpl. apply NoDup_elements. }
  { simpl. rewrite elem_of_elements, elem_of_list_to_set, list_elem_of_fmap.
    by intros (? & ? & _). }
  exists ids. split; [done|]. split; [done|].
  intros id. rewrite Hmem. simpl.
  by rewrite elem_of_elements, elem_of_list_to_set, (list_elem_of_fmap_inj Some).
Qed.


(** X3: with a limit that the catalog can serve, the texts are drawn first
    and the processed ones removed afterwards: when the draw holds no empty
    element, the addresses are those of the ids of the draw that are not
    processed, once each, so there are at most [limit] of them, and exactly
    [limit], in the order of the draw, when no processed ids are given. *)
Theorem get_products_limit
    (C : gset (option string))
    (sample : list (option string) → nat → list (option string))
    (k : nat) (processed_ids : option (gset string)) :
  fair_sampler sample →
  k ≤ size C →
  let draw := sample (elements C) k in
  None ∉ draw →
  ∃ ids : list string,
    get_products (FeedTexts C) sample (Some (Z.of_nat k)) UniqueNone processed_ids
      = Return ((λ id, PRODUCT_URL +:+ id) <$> ids)
    ∧ NoDup ids
    ∧ length ids ≤ k
    ∧ (∀ id, id ∈ ids ↔ Some id ∈ draw
                        ∧ id ∉ default (∅ : gset string) processed_ids)
    ∧ (∀ id, id ∈ ids → Some id ∈ C)
    ∧ (processed_ids = None → Some <$> ids = draw ∧ length ids = k).
Proof.
  intros Hfair Hk draw Hnone.
  destruct (Hfair (elements C) k (NoDup_elements C) Hk) as (Hlen & Hnd & Hin).
  fold draw in Hlen, Hnd, Hin.
  destruct (get_products_from (PList draw) processed_ids Hnd Hnone)
    as (ids & Hrun & Hids & Hmem & Hall).
  simpl in Hmem, Hall.
  exists ids. unfold get_products. change (length (elements C)) with (size C).
  rewrite decide_True by lia. rewrite Nat2Z.id. fold draw.
  split; [done|]. split; [done|].
  assert (Hsub : (Some <$> ids) ⊆ draw).
  { intros x (id & -> & Hid)%list_elem_of_fmap. by apply Hmem in Hid as [? _]. }
  split; [|split; [done|split]].
  - rewrite <- Hlen, <- (length_fmap Some ids).
    apply submseteq_length, NoDup_submseteq; [|done].
    by apply (NoDup_fmap_2 Some).
  - intros id [Hd _]%Hmem. by apply elem_of_elements, Hin.
  - intros Hp. specialize (Hall Hp). split; [done|].
    by rewrite <- Hlen, <- Hall, length_fmap.
Qed.

(** X3 with the sampler that answers the first texts. *)
Lemma get_products_limit_witness :
  ∃ ids : list string,
    get_products (FeedTexts {[Some "A"; Some "B"; Some "C"]}) first_sampler
      (Some 2%Z) UniqueNone (Some {["B"]})
      = Return ((λ id, PRODUCT_URL +:+ id) <$> ids)
    ∧ length ids ≤ 2.
Proof.
  destruct (get_products_limit {[Some "A"; Some "B"; Some "C"]} first_sampler 2
              (Some {["B"]}))
    as (ids & Hrun & _ & Hlen & _).
  - intros population k Hpop Hk. unfold first_sampler.
    split; [rewrite length_take; lia|].
    split; [|intros x (i & Hi & _)%elem_of_take; by eapply list_elem_of_lookup_2].
    rewrite <- (take_drop k population) in Hpop.
    by apply NoDup_app in Hpop as [Hpop _].
  - vm_compute. lia.
  - apply (bool_decide_eq_false_1 (None ∈ _)). vm_compute. reflexivity.
  - exists ids. split; [exact Hrun|exact Hlen].
Defined.

(** ** Labels and values *)

Lemma label_char_key (c : ascii) : key_char (label_char c) = true.
Proof. destruct c as [[] [] [] [] [] [] [] []]; vm_compute; reflexivity. Qed.

Lemma label_char_twice (c : ascii) : label_char (label_char c) = label_char c.
Proof. destruct c as [[] [] [] [] [] [] [] []]; vm_compute; reflexivity. Qed.

Lemma all_chars_map (p : ascii → bool) (f : ascii → ascii) (s : string) :
  (∀ c, p (f c) = true) → all_chars p (map_chars f s) = true.
Proof. intros H. induction s as [|c s IH]; [done|]. simpl. by rewrite H, IH. Qed.

Lemma length_map_chars (f : ascii → ascii) (s : string) :
  String.length (map_chars f s) = String.length s.
Proof. induction s as [|c s IH]; [done|]. simpl. by rewrite IH. Qed.

(** X4: a normalized label holds no space and none of the letters A to Z,
    and normalizing it again changes nothing. *)
Theorem normalize_label_normal (label : string) :
  all_chars key_char (normalize_label label) = true
  ∧ normalize_label (normalize_label label) = normalize_label label.
Proof.
  rewrite !normalize_label_chars. split.
  - apply all_chars_map, label_char_key.
  - rewrite map_chars_compose. apply map_chars_ext, label_char_twice.
Qed.

Lemma all_chars_impl (p q : ascii → bool) (s : string) :
  (∀ c, p c = true → q c = true) → all_chars p s = true → all_chars q s = true.
Proof.
  intros H. induction s as [|c s IH]; [done|]. simpl.
  intros [Hc Hs]%andb_true_iff. by rewrite (H c Hc), IH.
Qed.

Lemma number_shaped_value_chars (piece : string) :
  number_shaped piece → all_chars value_char piece = true.
Proof.
  intros (d1 & dots & d2 & -> & _ & Hd1 & Hdots & Hd2).
  rewrite !all_chars_app.
  rewrite (all_chars_impl is_digit value_char d1), (all_chars_impl is_dot value_char dots),
    (all_chars_impl is_digit value_char d2); try done;
    intros c Hc; unfold value_char; rewrite Hc; by rewrite ?orb_true_r.
Qed.

Lemma join_all_chars (p : ascii → bool) (sep : string) (l : list string) :
  all_chars p sep = true → Forall (λ x, all_chars p x = true) l →
  all_chars p (join sep l) = true.
Proof.
  intros Hsep Hl. induction Hl as [|x l Hx Hl IH]; [done|].
  simpl. destruct l as [|y l]; [done|].
  by rewrite !all_chars_app, Hx, Hsep, IH.
Qed.

Lemma normalize_label_key (label : string) :
  all_chars key_char (normalize_label label) = true.
Proof. rewrite normalize_label_chars. apply all_chars_map, label_char_key. Qed.

Lemma normalize_value_alphabet (value : string) :
  all_chars value_char (normalize_value value) = true.
Proof.
  unfold normalize_value. apply join_all_chars; [done|].
  eapply Forall_impl.
  - apply (findall_from_Forall number_shaped match_number).
    intros s piece Hp. pose proof (match_number_spec s) as Hs.
    rewrite Hp in Hs. apply Hs.
  - intros piece. apply number_shaped_value_chars.
Qed.

(** X5: a normalized value holds digits, dots and slashes only (no sign, no
    unit, no letter, no space), and when it is not empty it starts with a
    digit. *)
Theorem normalize_value_chars (value : string) :
  all_chars value_char (normalize_value value) = true
  ∧ match normalize_value value with
    | EmptyString => True
    | String c _ => is_digit c = true
    end.
Proof.
  split; [apply normalize_value_alphabet|].
  assert (Hshape : Forall number_shaped (findall match_number value)).
  { apply findall_from_Forall. intros s piece Hp.
    pose proof (match_number_spec s) as Hs. rewrite Hp in Hs. apply Hs. }
  unfold normalize_value.
  destruct Hshape as [|piece l Hp Hl]; [done|].
  destruct Hp as (d1 & dots & d2 & -> & Hne & Hd1 & _).
  destruct d1 as [|c d1]; [done|]. simpl in Hd1.
  apply andb_true_iff in Hd1 as [Hc _].
  simpl. by destruct l; rewrite !app_cons.
Qed.

Lemma app_empty_r (a : string) : a +:+ EmptyString = a.
Proof. induction a as [|c a IH]; [done|]. by rewrite app_cons, IH. Qed.

Lemma span_stop (p : ascii → bool) (b : string) :
  match b with String c _ => p c = false | EmptyString => True end →
  span p b = (EmptyString, b).
Proof. destruct b as [|c b]; [done|]. simpl. by intros ->. Qed.

Lemma span_app_stop (p : ascii → bool) (a b : string) :
  all_chars p a = true →
  match b with String c _ => p c = false | EmptyString => True end →
  span p (a +:+ b) = (a, b).
Proof.
  intros Ha Hb. induction a as [|c a IH]; [by apply span_stop|].
  simpl in Ha. apply andb_true_iff in Ha as [Hc Ha].
  rewrite app_cons. simpl. by rewrite Hc, IH.
Qed.

Lemma match_number_tight (s piece : string) :
  match_number s = Some piece → tight_number piece.
Proof.
  unfold match_number.
  destruct (span is_digit s) as [d1 r1] eqn:H1.
  destruct (span_spec _ _ _ _ H1) as (-> & Hd1 & Hr1).
  destruct d1 as [|c d1]; [done|].
  destruct (span is_dot r1) as [dots r2] eqn:H2.
  destruct (span_spec _ _ _ _ H2) as (-> & Hdots & _).
  destruct (span is_digit r2) as [d2 r3] eqn:H3.
  intros [= <-]. exists (String c d1), dots, d2.
  destruct (span_spec _ _ _ _ H3) as (_ & Hd2 & _).
  repeat (split; [done|]).
  intros ->. rewrite app_empty_l in Hr1.
  rewrite (span_stop _ _ Hr1) in H3. by injection H3 as <- _.
Qed.

Lemma match_number_again (piece rest : string) :
  tight_number piece →
  match rest with
  | String c _ => is_digit c = false ∧ is_dot c = false
  | EmptyString => True
  end →
  match_number (piece +:+ rest) = Some piece.
Proof.
  intros (d1 & dots & d2 & -> & Hne & Hd1 & Hdots & Hd2 & Htight) Hrest.
  assert (Hrd : match rest with String c _ => is_digit c = false | EmptyString => True end)
    by (destruct rest; [done|apply Hrest]).
  assert (Hrp : match rest with String c _ => is_dot c = false | EmptyString => True end)
    by (destruct rest; [done|apply Hrest]).
  unfold match_number. rewrite !app_assoc_text.
  destruct dots as [|p dots].
  - rewrite (Htight eq_refl), !app_empty_l.
    rewrite (span_app_stop _ _ _ Hd1 Hrd).
    destruct d1 as [|c d1]; [done|].
    by rewrite (span_stop _ _ Hrp), (span_stop _ _ Hrd), !app_empty_r.
  - simpl in Hdots. apply andb_true_iff in Hdots as [Hp Hdots].
    assert (Hpd : is_digit p = false).
    { revert Hp. clear. destruct p as [[] [] [] [] [] [] [] []]; by vm_compute. }
    rewrite (span_app_stop _ d1 (String p dots +:+ d2 +:+ rest) Hd1)
      by (by rewrite app_cons).
    destruct d1 as [|c d1]; [done|].
    assert (Hdr : match d2 +:+ rest with
                  | String c _ => is_dot c = false | EmptyString => True end).
    { destruct d2 as [|x d2]; [by rewrite app_empty_l|]. rewrite app_cons.
      simpl in Hd2. apply andb_true_iff in Hd2 as [Hx _].
      revert Hx. clear. destruct x as [[] [] [] [] [] [] [] []]; by vm_compute. }
    rewrite (span_app_stop is_dot (String p dots) (d2 +:+ rest));
      [|by simpl; rewrite Hp|done].
    by rewrite (span_app_stop _ _ _ Hd2 Hrd).
Qed.

Lemma findall_join_tight (pieces : list string) :
  Forall tight_number pieces →
  findall match_number (join "/" pieces) = pieces.
Proof.
  induction 1 as [|p pieces Hp Hps IH]; [done|].
  assert (Hwhole : ∀ rest,
    match rest with
    | String c _ => is_digit c = false ∧ is_dot c = false
    | EmptyString => True
    end →
    findall match_number (p +:+ rest) = p :: findall match_number rest).
  { intros rest Hrest.
    pose proof (match_number_again p rest Hp Hrest) as Hm.
    destruct Hp as (d1 & dots & d2 & -> & Hne & _).
    destruct d1 as [|c d1]; [done|]. rewrite !app_cons in *.
    pose proof (findall_step match_number c ((d1 +:+ dots +:+ d2) +:+ rest)
                  match_number_prefix) as Hstep.
    rewrite Hm in Hstep. destruct Hstep as (rest' & Heq & Hf).
    rewrite app_cons in Heq. injection Heq as Heq.
    apply String.app_inj in Heq as <-. exact Hf. }
  simpl. destruct pieces as [|q pieces].
  - rewrite <- (app_empty_r p) at 1. by rewrite Hwhole.
  - rewrite Hwhole by done. f_equal.
    change ("/" +:+ join "/" (q :: pieces)) with (String "/" (join "/" (q :: pieces))).
    pose proof (findall_step match_number "/" (join "/" (q :: pieces)) match_number_prefix)
      as Hstep.
    assert (Hnone : match_number (String "/" (join "/" (q :: pieces))) = None) by done.
    rewrite Hnone in Hstep. by rewrite Hstep.
Qed.

(** X6: normalizing a normalized value changes nothing. *)
Theorem normalize_value_idempotent (value : string) :
  normalize_value (normalize_value value) = normalize_value value.
Proof.
  unfold normalize_value. f_equal. apply findall_join_tight.
  apply findall_from_Forall. apply match_number_tight.
Qed.

(** ** The Specs and BOM stages *)

(** X7: on a loaded page [get_specs] never raises and leaves the files
    and every field of the record but [specs] as they were. Without specs tab
    it changes nothing at all, the log included; when a collection of texts
    is missing it only logs one warning. *)
Theorem get_specs_effect {F} (st : scrapper F) (pg : page F) :
  driver st = Live pg →
  ∃ st',
    get_specs st = (Return tt, st')
    ∧ files st' = files st
    ∧ product_id (product_info st') = product_id (product_info st)
    ∧ name (product_info st') = name (product_info st)
    ∧ description (product_info st') = description (product_info st)
    ∧ bom (product_info st') = bom (product_info st)
    ∧ assets (product_info st') = assets (product_info st)
    ∧ (tab_specs pg = false → st' = st)
    ∧ (tab_specs pg = true → span_labels pg = None ∨ span_values pg = None →
       specs (product_info st') = specs (product_info st)
       ∧ logs st'
         = logs st ++ [(WARNING, fmt (product_id (product_info st))
                                   +:+ ": Product without specs")]).
Proof.
  intros Hd. unfold get_specs. run_M. rewrite (try_tab_live _ _ pg Hd).
  destruct (tab_specs pg).
  - unfold current_page, set_info, log. rewrite Hd.
    destruct (span_labels pg) as [labels|], (span_values pg) as [values|];
      eexists; (split; [reflexivity|]); simpl; repeat (split; [done|]);
      first [done|by intros _ [?|?]].
  - eexists. split; [reflexivity|]. repeat (split; [done|]). done.
Qed.

(** X7 on the sample page without specs tab. *)
Lemma get_specs_effect_witness :
  get_specs (loaded untitled_page) = (Return tt, loaded untitled_page).
Proof.
  destruct (get_specs_effect (loaded untitled_page) untitled_page eq_refl)
    as (st' & Hrun & _ & _ & _ & _ & _ & _ & Hsame & _).
  by rewrite Hrun, (Hsame eq_refl).
Defined.

Lemma get_specs_run {F} (st : scrapper F) (pg : page F) (labels values : list string) :
  driver st = Live pg → tab_specs pg = true →
  span_labels pg = Some labels → span_values pg = Some values →
  ∃ st', get_specs st = (Return tt, st')
    ∧ specs (product_info st')
      = Some (foldl (λ d p, <[normalize_label p.1 := normalize_value p.2]> d) ∅
                (zip (non_empty labels) (non_empty values))).
Proof.
  intros Hd Htab Hl Hv. eexists. split.
  - unfold get_specs. run_M. rewrite (try_tab_live _ _ pg Hd), Htab.
    unfold current_page. rewrite Hd, Hl, Hv. reflexivity.
  - simpl. by rewrite specs_loop_zip.
Qed.

(** X8: every key of the specs that [get_specs] records is free of spaces
    and of upper-case letters, and every value holds digits, dots and slashes
    only. *)
Theorem get_specs_entries_normal {F}
    (st : scrapper F) (pg : page F) (labels values : list string) :
  driver st = Live pg → tab_specs pg = true →
  span_labels pg = Some labels → span_values pg = Some values →
  ∃ st' spec_dict,
    get_specs st = (Return tt, st')
    ∧ specs (product_info st') = Some spec_dict
    ∧ ∀ key value, spec_dict !! key = Some value →
        all_chars key_char key = true ∧ all_chars value_char value = true.
Proof.
  intros Hd Htab Hl Hv.
  destruct (get_specs_run st pg labels values Hd Htab Hl Hv) as (st' & Hrun & Hspecs).
  eexists _, _. split; [exact Hrun|]. split; [exact Hspecs|].
  intros key value Hk.
  destruct (foldl_specs_lookup_origin _ _ _ _ Hk)
    as [Habs|(i & label & v & _ & -> & ->)]; [by rewrite lookup_empty in Habs|].
  split; [apply normalize_label_key|apply normalize_value_alphabet].
Qed.

(** X8 on the sample specs page. *)
Lemma get_specs_entries_normal_witness :
  ∃ st' spec_dict,
    get_specs (loaded specs_page) = (Return tt, st')
    ∧ specs (product_info st') = Some spec_dict
    ∧ ∀ key value, spec_dict !! key = Some value →
        all_chars key_char key = true ∧ all_chars value_char value = true.
Proof.
  exact (get_specs_entries_normal (loaded specs_page) specs_page
           sample_labels sample_values eq_refl eq_refl eq_refl eq_refl).
Defined.

(** X9: when [get_bom] raises, whatever the reason, the record, the log
    and the files are as before the stage. When it returns, it has touched
    neither the files nor any field of the record other than [bom], and it
    has changed the BOM or written to the log, never both. *)
Theorem get_bom_effect {F} (E : env F) (st : scrapper F) :
  match get_bom E st with
  | (Raise _, st') =>
      product_info st' = product_info st ∧ logs st' = logs st
      ∧ files st' = files st
  | (Return _, st') =>
      files st' = files st
      ∧ product_id (product_info st') = product_id (product_info st)
      ∧ name (product_info st') = name (product_info st)
      ∧ description (product_info st') = description (product_info st)
      ∧ specs (product_info st') = specs (product_info st)
      ∧ assets (product_info st') = assets (product_info st)
      ∧ (bom (product_info st') = bom (product_info st) ∨ logs st' = logs st)
  end.
Proof.
  unfold get_bom, try_tab, go_to_tab, current_page, convert_html_table,
    set_info, log.
  run_M. destruct st as [info d l f]; simpl.
  destruct d as [|pg|]; simpl; [done| |done].
  destruct (tab_parts pg); simpl; [|by repeat split; auto].
  destruct (parts_pane pg) as [[[|df others]|]|]; simpl;
    [by repeat split; auto| |done|done].
  destruct (df_empty _); simpl; [by repeat split; auto|].
  destruct (getitem _ _) as [q|]; simpl; [|done].
  destruct (str_split_first q) as [q1|]; simpl; [|done].
  destruct (getitem _ _) as [q2|]; simpl; [|done].
  destruct (astype_float E q2) as [q3|]; simpl; [|done].
  repeat split; auto.
Qed.

(** X10: a parsed table that has rows but no column named quantity, once
    the names are normalized, makes [get_bom] raise [KeyError]; nothing is
    recorded. *)
Theorem get_bom_without_quantity {F} (E : env F) (st : scrapper F) (pg : page F)
    (df : DataFrame F) (others : list (DataFrame F)) :
  driver st = Live pg →
  tab_parts pg = true →
  parts_pane pg = Some (Some (df :: others)) →
  columns df ≠ [] → data df ≠ [] →
  "quantity" ∉ normalize_label <$> columns df →
  get_bom E st = (Raise KeyError, st).
Proof.
  intros Hd Htab Hpane Hcols Hdata Hq.
  unfold get_bom. run_M. rewrite (try_tab_live _ _ pg Hd), Htab.
  unfold current_page. rewrite Hd, Hpane. simpl.
  assert (Hne : df_empty {| columns := normalize_label <$> columns df;
                            data := data df |} = false).
  { unfold df_empty. simpl. apply orb_false_iff.
    split; apply bool_decide_eq_false; [|done].
    by destruct (columns df). }
  rewrite Hne. unfold getitem, column_index. simpl.
  destruct (list_find _ _) as [[i c]|] eqn:Hf; [|done].
  apply list_find_Some in Hf as (Hi & -> & _).
  exfalso. apply Hq. by eapply list_elem_of_lookup_2.
Qed.

(** X10 on a sample table whose quantity column is named Qty. *)
Lemma get_bom_without_quantity_witness :
  get_bom offline_env (loaded qty_page) = (Raise KeyError, loaded qty_page).
Proof.
  apply (get_bom_without_quantity offline_env (loaded qty_page) qty_page qty_table []);
    try reflexivity; try discriminate.
  apply (bool_decide_unpack _). vm_compute. reflexivity.
Defined.

Lemma dom_foldl_insert {F} (kvs : list (string * cell F)) (d : gmap string (cell F)) :
  dom (foldl (λ d kv, <[kv.1 := kv.2]> d) d kvs) = list_to_set kvs.*1 ∪ dom d.
Proof.
  revert d. induction kvs as [|[k v] kvs IH]; intros d; simpl.
  - by rewrite (left_id_L ∅ (∪)).
  - rewrite IH, dom_insert_L.
    by rewrite (assoc_L (∪)), (comm_L (∪) (list_to_set kvs.*1) {[k]}).
Qed.

(** X11: when [get_bom] records a BOM, every record has the normalized
    column names as its keys, and under every name but quantity the cell of
    the table as it was parsed. *)
Theorem get_bom_other_columns {F} (E : env F) (st : scrapper F) (pg : page F)
    (df : DataFrame F) (others : list (DataFrame F)) (i : nat) :
  driver st = Live pg →
  tab_parts pg = true →
  parts_pane pg = Some (Some (df :: others)) →
  data df ≠ [] →
  NoDup (normalize_label <$> columns df) →
  (normalize_label <$> columns df) !! i = Some "quantity" →
  Forall (λ row, length row = length (columns df)) (data df) →
  let cells := (λ row, default CNaN (row !! i)) <$> data df in
  existsb is_str cells = true →
  is_Some (mapM (quantity_value E) cells) →
  ∃ st' records,
    get_bom E st = (Return tt, st')
    ∧ bom (product_info st') = Some records
    ∧ ∀ j row, data df !! j = Some row →
        ∃ r, records !! j = Some r
          ∧ dom r = list_to_set (normalize_label <$> columns df)
          ∧ ∀ k c, (normalize_label <$> columns df) !! k = Some c → k ≠ i →
              r !! c = row !! k.
Proof.
  intros Hd Htab Hpane Hdata Hnd Hi Hw cells Hstr [quantities Hq].
  pose proof (get_bom_run E st pg df others i Hd Htab Hpane Hdata Hnd Hi Hw Hstr)
    as Hrun.
  fold cells in Hrun. rewrite Hq in Hrun.
  eexists _, _. split; [exact Hrun|]. split; [reflexivity|].
  intros j row Hrow.
  assert (Hlen : length quantities = length (data df)).
  { rewrite (mapM_quantity_length E _ _ Hq). unfold cells. by rewrite length_fmap. }
  destruct (lookup_lt_is_Some_2 quantities j) as [q Hqj].
  { rewrite Hlen. by eapply lookup_lt_Some. }
  assert (Hlr : length row = length (normalize_label <$> columns df)).
  { rewrite length_fmap. rewrite Forall_forall in Hw. apply Hw.
    by eapply list_elem_of_lookup_2. }
  eexists. split; [|split].
  - unfold to_dict_records. simpl.
    rewrite list_lookup_fmap, lookup_zip_with, Hrow. simpl. rewrite Hqj. reflexivity.
  - rewrite dom_foldl_insert, dom_empty_L, (right_id_L ∅ (∪)).
    rewrite fst_zip; [done|]. rewrite length_insert. lia.
  - intros k c Hk Hne.
    destruct (lookup_lt_is_Some_2 row k) as [v Hv].
    { rewrite Hlr. by eapply lookup_lt_Some. }
    rewrite Hv. apply (foldl_insert_lookup_nodup _ _ k).
    + rewrite fst_zip; [done|]. rewrite length_insert. lia.
    + rewrite lookup_zip_with, Hk. simpl.
      rewrite list_lookup_insert_ne by done. by rewrite Hv.
Qed.

(** X11 on a sample table. *)
Lemma get_bom_other_columns_witness :
  ∃ st' records,
    get_bom offline_env (loaded (parts_page [CStr "12 EA"; CNaN])) = (Return tt, st')
    ∧ bom (product_info st') = Some records
    ∧ ∀ j row, data (sample_parts [CStr "12 EA"; CNaN]) !! j = Some row →
        ∃ r, records !! j = Some r
          ∧ dom r = list_to_set ["part_number"; "description"; "quantity"]
          ∧ ∀ k c, ["part_number"; "description"; "quantity"] !! k = Some c → k ≠ 2 →
              r !! c = row !! k.
Proof.
  apply (get_bom_other_columns offline_env (loaded (parts_page [CStr "12 EA"; CNaN]))
           (parts_page [CStr "12 EA"; CNaN])
           (sample_parts [CStr "12 EA"; CNaN]) [] 2); try reflexivity.
  - discriminate.
  - apply (bool_decide_unpack _). vm_compute. reflexivity.
  - repeat constructor.
  - by eexists.
Defined.

(** ** Downloads *)

(** X12: [Request.download] touches no file but its destination and leaves
    the record and the browser alone. When the request succeeds the
    destination holds what was fetched, unless the file cannot be opened,
    which raises; a timeout, a connection error or an HTTP error is
    swallowed: two errors are logged, no file is written and the call
    returns; any other exception of the request raises
    [UnboundLocalError]. *)
Theorem download_effect {F} (E : env F) (src_url dst_path : string) (st : scrapper F) :
  let r := (download E src_url dst_path st).1 in
  let st' := (download E src_url dst_path st).2 in
  product_info st' = product_info st
  ∧ driver st' = driver st
  ∧ (∀ path, path ≠ dst_path → files st' !! path = files st !! path)
  ∧ match http_get E src_url with
    | HttpOk =>
        if writable E dst_path
        then r = Return tt ∧ logs st' = logs st
             ∧ files st' !! dst_path = Some (Downloaded src_url)
        else r = Raise OSError ∧ st' = st
    | HttpOtherException => r = Raise UnboundLocalError ∧ st' = st
    | _ =>
        r = Return tt ∧ files st' = files st
        ∧ ∃ msg, logs st'
            = logs st ++ [(ERROR, msg);
                          (ERROR, "Failed to download file from " +:+ src_url)]
    end.
Proof.
  unfold download, get_response, write_file, log. run_M.
  destruct (http_get E src_url); simpl.
  - destruct (writable E dst_path); simpl; repeat split; try done.
    + intros path Hne. by rewrite lookup_insert_ne.
    + by rewrite lookup_insert_eq.
  - repeat split; try done. eexists. by rewrite <- app_assoc.
  - repeat split; try done. eexists. by rewrite <- app_assoc.
  - repeat split; try done. eexists. by rewrite <- app_assoc.
  - by repeat split.
Qed.

(** X13: [download_files] answers the relative path of the file as soon as
    the element is on the page, whether or not the file could be fetched:
    when the request fails by a timeout, a connection error or an HTTP error,
    the path is answered and no file is written. Without the element it
    answers [None] and requests nothing. *)
Theorem download_files_records_path {F} (E : env F)
    (attribute : page F → option string) (out_path : string)
    (st : scrapper F) (pg : page F) :
  driver st = Live pg →
  match attribute pg with
  | None => download_files E attribute out_path st = (Return None, st)
  | Some src_url =>
      classified (http_get E src_url) = true →
      ∃ st',
        download_files E attribute out_path st
        = (Return (Some (relative_path out_path)), st')
        ∧ files st' = files st
        ∧ files st' !! out_path = files st !! out_path
  end.
Proof.
  intros Hd. unfold download_files, current_page. run_M. rewrite Hd.
  destruct (attribute pg) as [src_url|]; [|done].
  intros Hfail. unfold download, get_response, log. run_M.
  destruct (http_get E src_url); try done; simpl; eexists; by repeat split.
Qed.

(** X13 on a page with an image, in a world where the address of the image
    is not found. *)
Lemma download_files_records_path_witness :
  ∃ st',
    download_files nothing_found_env product_image "output/assets/CEM3546/img.jpg"
      (loaded specs_page)
    = (Return (Some "assets/CEM3546/img.jpg"), st')
    ∧ files st' = ∅
    ∧ files st' !! "output/assets/CEM3546/img.jpg" = None.
Proof.
  exact (download_files_records_path nothing_found_env product_image
           "output/assets/CEM3546/img.jpg" (loaded specs_page) specs_page
           eq_refl eq_refl).
Defined.

Lemma starts_with_app (old rest : string) : starts_with old (old +:+ rest) = true.
Proof.
  induction old as [|c old IH]; [done|]. rewrite app_cons. simpl.
  by rewrite decide_True.
Qed.

Lemma replace_from_skip (old new a rest : string) :
  replace_from old new (String.length a) (a +:+ rest) = replace_from old new 0 rest.
Proof.
  induction a as [|x a IH]; [by destruct rest|]. rewrite app_cons. simpl. apply IH.
Qed.

Lemma replace_prefix (old new rest : string) :
  old ≠ EmptyString →
  replace old new (old +:+ rest) = new +:+ replace old new rest.
Proof.
  intros Hne. destruct old as [|c old]; [done|].
  unfold replace. rewrite app_cons. simpl.
  rewrite decide_True by done. rewrite starts_with_app.
  by rewrite Nat.sub_0_r, replace_from_skip.
Qed.

Lemma replace_absent (old new s : string) :
  occurs_in old s = false → replace old new s = s.
Proof.
  unfold replace. induction s as [|c s IH]; [done|].
  intros [Hhere Hrest]%orb_false_iff.
  change (replace_from old new 0 (String c s))
    with (if starts_with old (String c s)
          then new +:+ replace_from old new (String.length old - 1) s
          else String c (replace_from old new 0 s)).
  rewrite Hhere. by rewrite IH.
Qed.

Lemma split_on_absent (sep : ascii) (s : string) :
  occurs sep s = false → split_on sep s = [s].
Proof.
  unfold occurs. rewrite negb_false_iff.
  induction s as [|c s IH]; [done|]. simpl.
  intros [Hc Hs]%andb_true_iff. apply negb_true_iff, bool_decide_eq_false in Hc.
  rewrite decide_False by done. by rewrite IH.
Qed.

Lemma split_on_app (sep : ascii) (a b : string) :
  occurs sep a = false →
  split_on sep (a +:+ String sep b) = a :: split_on sep b.
Proof.
  unfold occurs. rewrite negb_false_iff.
  induction a as [|c a IH].
  - intros _. change (EmptyString +:+ String sep b) with (String sep b).
    simpl. by rewrite decide_True.
  - intros [Hc Ha]%andb_true_iff. apply negb_true_iff, bool_decide_eq_false in Hc.
    change (String c a +:+ String sep b) with (String c (a +:+ String sep b)).
    simpl. rewrite decide_False by done. by rewrite IH.
Qed.

Lemma single_segment_head (s : string) :
  single_segment s → ∃ c r, s = String c r ∧ c ≠ "/"%char.
Proof.
  intros (Hne & _ & Hs). destruct s as [|c r]; [done|]. exists c, r. split; [done|].
  unfold occurs in Hs. simpl in Hs. rewrite negb_false_iff in Hs.
  apply andb_true_iff in Hs as [Hc _].
  by apply negb_true_iff, bool_decide_eq_false in Hc.
Qed.

Lemma path_parts_segment (s : string) : single_segment s → path_parts s = [s].
Proof.
  intros (Hne & Hdot & Hs). unfold path_parts. rewrite split_on_absent by done.
  by rewrite filter_cons_True.
Qed.

(** The segments of a path written from segments are these segments. *)
Lemma path_parts_join (l : list string) :
  Forall single_segment l → path_parts (join "/" l) = l.
Proof.
  induction l as [|x l IH]; [done|]. intros [Hx Hl]%Forall_cons.
  destruct l as [|y l]; [by apply path_parts_segment|].
  change (join "/" (x :: y :: l)) with (x +:+ String "/" (join "/" (y :: l))).
  unfold path_parts in *. destruct Hx as (Hne & Hdot & Hs).
  rewrite split_on_app by done. rewrite filter_cons_True by done.
  f_equal. by apply IH.
Qed.

Lemma path_root_join (l : list string) :
  Forall single_segment l → path_root (join "/" l) = EmptyString.
Proof.
  destruct l as [|x l]; [done|]. intros [Hx _]%Forall_cons.
  destruct (single_segment_head x Hx) as (c & r & -> & Hc).
  assert (∃ t, join "/" (String c r :: l) = String c t) as [t ->].
  { destruct l; [by exists r|]. by eexists. }
  unfold path_root. simpl. by rewrite !decide_False by done.
Qed.

(** A path written from segments, joined with one more segment. *)
Lemma path_join_segments (l : list string) (b : string) :
  Forall single_segment l → single_segment b →
  path_join (join "/" l) b = join "/" (l ++ [b]).
Proof.
  intros Hl Hb. unfold path_join.
  destruct (single_segment_head b Hb) as (c & r & Heq & Hc).
  assert (starts_with "/" b = false) as ->.
  { rewrite Heq. simpl. by rewrite decide_False. }
  rewrite path_root_join, path_parts_join, (path_parts_segment b) by done.
  unfold path_str. by destruct l.
Qed.

(** X14: the path recorded for a file is its path without the leading
    output segment, provided the segment does not occur again further on
    (the code drops every occurrence). For a product whose id is one path
    segment and, followed by a slash, does not spell the segment, the image
    is recorded as assets/<id>/img.jpg; for an empty id or a single dot the
    path has no segment for the product, and the image is recorded as
    assets/img.jpg. *)
Theorem relative_path_strips_output (path prod_id : string) :
  (occurs_in "output/" path = false →
   relative_path ("output/" +:+ path) = path)
  ∧ (single_segment prod_id →
     occurs_in "output/" ("assets/" +:+ prod_id +:+ "/img.jpg") = false →
     relative_path (path_join (path_join output_assets prod_id) "img.jpg")
     = "assets/" +:+ prod_id +:+ "/img.jpg")
  ∧ (prod_id = EmptyString ∨ prod_id = "." →
     relative_path (path_join (path_join output_assets prod_id) "img.jpg")
     = "assets/img.jpg").
Proof.
  assert (Hstrip : ∀ p, occurs_in "output/" p = false →
            relative_path ("output/" +:+ p) = p).
  { intros p Hp. unfold relative_path. rewrite replace_prefix by done.
    by rewrite replace_absent. }
  split; [apply Hstrip|]. split.
  - intros Hseg Hid. rewrite <- (Hstrip _ Hid). f_equal.
    change output_assets with (join "/" ["output"; "assets"]).
    assert (Hword : ∀ w, w = "output" ∨ w = "assets" ∨ w = "img.jpg" → single_segment w).
    { intros w [->|[->| ->]]; by repeat split. }
    assert (Hout : Forall single_segment ["output"; "assets"]).
    { apply Forall_cons_2; [by apply Hword; left|].
      apply Forall_cons_2; [by apply Hword; right; left|]. apply Forall_nil_2. }
    rewrite path_join_segments by done.
    rewrite path_join_segments;
      [|apply Forall_app; split; [done|by apply Forall_singleton]
       |by apply Hword; right; right].
    reflexivity.
  - by intros [-> | ->].
Qed.

(** X14 on a sample id; an id that ends in output loses it; and so does an
    id that pathlib drops. *)
Lemma relative_path_strips_output_witness :
  relative_path (path_join (path_join output_assets "CEM3546") "img.jpg")
  = "assets/CEM3546/img.jpg"
  ∧ relative_path (path_join (path_join output_assets "output") "img.jpg")
    = "assets/img.jpg"
  ∧ relative_path (path_join (path_join output_assets ".") "img.jpg")
    = "assets/img.jpg".
Proof.
  split; [|split; [reflexivity|]].
  - apply (relative_path_strips_output "assets/CEM3546/img.jpg" "CEM3546");
      [by repeat split|reflexivity].
  - apply (relative_path_strips_output EmptyString "."). by right.
Defined.

(** ** CAD files and assets *)

Lemma cad_loop_entries {F} (E : env F) (default_url_download prod_out_path : string)
    (cad_list : list cad_info) (assets_metadata m : gmap string string)
    (st st' : scrapper F) :
  cad_loop E default_url_download prod_out_path cad_list assets_metadata st
    = (Return m, st') →
  m = cad_entries prod_out_path cad_list assets_metadata.
Proof.
  revert assets_metadata st. induction cad_list as [|info cad_list IH];
    intros assets_metadata st; simpl.
  - by intros [= <- _].
  - unfold mbind, M_bind, bind.
    destruct (download E _ _ st) as [[[]|e] st1]; [|done].
    apply IH.
Qed.

(** X15: on a loaded page [download_cad] answers [None] and logs one
    warning when the CAD section is absent or lists nothing; when the
    decoding of the section raises, the exception, whichever it is, leaves
    [download_cad] and nothing has been downloaded or logged; and when it
    returns a mapping, the mapping has, for every descriptor, the relative
    path of the file under the name of the descriptor, a later descriptor of
    the same name replacing an earlier one. *)
Theorem download_cad_result {F} (E : env F)
    (default_url_download prod_out_path : string)
    (st : scrapper F) (pg : page F) :
  driver st = Live pg →
  let warned :=
    {| product_info := product_info st; driver := driver st;
       logs := logs st ++ [(WARNING, fmt (product_id (product_info st))
                                       +:+ ": Product without cad")];
       files := files st |} in
  match cadfiles pg with
  | None | Some (Some []) =>
      download_cad E default_url_download prod_out_path st = (Return None, warned)
  | Some None =>
      download_cad E default_url_download prod_out_path st
      = (Raise (cadfiles_error pg), st)
  | Some (Some cad_list) =>
      ∀ r st',
        download_cad E default_url_download prod_out_path st = (Return r, st') →
        r = Some (cad_entries prod_out_path cad_list ∅)
        ∧ ∀ info, info ∈ cad_list → is_Some (cad_entries prod_out_path cad_list ∅
                                               !! cad_name info)
  end.
Proof.
  intros Hd warned. unfold download_cad, current_page, log. run_M. rewrite Hd.
  destruct (cadfiles pg) as [[[|info cad_list]|]|]; try done.
  intros r st'.
  destruct (cad_loop E default_url_download prod_out_path (info :: cad_list) ∅ st)
    as [[m|e] st1] eqn:Hloop; [|done].
  intros [= <- <-]. apply cad_loop_entries in Hloop as ->. split; [done|].
  intros x Hx. unfold cad_entries.
  generalize (∅ : gmap string string).
  induction (info :: cad_list) as [|y l IH]; intros acc; [by apply elem_of_nil in Hx|].
  simpl. apply elem_of_cons in Hx as [->|Hx]; [|by apply IH].
  clear IH. generalize dependent acc. intros acc.
  assert (Hkeep : ∀ (l : list cad_info) (acc : gmap string string),
            is_Some (acc !! cad_name y) →
            is_Some (foldl (λ acc info,
                       <[cad_name info
                         := relative_path (path_join prod_out_path (cad_value info))]> acc)
                       acc l !! cad_name y)).
  { clear. intros l. induction l as [|z l IH]; intros acc Hacc; [done|].
    simpl. apply IH. destruct (decide (cad_name z = cad_name y)) as [->|Hne].
    - rewrite lookup_insert_eq. by eexists.
    - by rewrite lookup_insert_ne. }
  apply Hkeep. rewrite lookup_insert_eq. by eexists.
Qed.

(** X15 on a page that lists two CAD files. *)
Lemma download_cad_result_witness :
  ∃ r st',
    download_cad cad_env download_base "output/assets/CEM3546" (loaded cad_page)
    = (Return r, st')
    ∧ r = Some (cad_entries "output/assets/CEM3546" sample_cads ∅)
    ∧ ∀ info, info ∈ sample_cads →
        is_Some (cad_entries "output/assets/CEM3546" sample_cads ∅ !! cad_name info).
Proof.
  exists (Some (cad_entries "output/assets/CEM3546" sample_cads ∅)),
    (download_cad cad_env download_base "output/assets/CEM3546" (loaded cad_page)).2.
  split; [reflexivity|].
  apply (download_cad_result cad_env download_base "output/assets/CEM3546"
           (loaded cad_page) cad_page eq_refl _
           (download_cad cad_env download_base "output/assets/CEM3546"
              (loaded cad_page)).2).
  reflexivity.
Defined.

Lemma download_files_returns {F} (E : env F) (attribute : page F → option string)
    (out_path : string) (st st' : scrapper F) (pg : page F) (v : option string) :
  driver st = Live pg →
  download_files E attribute out_path st = (Return v, st') →
  v = (λ _, relative_path out_path) <$> attribute pg
  ∧ driver st' = Live pg ∧ product_info st' = product_info st.
Proof.
  intros Hd. unfold download_files, current_page. run_M. rewrite Hd.
  destruct (attribute pg) as [src_url|]; simpl.
  - pose proof (download_preserves E driver src_url out_path
                  (λ _ _ _, eq_refl) (λ _ _ _, eq_refl) st) as Hdr.
    pose proof (download_preserves E product_info src_url out_path
                  (λ _ _ _, eq_refl) (λ _ _ _, eq_refl) st) as Hin.
    destruct (download E src_url out_path st) as [[[]|e] st1]; [|done].
    intros [= <- <-]. simpl in *. by rewrite Hdr, Hin.
  - by intros [= <- <-].
Qed.

Lemma download_cad_returns {F} (E : env F) (default_url_download prod_out_path : string)
    (st st' : scrapper F) (pg : page F) (r : option (gmap string string)) :
  driver st = Live pg →
  download_cad E default_url_download prod_out_path st = (Return r, st') →
  r = match cadfiles pg with
      | Some (Some (info :: cad_list)) =>
          Some (cad_entries prod_out_path (info :: cad_list) ∅)
      | _ => None
      end
  ∧ product_info st' = product_info st.
Proof.
  intros Hd. unfold download_cad, current_page, log. run_M. rewrite Hd.
  destruct (cadfiles pg) as [[[|info cad_list]|]|]; try done;
    try by intros [= <- <-].
  pose proof (cad_loop_preserves E default_url_download product_info prod_out_path
                (info :: cad_list) ∅ (λ _ _ _, eq_refl) (λ _ _ _, eq_refl) st) as Hin.
  destruct (cad_loop E default_url_download prod_out_path (info :: cad_list) ∅ st)
    as [[m|e] st1] eqn:Hloop; [|done].
  intros [= <- <-]. apply cad_loop_entries in Hloop as ->. by simpl in *.
Qed.

(** X16: when [download_assets] returns on a page with a drawings tab, the
    assets of the record say, for the image and for the manual, the relative
    path of the file when the element is on the page and null otherwise, and
    for the CAD files the mapping of [download_cad]; every other field of
    the record is as it was. *)
Theorem download_assets_records {F} (E : env F) (default_url_download : string)
    (st st' : scrapper F) (pg : page F) (prod_id : string) :
  driver st = Live pg →
  tab_drawings pg = true →
  product_id (product_info st) = Some prod_id →
  download_assets E default_url_download st = (Return tt, st') →
  let prod_out_path := path_join output_assets prod_id in
  product_info st'
  = {| product_id := Some prod_id;
       name := name (product_info st);
       description := description (product_info st);
       specs := specs (product_info st);
       bom := bom (product_info st);
       assets := Some
         {| image := (λ _, relative_path (path_join prod_out_path "img.jpg"))
                       <$> product_image pg;
            manual := (λ _, relative_path (path_join prod_out_path "manual.pdf"))
                        <$> info_packet pg;
            cad := match cadfiles pg with
                   | Some (Some (info :: cad_list)) =>
                       Some (cad_entries prod_out_path (info :: cad_list) ∅)
                   | _ => None
                   end |} |}.
Proof.
  intros Hd Htab Hid. unfold download_assets.
  unfold mbind at 1, M_bind, bind at 1. rewrite (try_tab_live _ _ pg Hd), Htab.
  unfold mbind at 1, M_bind, bind at 1, get_state. rewrite Hid.
  unfold mbind, M_bind, bind.
  destruct (download_files E product_image _ st) as [[img|e] st1] eqn:H1; [|done].
  apply (download_files_returns E _ _ _ _ pg _ Hd) in H1 as (-> & Hd1 & Hi1).
  destruct (download_files E info_packet _ st1) as [[pdf|e] st2] eqn:H2; [|done].
  apply (download_files_returns E _ _ _ _ pg _ Hd1) in H2 as (-> & Hd2 & Hi2).
  destruct (download_cad E default_url_download _ st2) as [[cads|e] st3] eqn:H3; [|done].
  apply (download_cad_returns E _ _ _ _ pg _ Hd2) in H3 as (-> & Hi3).
  unfold set_info. intros [= <-]. simpl.
  by rewrite Hi3, Hi2, Hi1, Hid.
Qed.

(** X16 on the page with two CAD files and no manual. *)
Lemma download_assets_records_witness :
  assets (product_info (download_assets cad_env download_base
                          (titled (loaded cad_page) "CEM3546")).2)
  = Some {| image := Some "assets/CEM3546/img.jpg";
            manual := None;
            cad := Some (cad_entries "output/assets/CEM3546" sample_cads ∅) |}.
Proof.
  rewrite (download_assets_records cad_env download_base
             (titled (loaded cad_page) "CEM3546")
             (download_assets cad_env download_base
                (titled (loaded cad_page) "CEM3546")).2
             cad_page "CEM3546" eq_refl eq_refl eq_refl).
  - reflexivity.
  - vm_compute. reflexivity.
Defined.

(** ** The run and the loop of [main] *)

(** X17: when the probe answers but the page fails to load, the exception
    leaves [run_scrapping]: the failure is not logged, nothing is written and
    the record is untouched; the browser, when it had started, stays assigned
    to the connection and is not quit; and the loop of [main] stops there,
    the following addresses being left unvisited. *)
Theorem run_scrapping_load_failure {F} (E : env F) (default_url_download : string)
    (product_url : string) (products_list : list string) (st : scrapper F) :
  http_get E product_url = HttpOk →
  render E product_url = None →
  run_scrapping E default_url_download product_url st
    = (Raise WebDriverException, load_failed E product_url (announced st product_url))
  ∧ main_loop E default_url_download (product_url :: products_list) st
    = (Raise WebDriverException,
       load_failed E product_url (announced (instantiated st) product_url))
  ∧ driver (load_failed E product_url (announced (instantiated st) product_url))
    ≠ Closed.
Proof.
  intros Hok Hrender. rewrite main_loop_step, !(run_scrapping_probe_ok _ _ _ _ Hok).
  unfold run_pipe, load_page, load_failed, set_driver. run_M. rewrite Hrender.
  by destruct (stalled E product_url).
Qed.

(** X17 in the world where no page can be loaded: the browser is left on
    its blank page. *)
Lemma run_scrapping_load_failure_witness :
  run_scrapping offline_env download_base sample_url new_scrapper
    = (Raise WebDriverException,
       {| product_info := empty_schema; driver := Live blank_page;
          logs := [(INFO, "Scrapping: " +:+ sample_url)]; files := ∅ |})
  ∧ main_loop offline_env download_base [sample_url; other_url] new_scrapper
    = (Raise WebDriverException,
       {| product_info := empty_schema; driver := Live blank_page;
          logs := [(INFO, "Scrapping: " +:+ sample_url)]; files := ∅ |}).
Proof.
  destruct (run_scrapping_load_failure offline_env download_base sample_url
              [other_url] new_scrapper eq_refl eq_refl) as (Hrun & Hloop & _).
  split; [exact Hrun|exact Hloop].
Defined.

(** X18: the loop over a list of addresses followed by another is the loop
    over the first list and then, when it has returned, the loop over the
    second, from the state reached; an exception in the first list ends the
    whole. *)
Theorem main_loop_app {F} (E : env F) (default_url_download : string)
    (first_list second_list : list string) (st : scrapper F) :
  main_loop E default_url_download (first_list ++ second_list) st
  = match main_loop E default_url_download first_list st with
    | (Return _, st') => main_loop E default_url_download second_list st'
    | (Raise e, st') => (Raise e, st')
    end.
Proof.
  revert st. induction first_list as [|url first_list IH]; intros st; [done|].
  rewrite <- app_comm_cons, !main_loop_step.
  destruct (run_scrapping E default_url_download url (instantiated st))
    as [[[]|e] st1]; [apply IH|done].
Qed.

(** X19: a run in which every probe fails by a timeout, a connection error
    or an HTTP error comes to its end: it returns, has written no file, and
    has logged two entries for each address. *)
Theorem main_loop_all_probes_fail {F} (E : env F) (default_url_download : string)
    (products_list : list string) (st : scrapper F) :
  Forall (λ url, classified (http_get E url) = true) products_list →
  ∃ st',
    main_loop E default_url_download products_list st = (Return tt, st')
    ∧ files st' = files st
    ∧ length (logs st') = length (logs st) + 2 * length products_list.
Proof.
  intros Hall. revert st.
  induction Hall as [|url products_list Hurl Hall IH]; intros st.
  { exists st. split; [done|]. split; [done|simpl; lia]. }
  assert (Hin : http_get E url ∈ [HttpTimeout; HttpConnectionError; HttpError]).
  { destruct (http_get E url); try done; rewrite !elem_of_cons; auto. }
  destruct (run_scrapping_probe_failure_skips E default_url_download url
              products_list st Hin) as (msg & _ & Hloop).
  rewrite Hloop. clear Hloop.
  match goal with |- context [main_loop _ _ _ ?s] => destruct (IH s) as (st' & Hrun & Hf & Hl) end.
  exists st'. split; [exact Hrun|]. split; [by rewrite Hf|].
  rewrite Hl. simpl. rewrite length_app. simpl. lia.
Qed.

(** X19 in a world where no address is found. *)
Lemma main_loop_all_probes_fail_witness :
  ∃ st',
    main_loop nothing_found_env download_base [sample_url; other_url] new_scrapper
    = (Return tt, st')
    ∧ files st' = ∅
    ∧ length (logs st') = 4.
Proof.
  apply (main_loop_all_probes_fail nothing_found_env download_base
           [sample_url; other_url] new_scrapper).
  by repeat constructor.
Defined.

Lemma bind_return {F A B} (m : M F A) (k : A → M F B) (st st1 : scrapper F) (a : A) :
  m st = (Return a, st1) → (m ≫= k) st = k a st1.
Proof. intros H. unfold mbind, M_bind, bind. by rewrite H. Qed.

Lemma bind_raise {F A B} (m : M F A) (k : A → M F B) (st st1 : scrapper F) (e : exn) :
  m st = (Raise e, st1) → (m ≫= k) st = (Raise e, st1).
Proof. intros H. unfold mbind, M_bind, bind. by rewrite H. Qed.

Lemma get_bom_no_tab {F} (E : env F) (st : scrapper F) (pg : page F) :
  driver st = Live pg → tab_parts pg = false → get_bom E st = (Return tt, st).
Proof.
  intros Hd Htab. unfold get_bom. run_M. by rewrite (try_tab_live _ _ pg Hd), Htab.
Qed.

Lemma get_specs_no_tab {F} (st : scrapper F) (pg : page F) :
  driver st = Live pg → tab_specs pg = false → get_specs st = (Return tt, st).
Proof.
  intros Hd Htab. unfold get_specs. run_M. by rewrite (try_tab_live _ _ pg Hd), Htab.
Qed.

(** X20: on a page that has neither specs tab nor parts tab, a run that
    returns has persisted, under the name of the title, a record whose id and
    description are those of the page and whose name, specs and BOM are as the
    scrapper had them at the start (null for a new scrapper); the browser has
    quit. *)
Theorem run_scrapping_without_specs_and_parts {F} (E : env F)
    (default_url_download product_url : string) (st st' : scrapper F) (pg : page F) :
  http_get E product_url = HttpOk →
  render E product_url = Some pg →
  tab_specs pg = false →
  tab_parts pg = false →
  run_scrapping E default_url_download product_url st = (Return tt, st') →
  product_id (product_info st') = page_title pg
  ∧ description (product_info st') = product_description pg
  ∧ name (product_info st') = name (product_info st)
  ∧ specs (product_info st') = specs (product_info st)
  ∧ bom (product_info st') = bom (product_info st)
  ∧ driver st' = Closed
  ∧ (json_dump E (metadata_path (page_title pg)) (product_info st') = DumpOk →
     files st' !! metadata_path (page_title pg) = Some (JsonDoc (product_info st'))).
Proof.
  intros Hok Hrender Hspecs Hparts.
  rewrite (run_scrapping_probe_ok _ _ _ _ Hok).
  set (st1 := {| product_info :=
                   {| product_id := page_title pg; name := name (product_info st);
                      description := product_description pg;
                      specs := specs (product_info st); bom := bom (product_info st);
                      assets := assets (product_info st) |};
                 driver := Live pg;
                 logs := logs (announced st product_url);
                 files := files (announced st product_url) |}).
  assert (Hpipe : run_pipe E default_url_download product_url (announced st product_url)
    = (download_assets E default_url_download;; close) st1).
  { unfold run_pipe.
    erewrite (bind_return (load_page E product_url));
      [|unfold load_page; rewrite Hrender; reflexivity].
    erewrite (bind_return get_head); [|reflexivity].
    erewrite (bind_return get_specs);
      [|by apply (get_specs_no_tab _ pg)].
    erewrite (bind_return (get_bom E)); [|by apply (get_bom_no_tab E _ pg)].
    reflexivity. }
  pose proof (download_assets_preserves E default_url_download
    (λ s, (product_id (product_info s), description (product_info s),
           name (product_info s), specs (product_info s), bom (product_info s),
           driver s))
    (λ _ _ _, eq_refl) (λ _ _ _, eq_refl) (λ _ _ _ _, eq_refl) st1) as Hkeep.
  destruct (download_assets E default_url_download st1) as [[[]|e] st2] eqn:H4.
  - simpl in Hkeep. injection Hkeep as Hid Hdesc Hname Hsp Hbom Hdr.
    erewrite (bind_return (run_pipe E default_url_download product_url)) by
      (rewrite Hpipe; erewrite (bind_return (download_assets E default_url_download))
         by exact H4; unfold close, get_state, set_driver; run_M; rewrite Hdr;
       reflexivity).
    destruct (saving_run E (quitted st2)) as (st3 & Hs & Hd3 & Hi3 & _ & Hdump).
    change {| product_info := product_info st2; driver := Closed;
              logs := logs st2; files := files st2 |} with (quitted st2).
    rewrite Hs. intros [= <-]. rewrite !Hi3, Hd3. simpl.
    repeat (split; [done|]).
    simpl in Hdump. rewrite Hid in Hdump. intros Hdok. rewrite Hdok in Hdump.
    apply Hdump.
  - erewrite (bind_raise (run_pipe E default_url_download product_url)); [done|].
    rewrite Hpipe. by erewrite (bind_raise (download_assets E default_url_download)).
Qed.

(** X20 on the sample page without any tab, from a new scrapper. *)
Lemma run_scrapping_without_specs_and_parts_witness :
  let st' := (run_scrapping untitled_env download_base sample_url new_scrapper).2 in
  product_id (product_info st') = None
  ∧ description (product_info st') = Some "General purpose motor"
  ∧ name (product_info st') = None
  ∧ specs (product_info st') = None
  ∧ bom (product_info st') = None
  ∧ driver st' = Closed
  ∧ (DumpOk = DumpOk →
     files st' !! metadata_path None = Some (JsonDoc (product_info st'))).
Proof.
  apply (run_scrapping_without_specs_and_parts untitled_env download_base sample_url
           new_scrapper _ untitled_page); reflexivity.
Defined.

(** ** Escaped addresses *)

Lemma all_chars_chars_of (p : ascii → bool) (s : string) :
  all_chars p s = true ↔ ∀ a, a ∈ chars_of s → p a = true.
Proof.
  induction s as [|c s IH]; simpl.
  - split; [|done]. intros _ a Ha. by apply elem_of_nil in Ha.
  - rewrite andb_true_iff, IH. split.
    + intros [Hc Hs] a [->|Ha]%elem_of_cons; auto.
    + intros H. split; [apply H; by left|]. intros a Ha. apply H. by right.
Qed.

Lemma chars_of_app (a b : string) : chars_of (a +:+ b) = chars_of a ++ chars_of b.
Proof. induction a as [|c a IH]; [done|]. rewrite app_cons. simpl. by rewrite IH. Qed.

Lemma chars_of_re_sub_char (c a : ascii) (repl s : string) :
  a ∈ chars_of (re_sub_char c repl s) →
  (a ∈ chars_of s ∧ a ≠ c) ∨ a ∈ chars_of repl.
Proof.
  induction s as [|x s IH]; simpl; [intros Ha; by apply elem_of_nil in Ha|].
  destruct (decide (x = c)) as [->|Hne].
  - rewrite chars_of_app, elem_of_app. intros [Ha|Ha]; [by right|].
    destruct (IH Ha) as [[Hs Hac]|Hr]; [left|by right].
    split; [by right|done].
  - simpl. intros [->|Ha]%elem_of_cons.
    + left. split; [by left|done].
    + destruct (IH Ha) as [[Hs Hac]|Hr]; [left|by right].
      split; [by right|done].
Qed.

Lemma escape_url_safe_from (rest : list ascii) (s : string) :
  (∀ a, a ∈ chars_of s → safe_char a = true ∨ a ∈ rest) →
  all_chars safe_char (escape_url rest s) = true.
Proof.
  revert s. induction rest as [|c rest IH]; intros s Hs.
  - apply all_chars_chars_of. intros a Ha.
    destruct (Hs a Ha) as [?|Habs]; [done|by apply elem_of_nil in Habs].
  - unfold escape_url in *. simpl. apply IH. intros a Ha.
    apply chars_of_re_sub_char in Ha as [[Ha Hac]|Ha].
    + destruct (Hs a Ha) as [?|[->|?]%elem_of_cons]; auto.
    + left. by apply (proj1 (all_chars_chars_of _ _) (hex_ascii_chars c)).
Qed.

(** X21: whatever the order in which the set of characters is met, the
    escaped address holds letters, digits, underscores and percent signs
    only. *)
Theorem escape_url_safe (url_string : string) (order : list ascii) :
  iteration_of (non_words_char url_string) order →
  all_chars safe_char (escape_url order url_string) = true.
Proof.
  intros [_ Hiter]. apply escape_url_safe_from. intros a Ha.
  destruct (is_word a) eqn:Hw.
  - left. unfold safe_char. by rewrite Hw.
  - right. apply Hiter, elem_of_non_words_char. by split.
Qed.

Lemma sample_iteration :
  iteration_of (non_words_char "a%20b#c") [hash_char; percent_char].
Proof.
  split.
  - apply NoDup_cons. split; [|apply NoDup_singleton].
    intros H%list_elem_of_singleton. discriminate.
  - intros c. rewrite elem_of_non_words_char.
    change (chars_of "a%20b#c")
      with (chr 97 :: percent_char :: chr 50 :: chr 48 :: chr 98
              :: hash_char :: chr 99 :: []).
    rewrite !elem_of_cons, elem_of_nil. split.
    + intros [->|[->|[]]]; split; auto 10.
    + intros [[->|[->|[->|[->|[->|[->|[->|[]]]]]]]] Hw]; auto; discriminate.
Qed.

(** X21 on the address that the loop escapes twice. *)
Lemma escape_url_safe_witness :
  all_chars safe_char (escape_url [hash_char; percent_char] "a%20b#c") = true.
Proof. exact (escape_url_safe "a%20b#c" [hash_char; percent_char] sample_iteration). Defined.

Lemma unhex_hex2 (c : ascii) : unhex ("%" +:+ hex2 c) = Some c.
Proof. destruct c as [[] [] [] [] [] [] [] []]; vm_compute; reflexivity. Qed.

Lemma percent_decode_encode (s : string) : percent_decode (percent_encode s) = s.
Proof.
  unfold percent_decode. induction s as [|c s IH]; [done|]. simpl.
  destruct (is_word c) eqn:Hw.
  - assert (Hc : c ≠ percent_char) by (by intros ->).
    assert (Hnone : escaped_at (String c (percent_encode s)) = None).
    { unfold escaped_at, unhex. destruct (percent_encode s) as [|h1 [|h2 r]]; [done..|].
      by rewrite decide_False. }
    change (percent_decode_from 0 (String c (percent_encode s)))
      with (match escaped_at (String c (percent_encode s)) with
            | Some x => String x (percent_decode_from 2 (percent_encode s))
            | None => String c (percent_decode_from 0 (percent_encode s))
            end).
    by rewrite Hnone, IH.
  - pose proof (unhex_hex2 c) as Hu. unfold hex2 in *.
    rewrite !app_cons, app_empty_l in *.
    change (percent_decode_from 0 (String "%" (String ?h1 (String ?h2 ?r))))
      with (match unhex (String "%" (String h1 (String h2 EmptyString))) with
            | Some x => String x (percent_decode_from 0 r)
            | None => String "%" (percent_decode_from 0 (String h1 (String h2 r)))
            end).
    by rewrite Hu, app_empty_l, IH.
Qed.

(** X22: for an address in which every character to escape has a code
    from 16 to 255, when the percent sign is the first character that the
    loop meets, or is not met at all, the escaped address is the
    percent-encoding of the raw one, and decoding it gives the raw address
    back. (From code 256 on the percent form has more than two digits and
    does not decode.) *)
Theorem escape_url_round_trip (url_string : string) (order : list ascii) :
  iteration_of (non_words_char url_string) order →
  percent_char ∉ tail order →
  all_chars (λ c, is_word c || ((16 <=? ord c) && (ord c <? 256))%N) url_string
  = true →
  escape_url order url_string = percent_encode url_string
  ∧ percent_decode (escape_url order url_string) = url_string.
Proof.
  intros Hiter Hpc Hcodes.
  rewrite (escape_url_percent_encode _ _ Hiter Hpc).
  - split; [done|apply percent_decode_encode].
  - revert Hcodes. apply all_chars_impl. intros c.
    destruct (is_word c); [done|]. simpl. by intros [? _]%andb_true_iff.
Qed.

(** X22 on the sample address, the percent sign met first. *)
Lemma escape_url_round_trip_witness :
  escape_url [percent_char; hash_char] "a%20b#c" = "a%2520b%23c"
  ∧ percent_decode (escape_url [percent_char; hash_char] "a%20b#c") = "a%20b#c".
Proof.
  apply (escape_url_round_trip "a%20b#c" [percent_char; hash_char]).
  - destruct sample_iteration as [Hnd Hin]. split.
    + apply NoDup_cons. split; [|apply NoDup_singleton].
      intros H%list_elem_of_singleton. discriminate.
    + intros c. rewrite <- Hin, !elem_of_cons. tauto.
  - simpl. intros H%list_elem_of_singleton. discriminate.
  - reflexivity.
Defined.

(** X23: the percent form of a character reads back as the character, for
    every character; so two characters never share a percent form, whether
    it has one digit or two. *)
Theorem hex_ascii_unhex (c c' : ascii) :
  unhex (hex_ascii c) = Some c
  ∧ (hex_ascii c = hex_ascii c' → c = c').
Proof.
  assert (Hu : ∀ x, unhex (hex_ascii x) = Some x).
  { intros x. destruct x as [[] [] [] [] [] [] [] []]; vm_compute; reflexivity. }
  split; [apply Hu|]. intros Heq.
  pose proof (Hu c) as H1. rewrite Heq, Hu in H1. by injection H1.
Qed.

(** ** Scraping an address again *)

Section Again.

Context {F : Type} (clean : page F → Prop).

#[local] Abbreviation M := (M F).

Lemma apply_writes_absent (writes : list (string * file F))
    (fs : gmap string (file F)) (k : string) :
  k ∉ writes.*1 → apply_writes writes fs !! k = fs !! k.
Proof.
  revert fs. induction writes as [|[p x] writes IH]; intros fs Hk; [done|].
  rewrite fmap_cons, not_elem_of_cons in Hk. destruct Hk as [Hne Hk].
  unfold apply_writes in *. simpl. rewrite IH by done. by rewrite lookup_insert_ne.
Qed.

Lemma apply_writes_present (writes : list (string * file F))
    (fs gs : gmap string (file F)) (k : string) :
  k ∈ writes.*1 → apply_writes writes fs !! k = apply_writes writes gs !! k.
Proof.
  revert fs gs. induction writes as [|[p x] writes IH]; intros fs gs Hk.
  { by apply elem_of_nil in Hk. }
  unfold apply_writes in *. simpl.
  destruct (decide (k ∈ writes.*1)) as [Hin|Hout]; [by apply IH|].
  rewrite fmap_cons in Hk. apply elem_of_cons in Hk as [->|Hk]; [|done].
  pose proof (apply_writes_absent writes (<[p:=x]> fs) p Hout) as H1.
  pose proof (apply_writes_absent writes (<[p:=x]> gs) p Hout) as H2.
  unfold apply_writes in H1, H2. simpl in *. rewrite H1, H2.
  by rewrite !lookup_insert_eq.
Qed.

Lemma apply_writes_twice (writes : list (string * file F)) (fs : gmap string (file F)) :
  apply_writes writes (apply_writes writes fs) = apply_writes writes fs.
Proof.
  apply map_eq. intros k. destruct (decide (k ∈ writes.*1)) as [Hin|Hout].
  - by apply apply_writes_present.
  - by rewrite !apply_writes_absent.
Qed.

Lemma apply_writes_app (w1 w2 : list (string * file F)) (fs : gmap string (file F)) :
  apply_writes (w1 ++ w2) fs = apply_writes w2 (apply_writes w1 fs).
Proof. unfold apply_writes. by rewrite foldl_app. Qed.

Lemma related_leaf {A} (m : M A) (writes : list (string * file F)) :
  (∀ s t, same_object clean s t →
     (m s).1 = (m t).1 ∧ same_object clean (m s).2 (m t).2
     ∧ files (m s).2 = apply_writes writes (files s)
     ∧ files (m t).2 = apply_writes writes (files t)) →
  related clean m m.
Proof. intros H s t Hst. exists writes. by apply H. Qed.

Lemma related_bind {A B} (m1 m2 : M A) (k1 k2 : A → M B) :
  related clean m1 m2 → (∀ a, related clean (k1 a) (k2 a)) →
  related clean (m1 ≫= k1) (m2 ≫= k2).
Proof.
  intros Hm Hk s t Hst. unfold mbind, M_bind, bind.
  destruct (Hm s t Hst) as (w1 & Hr & Hso & Hf1 & Hf2).
  destruct (m1 s) as [[a|e] s1], (m2 t) as [[a'|e'] t1]; simpl in *; try done.
  - injection Hr as <-.
    destruct (Hk a s1 t1 Hso) as (w2 & Hr2 & Hso2 & Hg1 & Hg2).
    exists (w1 ++ w2). rewrite !apply_writes_app, <- Hf1, <- Hf2. by split_and!.
  - injection Hr as <-. exists w1. by split_and!.
Qed.

Lemma related_get_state {B} (k1 k2 : scrapper F → M B) :
  (∀ s0 t0, same_object clean s0 t0 → related clean (k1 s0) (k2 t0)) →
  related clean (get_state ≫= k1) (get_state ≫= k2).
Proof. intros Hk s t Hst. by apply (Hk s t Hst s t Hst). Qed.

Lemma related_except {A} (m h : M A) :
  related clean m m → related clean h h →
  related clean (except_ValueError m h) (except_ValueError m h).
Proof.
  intros Hm Hh s t Hst. unfold except_ValueError.
  destruct (Hm s t Hst) as (w1 & Hr & Hso & Hf1 & Hf2).
  destruct (m s) as [[a|e] s1], (m t) as [[a'|e'] t1]; simpl in *; try done.
  - exists w1. by split_and!.
  - injection Hr as <-. destruct e; try (exists w1; by split_and!).
    destruct (Hh s1 t1 Hso) as (w2 & Hr2 & Hso2 & Hg1 & Hg2).
    exists (w1 ++ w2). rewrite !apply_writes_app, <- Hf1, <- Hf2. by split_and!.
Qed.

Lemma related_pure {A} (m : M A) :
  (∀ s t, same_object clean s t →
     (m s).1 = (m t).1 ∧ same_object clean (m s).2 (m t).2
     ∧ files (m s).2 = files s ∧ files (m t).2 = files t) →
  related clean m m.
Proof. intros H. by apply (related_leaf m []). Qed.

(** What follows the read of the page can rely on the page being clean. *)
Lemma related_page {B} (k1 k2 : page F → M B) :
  (∀ pg, clean pg → related clean (k1 pg) (k2 pg)) →
  related clean (current_page ≫= k1) (current_page ≫= k2).
Proof.
  intros Hk s t Hst. pose proof Hst as (Hi & Hd & Hc).
  unfold mbind, M_bind, bind, current_page. rewrite Hd.
  destruct (driver t) as [|pg|] eqn:Hdt; simpl.
  - by exists [].
  - by apply (Hk pg (Hc pg eq_refl) s t).
  - by exists [].
Qed.

Lemma related_log (l : level) (msg : string) :
  related clean (log (F:=F) l msg) (log l msg).
Proof. apply related_pure. intros s t (Hi & Hd & Hc). by unfold same_object. Qed.

Lemma related_ret {A} (a : A) : related clean (mret (M:=M) a) (mret a).
Proof. apply related_pure. intros s t (Hi & Hd & Hc). by unfold same_object. Qed.

Lemma related_raise {A} (e : exn) : related clean (raise (F:=F) (A:=A) e) (raise e).
Proof. apply related_pure. intros s t (Hi & Hd & Hc). by unfold same_object. Qed.

Lemma related_lift {A} (o : outcome A) : related clean (lift (F:=F) o) (lift o).
Proof. destruct o; [apply related_ret|apply related_raise]. Qed.

Lemma related_set_info (f : JsonSchema F → JsonSchema F) :
  related clean (set_info f) (set_info f).
Proof.
  apply related_pure. intros s t (Hi & Hd & Hc). unfold set_info, same_object. simpl.
  by rewrite Hi, Hd.
Qed.

Lemma related_set_driver (d : session F) :
  (∀ pg, d = Live pg → clean pg) → related clean (set_driver d) (set_driver d).
Proof.
  intros Hclean. apply related_pure. intros s t (Hi & Hd & Hc). by unfold same_object.
Qed.

Lemma related_write_file (path : string) (f : file F) :
  related clean (write_file path f) (write_file path f).
Proof.
  apply (related_leaf _ [(path, f)]). intros s t (Hi & Hd & Hc). by unfold same_object.
Qed.

End Again.

(** Goes through a computation, leaf by leaf, for [related]. *)
Ltac rel_state :=
  let s0 := fresh "s" in
  let t0 := fresh "t" in
  let Hi := fresh "Hi" in
  let Hd := fresh "Hd" in
  let Hc := fresh "Hc" in
  apply related_get_state; intros s0 t0 (Hi & Hd & Hc); cbv beta zeta;
  rewrite ?Hi, ?Hd; clear Hi Hd Hc.

Ltac rel :=
  repeat match goal with
    | |- related _ (get_state ≫= _) (get_state ≫= _) => rel_state
    | |- related _ (current_page ≫= _) (current_page ≫= _) =>
        apply related_page; intros ? ?
    | |- related _ (_ ≫= _) (_ ≫= _) => apply related_bind; [|intros ?]
    | |- related _ (except_ValueError _ _) _ => apply related_except
    | |- related _ (log _ _) _ => apply related_log
    | |- related _ (mret _) _ => apply related_ret
    | |- related _ (raise _) _ => apply related_raise
    | |- related _ (lift _) _ => apply related_lift
    | |- related _ (set_info _) _ => apply related_set_info
    | |- related _ (write_file _ _) _ => apply related_write_file
    | |- related _ (match ?x with _ => _ end) (match ?x with _ => _ end) =>
        destruct x
    end.

Section AgainStages.

Context {F : Type} (clean : page F → Prop).
Context (E : env F) (default_url_download : string).

Lemma related_try_tab (tab : page F → bool) :
  related clean (try_tab tab) (try_tab tab).
Proof. unfold try_tab, go_to_tab. rel. Qed.

Lemma related_get_response (src_url : string) :
  related clean (get_response E src_url) (get_response E src_url).
Proof. unfold get_response. destruct (http_get E src_url); rel. Qed.

Lemma related_download (src_url dst_path : string) :
  related clean (download E src_url dst_path) (download E src_url dst_path).
Proof. unfold download. rel; apply related_get_response. Qed.

Lemma related_get_head : related clean (get_head (F:=F)) get_head.
Proof. unfold get_head. rel. Qed.

Lemma related_get_specs : related clean (get_specs (F:=F)) get_specs.
Proof. unfold get_specs. rel; apply related_try_tab. Qed.

Lemma related_get_bom : related clean (get_bom E) (get_bom E).
Proof. unfold get_bom, convert_html_table. rel; apply related_try_tab. Qed.

Lemma related_download_files (attribute : page F → option string) (out_path : string) :
  related clean (download_files E attribute out_path)
    (download_files E attribute out_path).
Proof. unfold download_files. rel; apply related_download. Qed.

Lemma related_cad_loop (prod_out_path : string) (cad_list : list cad_info)
    (assets_metadata : gmap string string) :
  related clean
    (cad_loop E default_url_download prod_out_path cad_list assets_metadata)
    (cad_loop E default_url_download prod_out_path cad_list assets_metadata).
Proof.
  revert assets_metadata. induction cad_list as [|info cad_list IH];
    intros assets_metadata; simpl; [apply related_ret|].
  apply related_bind; [apply related_download|]. intros _. apply IH.
Qed.

Lemma related_load_page (url : string) :
  (∀ pg, render E url = Some pg → clean pg) →
  (∀ pg, stalled E url = Some pg → clean pg) →
  related clean (load_page E url) (load_page E url).
Proof.
  intros Hrender Hstalled. unfold load_page.
  destruct (render E url) as [pg|].
  - apply related_set_driver. intros ? [= <-]. by apply Hrender.
  - destruct (stalled E url) as [pg|]; [|apply related_raise].
    apply related_bind; [|intros _; apply related_raise].
    apply related_set_driver. intros ? [= <-]. by apply Hstalled.
Qed.

Lemma related_close : related clean (close (F:=F)) close.
Proof.
  unfold close. apply related_get_state; intros s0 t0 (Hi & Hd & Hc); rewrite Hd.
  destruct (driver t0); rel; by apply related_set_driver.
Qed.

Lemma related_saving : related clean (saving E) (saving E).
Proof.
  unfold saving. apply related_get_state; intros s0 t0 (Hi & Hd & Hc); rewrite Hi.
  unfold json_write. apply related_bind; [|intros ?; apply related_log].
  destruct (json_dump E _ _); rel.
Qed.

End AgainStages.

Lemma encode_in_ext (P P' : list ascii) (s : string) :
  (∀ c, c ∈ P ↔ c ∈ P') → encode_in P s = encode_in P' s.
Proof.
  intros H. induction s as [|a s IH]; [done|]. simpl. rewrite IH.
  destruct (decide (a ∈ P)) as [Ha|Ha].
  - by rewrite decide_True by by apply H.
  - rewrite decide_False; [done|]. intros Ha'. by apply Ha, H.
Qed.

(** An address without percent sign is escaped in the same way whatever the
    order in which the set of its characters is iterated. *)
Lemma escape_url_orders (url_string : string) (order order' : list ascii) :
  iteration_of (non_words_char url_string) order →
  iteration_of (non_words_char url_string) order' →
  occurs percent_char url_string = false →
  escape_url order url_string = escape_url order' url_string.
Proof.
  intros Ho Ho' Hplain.
  assert (Hfrom : ∀ o, iteration_of (non_words_char url_string) o →
            escape_url o url_string = encode_in o url_string).
  { intros o [Hnd Hiter].
    rewrite <- (encode_in_nil url_string) at 1.
    apply (escape_url_from o [] url_string); simpl; [done| |].
    - apply Forall_forall. intros c Hc.
      apply Hiter, elem_of_non_words_char in Hc. apply Hc.
    - intros Hin.
      assert (Hmem : percent_char ∈ o) by (destruct o; [done|by right]).
      apply Hiter, elem_of_non_words_char in Hmem as [Hmem _].
      unfold occurs in Hplain. rewrite negb_false_iff, all_chars_chars_of in Hplain.
      specialize (Hplain _ Hmem). by rewrite bool_decide_eq_true_2 in Hplain. }
  rewrite (Hfrom _ Ho), (Hfrom _ Ho'). apply encode_in_ext.
  intros c. destruct Ho as [_ Ho], Ho' as [_ Ho']. by rewrite Ho, Ho'.
Qed.

Section AgainOrders.

Context {F : Type} (E : env F) (default_url_download : string).
Context (order1 order2 : gset ascii → list ascii).
Hypothesis Horder1 : iteration_order order1.
Hypothesis Horder2 : iteration_order order2.

Lemma cad_loop_with_order (prod_out_path : string) (cad_list : list cad_info)
    (assets_metadata : gmap string string) :
  (∀ info, info ∈ cad_list → occurs percent_char (cad_url info) = false) →
  cad_loop (with_order E order1) default_url_download prod_out_path cad_list
    assets_metadata
  = cad_loop (with_order E order2) default_url_download prod_out_path cad_list
      assets_metadata.
Proof.
  revert assets_metadata. induction cad_list as [|info cad_list IH];
    intros assets_metadata Hplain; [done|].
  simpl. rewrite IH by (intros ? ?; apply Hplain; by right).
  rewrite (escape_url_orders (cad_url info) _ _ (Horder1 _) (Horder2 _))
    by (apply Hplain; by left).
  reflexivity.
Qed.

Lemma related_download_cad (prod_out_path : string) :
  related plain_cad_urls
    (download_cad (with_order E order1) default_url_download prod_out_path)
    (download_cad (with_order E order2) default_url_download prod_out_path).
Proof.
  unfold download_cad. apply related_page. intros pg Hpg.
  destruct (cadfiles pg) as [[[|info cad_list]|]|] eqn:Hcad; rel.
  rewrite (cad_loop_with_order prod_out_path (info :: cad_list) ∅)
    by (intros ? ?; by eapply Hpg).
  apply related_cad_loop.
Qed.

Lemma related_download_assets :
  related plain_cad_urls
    (download_assets (with_order E order1) default_url_download)
    (download_assets (with_order E order2) default_url_download).
Proof.
  unfold download_assets. apply related_bind; [apply related_try_tab|].
  intros [|]; [|apply related_ret].
  rel_state. destruct (product_id (product_info _)) as [prod_id|]; [|apply related_raise].
  apply related_bind; [apply (related_download_files _ E)|]. intros img.
  apply related_bind; [apply (related_download_files _ E)|]. intros pdf.
  apply related_bind; [apply related_download_cad|]. intros cads.
  apply related_set_info.
Qed.

Lemma related_run_scrapping (product_url : string) :
  (∀ pg, render E product_url = Some pg → plain_cad_urls pg) →
  (∀ pg, stalled E product_url = Some pg → plain_cad_urls pg) →
  related plain_cad_urls
    (run_scrapping (with_order E order1) default_url_download product_url)
    (run_scrapping (with_order E order2) default_url_download product_url).
Proof.
  intros Hrender Hstalled.
  unfold run_scrapping. apply related_bind; [apply related_log|]. intros _.
  apply related_bind; [apply (related_get_response _ E)|]. intros [response|];
    [|apply related_ret].
  apply related_bind; [|intros _; apply (related_saving _ E)].
  unfold run_pipe.
  apply related_bind; [by apply (related_load_page _ E)|]. intros _.
  apply related_bind; [apply related_get_head|]. intros _.
  apply related_bind; [apply related_get_specs|]. intros _.
  apply related_bind; [apply (related_get_bom _ E)|]. intros _.
  apply related_bind; [apply related_download_assets|]. intros _.
  apply related_close.
Qed.

(** X24: an address is scraped a second time by another run of the
    program, in a world that has not changed but for the order in which the
    sets are iterated (it follows the hash seed of the process). When the
    addresses of the CAD files of its page hold no percent sign, the second
    run ends as the first and leaves the files as the first run left them:
    the metadata and the downloads are written again with the same content.
    The record and the state of the browser are those of the first run; only
    the log has grown. *)
Theorem run_scrapping_again (product_url : string) (st st1 : scrapper F)
    (r : outcome unit) :
  (∀ pg, render E product_url = Some pg ∨ stalled E product_url = Some pg →
     plain_cad_urls pg) →
  run_scrapping (with_order E order1) default_url_download product_url
    (instantiated st) = (r, st1) →
  ∃ st2,
    run_scrapping (with_order E order2) default_url_download product_url
      (instantiated st1) = (r, st2)
    ∧ files st2 = files st1
    ∧ product_info st2 = product_info st1
    ∧ driver st2 = driver st1.
Proof.
  intros Hplain Hrun.
  destruct (related_run_scrapping product_url
              (λ pg H, Hplain pg (or_introl H)) (λ pg H, Hplain pg (or_intror H))
              (instantiated st) (instantiated st1))
    as (writes & Hr & (Hi & Hd & _) & Hf1 & Hf2); [done|].
  rewrite Hrun in Hr, Hi, Hd, Hf1. simpl in *.
  destruct (run_scrapping (with_order E order2) default_url_download product_url
              (instantiated st1)) as [r2 st2]. simpl in *. subst r2.
  exists st2. split; [done|]. split; [|by split].
  by rewrite Hf2, Hf1, apply_writes_twice.
Qed.

End AgainOrders.

Lemma iteration_order_elements : iteration_order elements.
Proof.
  intros X. split; [apply NoDup_elements|]. intros c. apply elem_of_elements.
Qed.

Lemma iteration_order_reverse : iteration_order reverse_order.
Proof.
  intros X. unfold reverse_order.
  split; [rewrite reverse_Permutation; apply NoDup_elements|].
  intros c. by rewrite elem_of_reverse, elem_of_elements.
Qed.

Lemma plain_cad_page : plain_cad_urls cad_page.
Proof.
  intros cad_list info [= <-] Hin. unfold sample_cads in Hin.
  repeat (apply elem_of_cons in Hin as [->|Hin]; [reflexivity|]).
  by apply elem_of_nil in Hin.
Qed.

(** X24 on the page with two CAD files, scraped a second time with the sets
    iterated backwards. *)
Lemma run_scrapping_again_witness :
  ∃ st2,
    run_scrapping (with_order cad_env reverse_order) download_base sample_url
      (instantiated (run_scrapping (with_order cad_env elements) download_base
                       sample_url (instantiated new_scrapper)).2)
    = (Return tt, st2)
    ∧ files st2
      = files (run_scrapping (with_order cad_env elements) download_base
                 sample_url (instantiated new_scrapper)).2.
Proof.
  destruct (run_scrapping_again cad_env download_base elements reverse_order
              iteration_order_elements iteration_order_reverse
              sample_url new_scrapper
              (run_scrapping (with_order cad_env elements) download_base
                 sample_url (instantiated new_scrapper)).2 (Return tt))
    as (st2 & Hrun & Hf & _).
  - intros pg [[= <-]|[= <-]]; [apply plain_cad_page|].
    by intros cad_list info.
  - reflexivity.
  - exists st2. split; [exact Hrun|exact Hf].
Defined.
